(** * NadexBot: the currency-option valuation core

    A shallow embedding of the class [CurrencyOption] of src/CurrencyOption.py:
    the constructor [__init__] with its contract parsing, the feed update
    [updateFields], [convertUnits], the bisection of [calculateVolatility] on
    the Garman-Kohlhagen model, and the Greeks from [delta] to [ultima]. The
    class of the same name in src/NadexScrape0.0.7.py has the same loop,
    statement for statement. The methods of [NadexSearch] that work on the
    text of the page follow.

    Python floats are modelled by the real numbers: exact arithmetic, no
    rounding, no overflow, no underflow, no nan. So [exp] is never 0, the
    normal distribution function lies strictly between 0 and 1 and is
    strictly increasing, and a bisection bracket can be halved for ever;
    in double precision [math.exp] underflows to 0, [norm.cdf] reaches 0 and
    1, and a bracket ends on two adjacent doubles. Statements that depend on
    this (termination for every positive precision, strict monotonicity,
    strict positivity) are statements about exact arithmetic, and say so.

    Python exceptions are an error result, and the [while True] loop is a
    fixpoint on a number of passes allowed. [scipy.stats.norm.cdf] is the
    standard normal distribution function, defined by the integral of its
    density; the builtin [float] on strings is a parameter. Of the process
    [__init__] starts on [updateFields] the model has the construction of its
    arguments; [updateFields] itself is modelled as a method. *)

From Stdlib Require Import Reals Lra Lia List String Ascii Bool.
Import ListNotations.
Open Scope R_scope.

(** ** Python runtime: exceptions, results, arithmetic *)

Inductive pyexn : Type :=
| ZeroDivisionError
| ValueError
| IndexError
| KeyError (key : string).

Inductive outcome (A : Type) : Type :=
| Returned (a : A)
| Raised (e : pyexn)
| OutOfFuel.
Arguments Returned {A} a.
Arguments Raised {A} e.
Arguments OutOfFuel {A}.

Definition bind {A B : Type} (c : outcome A) (k : A -> outcome B) : outcome B :=
  match c with
  | Returned a => k a
  | Raised e => Raised e
  | OutOfFuel => OutOfFuel
  end.

Notation "x <- c ;; k" := (bind c (fun x => k))
  (at level 61, c at next level, right associativity).

Definition Rleb (x y : R) : bool := if Rle_dec x y then true else false.
Definition Rltb (x y : R) : bool := if Rlt_dec x y then true else false.

(** [x / y] on floats. *)
Definition py_div (x y : R) : outcome R :=
  if Req_dec_T y 0 then Raised ZeroDivisionError else Returned (x / y).

(** [math.log]. *)
Definition py_log (x : R) : outcome R :=
  if Rlt_dec 0 x then Returned (ln x) else Raised ValueError.

(** [math.sqrt]. *)
Definition py_sqrt (x : R) : outcome R :=
  if Rle_dec 0 x then Returned (sqrt x) else Raised ValueError.

(** ** Python runtime: strings, lists, dicts *)

(** [s.split(sep)] for a one-character separator: every occurrence of the
    separator cuts, so adjacent separators give empty fields. *)
Fixpoint py_split (sep : ascii) (s : string) : list string :=
  match s with
  | EmptyString => [EmptyString]
  | String c rest =>
      if Ascii.eqb c sep then EmptyString :: py_split sep rest
      else match py_split sep rest with
           | field :: fields => String c field :: fields
           | [] => [String c EmptyString]
           end
  end.

(** [s.replace(c, "")] for a one-character [c]. *)
Fixpoint py_remove (c : ascii) (s : string) : string :=
  match s with
  | EmptyString => EmptyString
  | String a rest => if Ascii.eqb a c then py_remove c rest else String a (py_remove c rest)
  end.

(** [l[i]] for [i >= 0]. *)
Definition py_index {A : Type} (l : list A) (i : nat) : outcome A :=
  match nth_error l i with
  | Some a => Returned a
  | None => Raised IndexError
  end.

(** [l[-i]] for [i >= 1]. *)
Definition py_index_neg {A : Type} (l : list A) (i : nat) : outcome A :=
  if Nat.leb i (List.length l) then py_index l (List.length l - i) else Raised IndexError.

Definition dict (V : Type) : Type := list (string * V).

(** [d[k]]. *)
Fixpoint dict_get {V : Type} (d : dict V) (k : string) : outcome V :=
  match d with
  | [] => Raised (KeyError k)
  | (k', v) :: d' => if String.eqb k' k then Returned v else dict_get d' k
  end.

(** ** The standard normal distribution ([scipy.stats.norm]) *)

(** The density without its normalising constant. *)
Definition norm_pdf_kernel (t : R) : R := exp (- (t * t) / 2).

Lemma kernel_continuous : continuity norm_pdf_kernel.
Proof. unfold norm_pdf_kernel. reg. Qed.

Definition kernel_integrable (a b : R) : Riemann_integrable norm_pdf_kernel a b.
Proof.
  destruct (Rle_dec a b) as [Hab | Hba].
  - apply continuity_implies_RiemannInt; [exact Hab | intros; apply kernel_continuous].
  - apply RiemannInt_P1.
    apply continuity_implies_RiemannInt; [lra | intros; apply kernel_continuous].
Defined.

(** The integral of the kernel from 0 to [x]. *)
Definition kernel_area (x : R) : R := RiemannInt (kernel_integrable 0 x).

(** The standard normal distribution function:
    1/2 + (1/sqrt(2 pi)) * integral from 0 to x of exp(-t^2/2). It is the
    exact function, strictly between 0 and 1; [norm.cdf] on doubles returns
    0 below about -38.5 and 1 above about 8.3. *)
Definition norm_cdf (x : R) : R := 1 / 2 + kernel_area x / sqrt (2 * PI).

(** [norm.cdf(x, loc, scale)]. *)
Definition norm_cdf_at (x loc scale : R) : R := norm_cdf ((x - loc) / scale).

(** ** The option object *)

Record CurrencyOption : Type := mkCurrencyOption {
  name : string;
  buyPrice : R;
  sellPrice : R;
  buyHistory : list R;
  sellHistory : list R;
  underlyingHistory : R;
  expiry : R;
  doExpiry : bool;
  underlying : R;
  strike : R;
  countries : list string;
  conversionFactor : R;
  r_domestic : R;
  r_foreign : R;
  d1 : R;
  d2 : R;
  d1Squared : R;
  d1d2 : R;
  d2Squared : R;
  volatility : R
}.

Definition set_buyPrice (self : CurrencyOption) (v : R) : CurrencyOption :=
  mkCurrencyOption (name self) v (sellPrice self) (buyHistory self) (sellHistory self)
    (underlyingHistory self) (expiry self) (doExpiry self) (underlying self) (strike self)
    (countries self) (conversionFactor self) (r_domestic self) (r_foreign self)
    (d1 self) (d2 self) (d1Squared self) (d1d2 self) (d2Squared self) (volatility self).

Definition set_sellPrice (self : CurrencyOption) (v : R) : CurrencyOption :=
  mkCurrencyOption (name self) (buyPrice self) v (buyHistory self) (sellHistory self)
    (underlyingHistory self) (expiry self) (doExpiry self) (underlying self) (strike self)
    (countries self) (conversionFactor self) (r_domestic self) (r_foreign self)
    (d1 self) (d2 self) (d1Squared self) (d1d2 self) (d2Squared self) (volatility self).

Definition set_expiry (self : CurrencyOption) (v : R) : CurrencyOption :=
  mkCurrencyOption (name self) (buyPrice self) (sellPrice self) (buyHistory self)
    (sellHistory self) (underlyingHistory self) v (doExpiry self) (underlying self)
    (strike self) (countries self) (conversionFactor self) (r_domestic self)
    (r_foreign self) (d1 self) (d2 self) (d1Squared self) (d1d2 self) (d2Squared self)
    (volatility self).

Definition set_underlying (self : CurrencyOption) (v : R) : CurrencyOption :=
  mkCurrencyOption (name self) (buyPrice self) (sellPrice self) (buyHistory self)
    (sellHistory self) (underlyingHistory self) (expiry self) (doExpiry self) v
    (strike self) (countries self) (conversionFactor self) (r_domestic self)
    (r_foreign self) (d1 self) (d2 self) (d1Squared self) (d1d2 self) (d2Squared self)
    (volatility self).

Definition set_d1 (self : CurrencyOption) (v : R) : CurrencyOption :=
  mkCurrencyOption (name self) (buyPrice self) (sellPrice self) (buyHistory self)
    (sellHistory self) (underlyingHistory self) (expiry self) (doExpiry self)
    (underlying self) (strike self) (countries self) (conversionFactor self)
    (r_domestic self) (r_foreign self) v (d2 self) (d1Squared self) (d1d2 self)
    (d2Squared self) (volatility self).

Definition set_d2 (self : CurrencyOption) (v : R) : CurrencyOption :=
  mkCurrencyOption (name self) (buyPrice self) (sellPrice self) (buyHistory self)
    (sellHistory self) (underlyingHistory self) (expiry self) (doExpiry self)
    (underlying self) (strike self) (countries self) (conversionFactor self)
    (r_domestic self) (r_foreign self) (d1 self) v (d1Squared self) (d1d2 self)
    (d2Squared self) (volatility self).

Definition set_d1Squared (self : CurrencyOption) (v : R) : CurrencyOption :=
  mkCurrencyOption (name self) (buyPrice self) (sellPrice self) (buyHistory self)
    (sellHistory self) (underlyingHistory self) (expiry self) (doExpiry self)
    (underlying self) (strike self) (countries self) (conversionFactor self)
    (r_domestic self) (r_foreign self) (d1 self) (d2 self) v (d1d2 self)
    (d2Squared self) (volatility self).

Definition set_d1d2 (self : CurrencyOption) (v : R) : CurrencyOption :=
  mkCurrencyOption (name self) (buyPrice self) (sellPrice self) (buyHistory self)
    (sellHistory self) (underlyingHistory self) (expiry self) (doExpiry self)
    (underlying self) (strike self) (countries self) (conversionFactor self)
    (r_domestic self) (r_foreign self) (d1 self) (d2 self) (d1Squared self) v
    (d2Squared self) (volatility self).

Definition set_d2Squared (self : CurrencyOption) (v : R) : CurrencyOption :=
  mkCurrencyOption (name self) (buyPrice self) (sellPrice self) (buyHistory self)
    (sellHistory self) (underlyingHistory self) (expiry self) (doExpiry self)
    (underlying self) (strike self) (countries self) (conversionFactor self)
    (r_domestic self) (r_foreign self) (d1 self) (d2 self) (d1Squared self) (d1d2 self)
    v (volatility self).

Definition set_volatility (self : CurrencyOption) (v : R) : CurrencyOption :=
  mkCurrencyOption (name self) (buyPrice self) (sellPrice self) (buyHistory self)
    (sellHistory self) (underlyingHistory self) (expiry self) (doExpiry self)
    (underlying self) (strike self) (countries self) (conversionFactor self)
    (r_domestic self) (r_foreign self) (d1 self) (d2 self) (d1Squared self) (d1d2 self)
    (d2Squared self) v.

(** Reading a field of an explicit object. *)
Ltac read_fields :=
  cbn [name buyPrice sellPrice buyHistory sellHistory underlyingHistory expiry doExpiry
       underlying strike countries conversionFactor r_domestic r_foreign d1 d2 d1Squared
       d1d2 d2Squared volatility set_buyPrice set_sellPrice set_expiry set_underlying
       set_d1 set_d2 set_d1Squared set_d1d2 set_d2Squared set_volatility] in *.

(** The class attribute [riskFreeRates]. *)
Definition riskFreeRates : dict R :=
  [ ("AUD"%string, 0.0371); ("CAD"%string, 0.0225); ("CHF"%string, 0.0075);
    ("EUR"%string, 0.0256); ("GBP"%string, 0.0256); ("JPY"%string, 0.0057);
    ("USD"%string, 0.0252) ].

(** ** [calculateVolatility] *)

(** The right-hand side of the assignment to [self.d1], evaluated left to
    right: the quotient, its logarithm, the square root, the division. *)
Definition eval_d1 (self : CurrencyOption) : outcome R :=
  q <- py_div (underlying self) (strike self) ;;
  l <- py_log q ;;
  s <- py_sqrt (expiry self) ;;
  py_div (l + (r_domestic self - r_foreign self
               + 0.5 * volatility self * volatility self) * expiry self)
         (volatility self * s).

(** What one pass through the body of [while True] decides. *)
Inductive loop_ctl : Type :=
| Break
| Continue (low high : R).

Definition loop_body (self : CurrencyOption) (precision low high : R)
  : outcome (CurrencyOption * loop_ctl) :=
  let self := set_volatility self ((high + low) / 2.0) in
  d <- eval_d1 self ;;
  let self := set_d1 self d in
  let value := exp (- r_domestic self * expiry self) * norm_cdf_at (d1 self) 0 1
               * buyPrice self * conversionFactor self in
  if Rleb (Rabs (buyPrice self - value)) precision || Rleb high 0.1 || Rleb 299.9 low
  then Returned (self, Break)
  else if Rltb value (buyPrice self) then Returned (self, Continue (volatility self) high)
  else if Rltb (buyPrice self) value then Returned (self, Continue low (volatility self))
  else Returned (self, Continue low high).

(** The loop, with the locals [low] and [high] it leaves behind at [break].
    The bracket is halved exactly, where the doubles of the source end on
    two adjacent values. *)
Fixpoint bisection (fuel : nat) (self : CurrencyOption) (precision low high : R)
  : outcome (CurrencyOption * (R * R)) :=
  match fuel with
  | O => OutOfFuel
  | S fuel' =>
      r <- loop_body self precision low high ;;
      match snd r with
      | Break => Returned (fst r, (low, high))
      | Continue low' high' => bisection fuel' (fst r) precision low' high'
      end
  end.

(** The assignments after the loop. *)
Definition finish (self : CurrencyOption) : outcome CurrencyOption :=
  s <- py_sqrt (expiry self) ;;
  let self := set_d2 self (d1 self - volatility self * s) in
  let self := set_d1Squared self (d1 self * d1 self) in
  let self := set_d1d2 self (d1 self * d2 self) in
  let self := set_d2Squared self (d2 self * d2 self) in
  Returned self.

(** The method: the updated object and the returned volatility. *)
Definition calculateVolatility (fuel : nat) (self : CurrencyOption) (precision : R)
  : outcome (CurrencyOption * R) :=
  r <- bisection fuel self precision 0.01 300.0 ;;
  self <- finish (fst r) ;;
  Returned (self, volatility self).

(** ** [updateFields] *)

(** What one [pipe.recv()] yields: the sell history, the buy history, the
    time to expiry and the underlying. *)
Definition feed_message : Type := (list R * list R * R * R)%type.

Definition msg_sell (m : feed_message) : list R := fst (fst (fst m)).
Definition msg_buy (m : feed_message) : list R := snd (fst (fst m)).
Definition msg_expiry (m : feed_message) : R := snd (fst m).
Definition msg_underlying (m : feed_message) : R := snd m.

(** One pass of [while self.doExpiry]: four messages are received, one per
    assignment. *)
Definition updateFields_feed (self : CurrencyOption) (m0 m1 m2 m3 : feed_message)
  : outcome CurrencyOption :=
  s <- py_index_neg (msg_sell m0) 1 ;;
  let self := set_sellPrice self s in
  b <- py_index_neg (msg_buy m1) 1 ;;
  let self := set_buyPrice self b in
  let self := set_expiry self (msg_expiry m2) in
  let self := set_underlying self (msg_underlying m3) in
  Returned self.

(** One pass of [while not self.doExpiry]. *)
Definition updateFields_history (self : CurrencyOption) : outcome CurrencyOption :=
  b <- py_index_neg (buyHistory self) 1 ;;
  let self := set_buyPrice self b in
  s <- py_index_neg (sellHistory self) 1 ;;
  let self := set_sellPrice self s in
  let self := set_underlying self (underlyingHistory self) in
  Returned self.

(** One pass of the method: of its first loop when [doExpiry] is set, of its
    second loop otherwise. *)
Definition updateFields (self : CurrencyOption) (m0 m1 m2 m3 : feed_message)
  : outcome CurrencyOption :=
  if doExpiry self then updateFields_feed self m0 m1 m2 m3
  else updateFields_history self.

(** The whole method: its two loops, one after the other. The pipe is the
    sequence of the messages it delivers; [pos] counts the messages already
    received. *)
Fixpoint updateFields_first_loop (fuel : nat) (self : CurrencyOption)
    (pipe : nat -> feed_message) (pos : nat) : outcome CurrencyOption :=
  match fuel with
  | O => OutOfFuel
  | S fuel' =>
      if doExpiry self
      then self' <- updateFields_feed self (pipe pos) (pipe (1 + pos)%nat)
                      (pipe (2 + pos)%nat) (pipe (3 + pos)%nat) ;;
           updateFields_first_loop fuel' self' pipe (4 + pos)
      else Returned self
  end.

Fixpoint updateFields_second_loop (fuel : nat) (self : CurrencyOption)
  : outcome CurrencyOption :=
  match fuel with
  | O => OutOfFuel
  | S fuel' =>
      if negb (doExpiry self)
      then self' <- updateFields_history self ;;
           updateFields_second_loop fuel' self'
      else Returned self
  end.

Definition updateFields_call (fuel : nat) (self : CurrencyOption)
    (pipe : nat -> feed_message) : outcome CurrencyOption :=
  self' <- updateFields_first_loop fuel self pipe 0 ;;
  updateFields_second_loop fuel self'.


(** ** [delta] *)

Definition delta (self : CurrencyOption) (short : bool) : R :=
  if short
  then - exp (- r_foreign self * expiry self) * norm_cdf (- d1 self)
  else exp (- r_foreign self * expiry self) * norm_cdf (d1 self).

(** ** The other Greeks *)

(** The class attribute [TWOPI]. *)
Definition TWOPI : R := 2 * PI.

(** The factor exp(-r_foreign*T - d1Squared/2) the Greeks share. The exact
    exponential is never 0; [math.exp] underflows to 0 below about -745. *)
Definition greek_exp (self : CurrencyOption) : R :=
  exp (- r_foreign self * expiry self - d1Squared self / 2).

Definition leverage (self : CurrencyOption) (short : bool) : outcome R :=
  if short
  then q <- py_div (underlying self) (strike self) ;;
       Returned (- exp (- r_foreign self * expiry self) * norm_cdf (- d1 self) * q)
  else q <- py_div (underlying self) (strike self) ;;
       Returned (exp (- r_foreign self * expiry self) * norm_cdf (d1 self) * q).

Definition theta (self : CurrencyOption) (short : bool) : outcome R :=
  s <- py_sqrt (TWOPI * expiry self) ;;
  decay <- py_div (- greek_exp self * underlying self * volatility self) (2 * s) ;;
  if short
  then Returned (decay
                 - r_foreign self * exp (- r_foreign self * expiry self)
                   * norm_cdf (- d1 self)
                 + r_domestic self * exp (r_domestic self * expiry self) * strike self
                   * norm_cdf (- d2 self))
  else Returned (decay
                 + r_foreign self * exp (- r_foreign self * expiry self)
                   * norm_cdf (d1 self)
                 - r_domestic self * exp (r_domestic self * expiry self) * strike self
                   * norm_cdf (d2 self)).

Definition vega (self : CurrencyOption) : outcome R :=
  q <- py_div (expiry self) TWOPI ;;
  s <- py_sqrt q ;;
  Returned (greek_exp self * underlying self * s).

Definition rho (self : CurrencyOption) (short : bool) : R :=
  if short
  then - expiry self * exp (- r_domestic self * expiry self) * strike self
       * norm_cdf (- d2 self)
  else expiry self * exp (- r_domestic self * expiry self) * strike self
       * norm_cdf (d2 self).

Definition gamma (self : CurrencyOption) : outcome R :=
  s <- py_sqrt (TWOPI * expiry self) ;;
  py_div (greek_exp self) (underlying self * volatility self * s).

Definition vanna (self : CurrencyOption) : outcome R :=
  s <- py_sqrt TWOPI ;;
  py_div (- greek_exp self * d2 self) (volatility self * s).

Definition vomma (self : CurrencyOption) : outcome R :=
  s <- py_sqrt (expiry self) ;;
  py_div (underlying self * greek_exp self * s * d1d2 self) (volatility self).

Definition speed (self : CurrencyOption) : outcome R :=
  s <- py_sqrt (TWOPI * expiry self) ;;
  g <- py_div (greek_exp self) (underlying self * volatility self * s) ;;
  gu <- py_div g (underlying self) ;;
  s' <- py_sqrt (expiry self) ;;
  q <- py_div (d1 self) (volatility self * s') ;;
  Returned (- gu * (1 + q)).

Definition zomma (self : CurrencyOption) : outcome R :=
  s <- py_sqrt (TWOPI * expiry self) ;;
  g <- py_div (greek_exp self) (underlying self * volatility self * s) ;;
  q <- py_div (d1d2 self - 1) (volatility self) ;;
  Returned (g * q).

Definition ultima (self : CurrencyOption) : outcome R :=
  q <- py_div (expiry self) TWOPI ;;
  s <- py_sqrt q ;;
  v <- py_div (- greek_exp self * underlying self * s)
         (volatility self * volatility self) ;;
  Returned (v * (d1d2 self * (1 - d1d2 self) + d1Squared self + d2Squared self)).

(** ** [__init__] *)

(** What is passed as [pipe]. Line 29 hands it to [Process] as [args=(pipe)],
    which is [pipe] itself and no tuple, and [Process] builds [tuple(args)]:
    a connection end, which is not iterable, makes it raise TypeError; a
    tuple or a list of [n] values is accepted. *)
Inductive pipe_argument : Type :=
| Connection
| Arguments (n : nat).

(** What the constructor ends in: TypeError is none of [pyexn]. *)
Inductive constructed : Type :=
| Constructed (self : CurrencyOption)
| ConstructTypeError
| ConstructRaised (e : pyexn)
| ConstructOutOfFuel.

Section Constructor.
(** The builtin [float] on strings: the parsed number, or [ValueError]. *)
Variable py_float : string -> outcome R.

(** Line 32: the strike. *)
Definition parse_strike (name : string) : outcome R :=
  field <- py_index_neg (py_split " " name) 2 ;;
  py_float (py_remove ">" field).

(** Line 33: the currency codes. *)
Definition parse_countries (name : string) : outcome (list string) :=
  pair <- py_index (py_split " " name) 0 ;;
  Returned (py_split "/" pair).

(** Lines 32 to 43 of the constructor, after the assignments of lines 13 to
    28, which raise nothing. [indicative] is [Some x] when it is a float; the
    attribute [volatility], which does not exist before the call of
    [calculateVolatility], starts at 0. *)
Definition init_body (fuel : nat) (name : string) (buy sell exchangeRate expireTime : R)
    (indicative : option R) (buyHistory sellHistory : list R) (underlyingHistory : R)
  : outcome CurrencyOption :=
  let underlying := match indicative with Some x => x | None => exchangeRate end in
  let doExpiry := match indicative with Some _ => true | None => false end in
  strike <- parse_strike name ;;
  countries <- parse_countries name ;;
  conversionFactor <- py_div 1 underlying ;;
  c0 <- py_index countries 0 ;;
  r_domestic <- dict_get riskFreeRates c0 ;;
  c1 <- py_index countries 1 ;;
  r_foreign <- dict_get riskFreeRates c1 ;;
  let self := mkCurrencyOption name buy sell buyHistory sellHistory underlyingHistory
                expireTime doExpiry underlying strike countries conversionFactor
                r_domestic r_foreign 0 0 0 0 0 0 in
  r <- calculateVolatility fuel self 0.05 ;;
  Returned (set_volatility (fst r) (snd r)).

(** The constructor. Of the update process of lines 29 and 30 the model has
    the construction of its arguments, the one step that can raise in the
    constructor; what the process does is [updateFields]. *)
Definition init (fuel : nat) (name : string) (buy sell exchangeRate expireTime : R)
    (indicative : option R) (pipe : pipe_argument) (buyHistory sellHistory : list R)
    (underlyingHistory : R) : constructed :=
  match pipe with
  | Connection => ConstructTypeError
  | Arguments _ =>
      match init_body fuel name buy sell exchangeRate expireTime indicative
              buyHistory sellHistory underlyingHistory with
      | Returned self => Constructed self
      | Raised e => ConstructRaised e
      | OutOfFuel => ConstructOutOfFuel
      end
  end.

(** The contract terms [__init__] derives from the name and the underlying
    (lines 32 to 36), in the order it derives them. *)
Record ContractTerms : Type := mkContractTerms {
  ct_strike : R;
  ct_countries : list string;
  ct_conversionFactor : R;
  ct_domestic : R;
  ct_foreign : R
}.

Definition parse (rateTable : dict R) (name : string) (underlying : R)
  : outcome ContractTerms :=
  strike <- parse_strike name ;;
  countries <- parse_countries name ;;
  conversionFactor <- py_div 1 underlying ;;
  c0 <- py_index countries 0 ;;
  r_domestic <- dict_get rateTable c0 ;;
  c1 <- py_index countries 1 ;;
  r_foreign <- dict_get rateTable c1 ;;
  Returned (mkContractTerms strike countries conversionFactor r_domestic r_foreign).

End Constructor.

(** ** Specification-level formulas *)

(** The Garman-Kohlhagen d1 as the specification writes it. *)
Definition gk_d1 (underlying strike r_domestic r_foreign T vol : R) : R :=
  (ln (underlying / strike) + (r_domestic - r_foreign + 0.5 * vol ^ 2) * T)
  / (vol * sqrt T).

(** The model price of the calibration loop as the specification writes it. *)
Definition model_price (r_domestic T d1 referencePrice conversionFactor : R) : R :=
  exp (- r_domestic * T) * norm_cdf d1 * referencePrice * conversionFactor.

(** The model price of an option at a given volatility. *)
Definition price_at (self : CurrencyOption) (vol : R) : R :=
  model_price (r_domestic self) (expiry self)
    (gk_d1 (underlying self) (strike self) (r_domestic self) (r_foreign self)
       (expiry self) vol)
    (buyPrice self) (conversionFactor self).

(** The exit test of the loop as the specification writes it. *)
Definition exit_condition (referencePrice modelPrice precision low high : R) : Prop :=
  Rabs (referencePrice - modelPrice) <= precision \/ high <= 0.1 \/ low >= 299.9.

(** Inputs on which the d1 expression raises nothing. *)
Definition well_formed (self : CurrencyOption) : Prop :=
  0 < expiry self /\ strike self <> 0 /\ 0 < underlying self / strike self.

(** The part of d1's numerator that does not depend on the volatility. *)
Definition log_moneyness (self : CurrencyOption) : R :=
  ln (underlying self / strike self) + (r_domestic self - r_foreign self) * expiry self.

(** What the specification says one pass of the loop does. *)
Definition iteration_spec (self : CurrencyOption) (precision low high : R) : Prop :=
  let vol := (low + high) / 2 in
  let d := gk_d1 (underlying self) (strike self) (r_domestic self) (r_foreign self)
             (expiry self) vol in
  let price := model_price (r_domestic self) (expiry self) d (buyPrice self)
                 (conversionFactor self) in
  exists self' ctl,
    loop_body self precision low high = Returned (self', ctl)
    /\ volatility self' = vol
    /\ d1 self' = d
    /\ (exit_condition (buyPrice self) price precision low high -> ctl = Break)
    /\ (~ exit_condition (buyPrice self) price precision low high ->
        price < buyPrice self -> ctl = Continue vol high)
    /\ (~ exit_condition (buyPrice self) price precision low high ->
        price > buyPrice self -> ctl = Continue low vol).

(** What holds of the object a calibration call leaves behind. *)
Definition calibrated (precision : R) (self' : CurrencyOption) (vol : R) : Prop :=
  d2 self' = d1 self' - volatility self' * sqrt (expiry self')
  /\ vol = volatility self'
  /\ exists prev last low high,
       loop_body prev precision low high = Returned (last, Break)
       /\ d1 self' = d1 last /\ volatility self' = volatility last.

(** What the call does when the time to expiry, the underlying or the strike
    is not positive: the error its first pass raises, or none. *)
Definition input_outcome (fuel : nat) (self : CurrencyOption) (precision : R) : Prop :=
  (strike self = 0
   /\ calculateVolatility (S fuel) self precision = Raised ZeroDivisionError)
  \/ (strike self <> 0 /\ underlying self / strike self <= 0
      /\ calculateVolatility (S fuel) self precision = Raised ValueError)
  \/ (strike self <> 0 /\ 0 < underlying self / strike self /\ expiry self < 0
      /\ calculateVolatility (S fuel) self precision = Raised ValueError)
  \/ (strike self <> 0 /\ 0 < underlying self / strike self /\ expiry self = 0
      /\ calculateVolatility (S fuel) self precision = Raised ZeroDivisionError)
  \/ (strike self < 0 /\ underlying self < 0 /\ 0 < expiry self
      /\ well_formed self
      /\ forall fuel' e, calculateVolatility fuel' self precision <> Raised e).

(** ** Whitespace-separated tokens, as the specification words them *)

(** Tab, line feed, vertical tab, form feed, carriage return, space. *)
Definition is_whitespace (c : ascii) : bool :=
  match nat_of_ascii c with
  | 9%nat | 10%nat | 11%nat | 12%nat | 13%nat | 32%nat => true
  | _ => false
  end.

(** The maximal runs of non-whitespace characters. *)
Fixpoint ws_fields (s : string) : list string :=
  match s with
  | EmptyString => [EmptyString]
  | String c rest =>
      if is_whitespace c then EmptyString :: ws_fields rest
      else match ws_fields rest with
           | field :: fields => String c field :: fields
           | [] => [String c EmptyString]
           end
  end.

(** The non-empty runs: what [s.split()] returns. *)
Definition ws_tokens (s : string) : list string :=
  filter (fun t => negb (String.eqb t EmptyString)) (ws_fields s).

(** The second-to-last whitespace-separated token with any ">" removed. *)
Definition spec_strike_token (name : string) : option string :=
  let tokens := ws_tokens name in
  match nth_error tokens (List.length tokens - 2) with
  | Some t => if Nat.leb 2 (List.length tokens) then Some (py_remove ">" t) else None
  | None => None
  end.

(** An identifier as the code reads it: at least two fields joined by single
    spaces, the first of them codes joined by "/". *)
Definition identifier (codes middle : list string) (lastField : string) : string :=
  String.concat " " (String.concat "/" codes :: middle ++ [lastField]).

(** Its second-to-last field: the last of the fields before the last one,
    which is the first field itself when the identifier has only two. *)
Definition strike_field (codes middle : list string) : string :=
  List.last (String.concat "/" codes :: middle) EmptyString.

(** ** Sample inputs *)

(** A EUR/USD contract quoted at 50. *)
Definition sample_option : CurrencyOption :=
  mkCurrencyOption "EUR/USD >1.1000 (3PM)" 50.0 45.0 [50.0] [45.0] 1.105 0.0833 true
    1.105 1.1 ["EUR"%string; "USD"%string] (1 / 1.105) 0.0256 0.0252 0 0 0 0 0 0.

(** The same contract quoted at 0.0120. *)
Definition cheap_option : CurrencyOption := set_buyPrice sample_option 0.0120.

(** The discounted value of Phi(1) over four years at the EUR rate. *)
Definition stuck_level : R := exp (- (0.0256) * 4) * norm_cdf 1.

(** A EUR/GBP contract, four years to expiry, at the money, quoted at 1, whose
    model price meets the quote at the volatility 1 and nowhere else. *)
Definition stuck_option : CurrencyOption :=
  mkCurrencyOption "EUR/GBP >0.7594 (3PM)" 1 1 [1] [1] stuck_level 4 true
    stuck_level stuck_level ["EUR"%string; "GBP"%string] (1 / stuck_level)
    0.0256 0.0256 0 0 0 0 0 0.

(** An option deep in the money: EUR/GBP, one year, strike 1, underlying 2. *)
Definition itm_option : CurrencyOption :=
  mkCurrencyOption "EUR/GBP >1.0000 (3PM)" 50.0 45.0 [50.0] [45.0] 2.0 1 true
    2.0 1.0 ["EUR"%string; "GBP"%string] (1 / 2.0) 0.0256 0.0256 0 0 0 0 0 0.

(** The sample contract quoted at 0. *)
Definition zero_price_option : CurrencyOption := set_buyPrice sample_option 0.

(** An option at the money: EUR/GBP, underlying and strike 0.85. *)
Definition atm_option : CurrencyOption :=
  mkCurrencyOption "EUR/GBP >0.8500 (3PM)" 50.0 45.0 [50.0] [45.0] 0.85 0.0833 true
    0.85 0.85 ["EUR"%string; "GBP"%string] (1 / 0.85) 0.0256 0.0256 0 0 0 0 0 0.

(** The sample contract with the signs of strike and underlying flipped. *)
Definition negative_option : CurrencyOption :=
  mkCurrencyOption "EUR/USD >-1.1000 (3PM)" 50.0 45.0 [50.0] [45.0] (- 1.105) 0.0833 true
    (- 1.105) (- 1.1) ["EUR"%string; "USD"%string] (1 / - 1.105) 0.0256 0.0252
    0 0 0 0 0 0.

(** The sample contract at its expiry. *)
Definition expired_option : CurrencyOption := set_expiry sample_option 0.

(** A feed message that moves the underlying from 1.105 to 1.2. *)
Definition sample_message : feed_message := ([45.0], [50.0], 0.0833, 1.2).

(** An option built without an indicative price: it follows its histories. *)
Definition history_option : CurrencyOption :=
  mkCurrencyOption "EUR/USD >1.1000 (3PM)" 50.0 45.0 [49.0; 50.5] [44.0; 45.5] 1.11
    0.0833 false 1.105 1.1 ["EUR"%string; "USD"%string] (1 / 1.105) 0.0256 0.0252
    0 0 0 0 0 0.

(** A [float] for the sample pages: it rejects "-" and reads 50 elsewhere. *)
Definition sample_float (s : string) : outcome R :=
  if String.eqb s "-" then Raised ValueError else Returned 50.

(** ** Auxiliary definitions *)

(** The fields the loop reads and never writes. *)
Definition market_eq (a b : CurrencyOption) : Prop :=
  buyPrice a = buyPrice b /\ expiry a = expiry b /\ underlying a = underlying b /\
  strike a = strike b /\ conversionFactor a = conversionFactor b /\
  r_domestic a = r_domestic b /\ r_foreign a = r_foreign b.

(** Every field but the model state (volatility, d1, d2 and their products). *)
Definition same_contract (a b : CurrencyOption) : Prop :=
  name a = name b /\ buyPrice a = buyPrice b /\ sellPrice a = sellPrice b
  /\ expiry a = expiry b /\ underlying a = underlying b /\ strike a = strike b
  /\ countries a = countries b /\ conversionFactor a = conversionFactor b
  /\ r_domestic a = r_domestic b /\ r_foreign a = r_foreign b.

(** The decision of one pass, on the specification-level price. *)
Definition next_ctl (self : CurrencyOption) (precision low high : R) : loop_ctl :=
  let vol := (high + low) / 2 in
  let value := price_at self vol in
  if Rleb (Rabs (buyPrice self - value)) precision || Rleb high 0.1 || Rleb 299.9 low
  then Break
  else if Rltb value (buyPrice self) then Continue vol high
  else if Rltb (buyPrice self) value then Continue low vol
  else Continue low high.

(** What holds of the locals at [break]: the exit test of the last pass. *)
Definition exit_state (self0 : CurrencyOption) (precision : R)
    (r : CurrencyOption * (R * R)) : Prop :=
  let '(self, (low, high)) := r in
  market_eq self0 self
  /\ volatility self = (high + low) / 2
  /\ d1 self = gk_d1 (underlying self0) (strike self0) (r_domestic self0)
                 (r_foreign self0) (expiry self0) ((high + low) / 2)
  /\ exit_condition (buyPrice self0) (price_at self0 (volatility self)) precision low high.

(** The object after the assignments that follow the loop. *)
Definition finished (self : CurrencyOption) : CurrencyOption :=
  let self := set_d2 self (d1 self - volatility self * sqrt (expiry self)) in
  let self := set_d1Squared self (d1 self * d1 self) in
  let self := set_d1d2 self (d1 self * d2 self) in
  set_d2Squared self (d2 self * d2 self).

(** The width of the bracket after twelve halvings: 299.99 / 2^12. *)
Definition last_width : R := 299.99 / 2 ^ 12.

(** [c in s]. *)
Fixpoint has_char (c : ascii) (s : string) : bool :=
  match s with
  | EmptyString => false
  | String a rest => Ascii.eqb a c || has_char c rest
  end.

(** The integral of cos^k from 0 to [t], by the reduction formula. *)
Fixpoint cos_area (k : nat) (t : R) : R :=
  match k with
  | O => t
  | S O => sin t
  | S (S j) =>
      cos t ^ S j * sin t / INR (S (S j)) + INR (S j) / INR (S (S j)) * cos_area j t
  end.

(** Wallis numbers: the mass of cos^k on [0, PI/2]. *)
Definition wallis (k : nat) : R := cos_area k (PI / 2).

(** ** The watch list ([NadexSearch]) *)

(** The methods of the class [NadexSearch] of src/NadexScrape0.0.7.py (and,
    line for line, of src/NadexSearch.py) that work on the text of the page.
    The browser is outside the model: a method takes the text its page script
    returned. What the methods print is left out, except for [scanner], whose
    printed rows are its result. *)

(** An element of the lists the scraper builds: a float or a string. *)
Inductive cell : Type :=
| Float (x : R)
| Str (s : string).

(** [isinstance(c, float)]. *)
Definition is_float (c : cell) : bool :=
  match c with
  | Float _ => true
  | Str _ => false
  end.

(** The page scripts of [getOptionNames], [getPrices] and [getIndicatives]:
    the text of every cell the script reads, each followed by a comma (the
    script of [getIndicatives] reads from the second cell on). *)
Definition page_text (cells : list string) : string :=
  fold_left (fun text c => (text ++ (c ++ ","))%string) cells EmptyString.

(** [del l[-1]]. *)
Definition py_del_last {A : Type} (l : list A) : outcome (list A) :=
  match l with
  | [] => Raised IndexError
  | _ => Returned (removelast l)
  end.

(** [del l[i]] for [i >= 0]. *)
Definition py_del {A : Type} (l : list A) (i : nat) : outcome (list A) :=
  if Nat.ltb i (List.length l) then Returned (firstn i l ++ skipn (S i) l)
  else Raised IndexError.

(** [del l[i:j]] for [0 <= i <= j]. *)
Definition del_slice {A : Type} (l : list A) (i j : nat) : list A :=
  firstn i l ++ skipn j l.

(** A line [scanner] prints: the name, the two prices and their distance. *)
Record scan_row : Type := mkScanRow {
  row_name : string;
  row_sell : cell;
  row_buy : cell;
  row_differential : R
}.

(** What [getOptionNames(clean=True)] ends in: [len] of a float raises
    TypeError, an exception the other methods cannot raise. *)
Inductive names_outcome : Type :=
| Names (nameList : list string)
| NamesTypeError
| NamesRaised (e : pyexn)
| NamesOutOfFuel.

Section Watchlist.
(** The builtin [float] on strings. *)
Variable py_float : string -> outcome R.

(** [try: priceList[x] = float(priceList[x])  except ValueError: continue]. *)
Definition convert_price (c : string) : outcome cell :=
  match py_float c with
  | Returned x => Returned (Float x)
  | Raised ValueError => Returned (Str c)
  | Raised e => Raised e
  | OutOfFuel => OutOfFuel
  end.

(** The [for] loop of [getPrices]. *)
Fixpoint convert_prices (priceList : list string) : outcome (list cell) :=
  match priceList with
  | [] => Returned []
  | c :: rest =>
      v <- convert_price c ;;
      vs <- convert_prices rest ;;
      Returned (v :: vs)
  end.

(** The [while] loop of [getPrices(clean=True)]. *)
Fixpoint clean_prices (fuel : nat) (priceList : list cell) (counter : nat)
  : outcome (list cell) :=
  match fuel with
  | O => OutOfFuel
  | S fuel' =>
      if Nat.ltb counter (List.length priceList)
      then c <- py_index priceList counter ;;
           if negb (is_float c)
           then clean_prices fuel' (del_slice priceList counter (counter + 2)) counter
           else clean_prices fuel' priceList (counter + 2)
      else Returned priceList
  end.

(** [getPrices], on the text its page script returned. *)
Definition getPrices (fuel : nat) (prices : string) (clean : bool)
  : outcome (list cell) :=
  priceList <- py_del_last (py_split "," prices) ;;
  match priceList with
  | [] => Returned []
  | _ =>
      priceList <- convert_prices priceList ;;
      if clean then clean_prices fuel priceList 0 else Returned priceList
  end.

(** [getOptionNames(clean=False)], on the text its page script returned. *)
Definition getOptionNames (names : string) : outcome (list string) :=
  py_del_last (py_split "," names).

(** The [while] loop of [getOptionNames(clean=True)]. [String.length] counts
    bytes, which is [len] on ASCII text. *)
Fixpoint clean_names (fuel : nat) (nameList : list string) (priceList : list cell)
    (counter : nat) : names_outcome :=
  match fuel with
  | O => NamesOutOfFuel
  | S fuel' =>
      if Nat.ltb counter (List.length priceList)
      then
        let delete :=
          match py_del nameList (Nat.div counter 2) with
          | Returned nameList' => clean_names fuel' nameList' priceList (counter + 2)
          | Raised e => NamesRaised e
          | OutOfFuel => NamesOutOfFuel
          end in
        match py_index priceList counter with
        | Returned (Float _) => NamesTypeError
        | Returned (Str a) =>
            if Nat.ltb (String.length a) 4 then delete
            else match py_index priceList (counter + 1) with
                 | Returned (Float _) => NamesTypeError
                 | Returned (Str b) =>
                     if Nat.ltb (String.length b) 4 then delete
                     else clean_names fuel' nameList priceList (counter + 2)
                 | Raised e => NamesRaised e
                 | OutOfFuel => NamesOutOfFuel
                 end
        | Raised e => NamesRaised e
        | OutOfFuel => NamesOutOfFuel
        end
      else Names nameList
  end.

(** [getOptionNames(clean=True)], on the texts the page scripts of
    [getOptionNames] and [getPrices] returned. *)
Definition getOptionNames_clean (fuel : nat) (names prices : string) : names_outcome :=
  match py_del_last (py_split "," names) with
  | Returned [] => Names []
  | Returned nameList =>
      match getPrices fuel prices false with
      | Returned priceList => clean_names fuel nameList priceList 0
      | Raised e => NamesRaised e
      | OutOfFuel => NamesOutOfFuel
      end
  | Raised e => NamesRaised e
  | OutOfFuel => NamesOutOfFuel
  end.

(** The list comprehension of [getIndicatives]. *)
Fixpoint convert_indicatives (l : list string) : outcome (list cell) :=
  match l with
  | [] => Returned []
  | i :: rest =>
      v <- (if has_char "." i then x <- py_float i ;; Returned (Float x)
            else Returned (Str i)) ;;
      vs <- convert_indicatives rest ;;
      Returned (v :: vs)
  end.

(** [getIndicatives], on the text its page script returned. *)
Definition getIndicatives (indicatives : string) : outcome (list cell) :=
  convert_indicatives (py_split "," indicatives).

(** The builtin [float] on a list element. *)
Definition float_of (c : cell) : outcome R :=
  match c with
  | Float x => Returned x
  | Str s => py_float s
  end.

(** The [while] loop of [scanner], with the rows printed so far. Neither
    indexing nor [float] raises the TypeError its handler waits for. *)
Fixpoint scanner_loop (fuel : nat) (names : list string) (prices : list cell)
    (spread : R) (n p : nat) (printed : list scan_row) : outcome (list scan_row) :=
  match fuel with
  | O => OutOfFuel
  | S fuel' =>
      if Nat.ltb n (List.length names)
      then a <- py_index prices p ;;
           x <- float_of a ;;
           b <- py_index prices (p + 1) ;;
           y <- float_of b ;;
           let differential := Rabs (x - y) in
           printed <- (if Rleb differential spread
                       then nm <- py_index names n ;;
                            Returned (printed ++ [mkScanRow nm a b differential])
                       else Returned printed) ;;
           scanner_loop fuel' names prices spread (n + 1) (p + 2) printed
      else Returned printed
  end.

(** [scanner], on the texts the two page scripts returned; the result is the
    list of the rows printed under the header. *)
Definition scanner (fuel : nat) (names prices : string) (spread : R)
  : outcome (list scan_row) :=
  names <- getOptionNames names ;;
  match names with
  | [] => Returned []
  | _ =>
      prices <- getPrices fuel prices true ;;
      match prices with
      | [] => Returned []
      | _ => scanner_loop fuel names prices spread 0 0 []
      end
  end.

End Watchlist.

(** ** [analyzeData] *)




(** ** Auxiliary definitions for the further properties *)

(** Every attribute [calculateVolatility] does not assign. *)
Definition untouched (a b : CurrencyOption) : Prop :=
  same_contract a b /\ buyHistory a = buyHistory b /\ sellHistory a = sellHistory b
  /\ underlyingHistory a = underlyingHistory b /\ doExpiry a = doExpiry b.

(** The attributes [calculateVolatility] assigns. *)
Definition same_model (a b : CurrencyOption) : Prop :=
  volatility a = volatility b /\ d1 a = d1 b /\ d2 a = d2 b
  /\ d1Squared a = d1Squared b /\ d1d2 a = d1d2 b /\ d2Squared a = d2Squared b.

(** The value of a call that returned (0 for one that raised). *)
Definition returned_value (o : outcome R) : R :=
  match o with
  | Returned x => x
  | _ => 0
  end.

(** The object in the state a pass of the calibration loop and the
    assignments after the loop leave it in, for the underlying [u] and the
    volatility [vol]. *)
Definition at_market (self : CurrencyOption) (u vol : R) : CurrencyOption :=
  let self := set_volatility (set_underlying self u) vol in
  finished (set_d1 self (gk_d1 (underlying self) (strike self) (r_domestic self)
                           (r_foreign self) (expiry self) (volatility self))).

(** The conditions under which no Greek raises. *)
Definition greeks_defined (self : CurrencyOption) : Prop :=
  0 < expiry self /\ underlying self <> 0 /\ strike self <> 0 /\ volatility self <> 0.

(** d1 and d2 of the object at another underlying and volatility. *)
Definition d1_at (self : CurrencyOption) (x v : R) : R :=
  gk_d1 x (strike self) (r_domestic self) (r_foreign self) (expiry self) v.

Definition d2_at (self : CurrencyOption) (x v : R) : R :=
  d1_at self x v - v * sqrt (expiry self).

(** The list without the pairs whose first entry is not a float. *)
Fixpoint drop_unpriced (l : list cell) : list cell :=
  match l with
  | [] => []
  | [a] => if is_float a then [a] else []
  | a :: ((b :: rest) as tl) =>
      if is_float a then a :: b :: drop_unpriced rest else drop_unpriced rest
  end.

(** Every string left in the list is one [float] rejects. *)
Definition unparsed (py_float : string -> outcome R) (prices : list cell) : Prop :=
  forall s, In (Str s) prices -> py_float s = Raised ValueError.

(** What [getPrices] makes of the text of a price cell. *)
Definition price_cell (py_float : string -> outcome R) (c : string) (v : cell) : Prop :=
  (exists x, v = Float x /\ py_float c = Returned x)
  \/ (v = Str c /\ py_float c = Raised ValueError).

(** What the comprehension of [getIndicatives] makes of a cell's text. *)
Definition indicative_cell (py_float : string -> outcome R) (c : string) (v : cell)
  : Prop :=
  if has_char "." c then exists x, v = Float x /\ py_float c = Returned x
  else v = Str c.

(** The rows [scanner] prints for a fully priced list: one for each name
    whose two prices are within the spread, in the order of the names. *)
Fixpoint scan_rows (names : list string) (prices : list cell) (spread : R)
  : list scan_row :=
  match names, prices with
  | nm :: names', Float x :: Float y :: prices' =>
      (if Rleb (Rabs (x - y)) spread
       then [mkScanRow nm (Float x) (Float y) (Rabs (x - y))]
       else [])
      ++ scan_rows names' prices' spread
  | _, _ => []
  end.

(** Unfolding the function combinators of the derivative lemmas. *)
Ltac unfold_fct :=
  unfold plus_fct, minus_fct, mult_fct, div_fct, opp_fct, fct_cte, mult_real_fct, comp, id.

(** * Properties of the normal distribution function *)

(** ** The area under the kernel *)

Lemma kernel_pos t : 0 < norm_pdf_kernel t.
Proof. apply exp_pos. Qed.

Lemma kernel_area_chasles a b :
  kernel_area b - kernel_area a = RiemannInt (kernel_integrable a b).
Proof.
  unfold kernel_area.
  rewrite <- (RiemannInt_P26 (kernel_integrable 0 a) (kernel_integrable a b) (kernel_integrable 0 b)).
  ring.
Qed.

Lemma kernel_area_0 : kernel_area 0 = 0.
Proof. unfold kernel_area. apply RiemannInt_P9. Qed.

(** The area is a primitive of the kernel on the whole line. *)
Lemma kernel_area_deriv x : derivable_pt_lim kernel_area x (norm_pdf_kernel x).
Proof.
  assert (Hab : x - 1 <= x + 1) by lra.
  assert (C0 : forall t, x - 1 <= t <= x + 1 -> continuity_pt norm_pdf_kernel t)
    by (intros; apply kernel_continuous).
  assert (Hx : x - 1 < x < x + 1) by lra.
  pose proof (RiemannInt_P27 Hab C0 Hx) as HP.
  intros eps Heps. destruct (HP eps Heps) as [del Hdel].
  assert (Hd : 0 < Rmin del 1) by (apply Rmin_pos; [apply cond_pos | lra]).
  exists (mkposreal _ Hd). intros h Hh0 Hh. simpl in Hh.
  assert (Hh1 : Rabs h < del) by (eapply Rlt_le_trans; [exact Hh | apply Rmin_l]).
  assert (Hh2 : Rabs h < 1) by (eapply Rlt_le_trans; [exact Hh | apply Rmin_r]).
  specialize (Hdel h Hh0 Hh1).
  assert (Hloc : forall y, x - 1 <= y <= x + 1 ->
            primitive Hab (FTC_P1 Hab C0) y = kernel_area y - kernel_area (x - 1)).
  { intros y [Hy1 Hy2]. unfold primitive.
    destruct (Rle_dec (x - 1) y) as [r|n]; [| contradiction].
    destruct (Rle_dec y (x + 1)) as [r0|n0]; [| contradiction].
    rewrite kernel_area_chasles. apply RiemannInt_P5. }
  apply Rabs_def2 in Hh2.
  rewrite !Hloc in Hdel by lra.
  replace (kernel_area (x + h) - kernel_area x) with
    (kernel_area (x + h) - kernel_area (x - 1) - (kernel_area x - kernel_area (x - 1))) by ring.
  exact Hdel.
Qed.

Lemma kernel_area_derivable : derivable kernel_area.
Proof. intro x. exists (norm_pdf_kernel x). apply kernel_area_deriv. Qed.

Lemma kernel_area_derive x : derive_pt kernel_area x (kernel_area_derivable x) = norm_pdf_kernel x.
Proof. apply derive_pt_eq_0. apply kernel_area_deriv. Qed.

Lemma kernel_area_increasing x y : x < y -> kernel_area x < kernel_area y.
Proof.
  intro Hxy.
  apply (derive_increasing_interv x y kernel_area kernel_area_derivable); try lra.
  intros t _. rewrite kernel_area_derive. apply kernel_pos.
Qed.

Lemma kernel_area_odd x : kernel_area (- x) = - kernel_area x.
Proof.
  set (H := fun x => kernel_area x + kernel_area (- x)).
  assert (dH : forall x, derivable_pt_lim H x 0).
  { intro y. unfold H.
    replace 0 with (norm_pdf_kernel y + norm_pdf_kernel (- y) * (-1)).
    - apply derivable_pt_lim_plus; [apply kernel_area_deriv |].
      apply (derivable_pt_lim_comp (fun z => - z) kernel_area).
      + replace (-1) with (- 1) by ring. apply derivable_pt_lim_opp. apply derivable_pt_lim_id.
      + apply kernel_area_deriv.
    - unfold norm_pdf_kernel. replace (- y * - y) with (y * y) by ring. ring. }
  assert (pr : derivable H) by (intro y; exists 0; apply dH).
  assert (Hc : constant H).
  { apply (null_derivative_1 H pr). intro y. apply derive_pt_eq_0. apply dH. }
  specialize (Hc x 0). unfold H in Hc.
  rewrite Ropp_0, kernel_area_0 in Hc. lra.
Qed.

(** ** Integrals of the powers of the cosine *)

(** A derivative is kept by pointwise equal functions. *)
Lemma derivable_pt_lim_ext (f g : R -> R) (x l l' : R) :
  derivable_pt_lim f x l ->
  (forall y, f y = g y) -> l = l' ->
  derivable_pt_lim g x l'.
Proof.
  intros Hf Hfg Hl eps Heps. subst l'.
  destruct (Hf eps Heps) as [del Hdel]. exists del.
  intros h Hh0 Hh. rewrite <- !Hfg. now apply Hdel.
Qed.

Lemma cos_area_SS (j : nat) (t : R) :
  cos_area (S (S j)) t =
  cos t ^ S j * sin t / INR (S (S j)) + INR (S j) / INR (S (S j)) * cos_area j t.
Proof. reflexivity. Qed.

Lemma cos_pow_deriv (n : nat) (t : R) :
  derivable_pt_lim (fun y => cos y ^ n) t (INR n * cos t ^ pred n * - sin t).
Proof.
  eapply (derivable_pt_lim_ext (comp (fun y => y ^ n) cos)).
  - apply derivable_pt_lim_comp; [apply derivable_pt_lim_cos | apply derivable_pt_lim_pow].
  - reflexivity.
  - reflexivity.
Qed.

Lemma cos_area_step_deriv (j : nat) (t : R) :
  derivable_pt_lim (cos_area j) t (cos t ^ j) ->
  derivable_pt_lim (cos_area (S (S j))) t (cos t ^ S (S j)).
Proof.
  intro IH.
  assert (Hc : INR (S (S j)) <> 0) by (apply not_0_INR; lia).
  set (c := INR (S (S j))) in *.
  eapply (derivable_pt_lim_ext
           (plus_fct (mult_fct (mult_fct (fun y => cos y ^ S j) sin) (fct_cte (/ c)))
                     (mult_real_fct (INR (S j) / c) (cos_area j)))).
  - apply derivable_pt_lim_plus.
    + apply derivable_pt_lim_mult.
      * apply derivable_pt_lim_mult; [apply cos_pow_deriv | apply derivable_pt_lim_sin].
      * apply derivable_pt_lim_const.
    + apply derivable_pt_lim_scal. exact IH.
  - intro y. unfold_fct. rewrite cos_area_SS. fold c.
    unfold Rdiv. ring.
  - unfold_fct. simpl pred. pose proof (sin2_cos2 t) as Hsc. unfold Rsqr in Hsc.
    assert (HcS : c = INR (S j) + 1) by (unfold c; rewrite (S_INR (S j)); ring).
    rewrite <- !tech_pow_Rmult. clear IH. clearbody c.
    set (P := cos t ^ j). set (n := INR (S j)) in *.
    set (co := cos t) in *. set (s := sin t) in *.
    clearbody P n co s.
    assert (Hs : s * s = 1 - co * co) by lra.
    transitivity (P * (n * (1 - s * s) + co * co) / c); [field; exact Hc |].
    rewrite Hs, HcS. field. rewrite <- HcS. exact Hc.
Qed.

Lemma cos_area_deriv_pair (k : nat) (t : R) :
  derivable_pt_lim (cos_area k) t (cos t ^ k) /\
  derivable_pt_lim (cos_area (S k)) t (cos t ^ S k).
Proof.
  induction k as [| k [IH0 IH1]].
  - split.
    + simpl. apply derivable_pt_lim_id.
    + eapply (derivable_pt_lim_ext sin); [apply derivable_pt_lim_sin | reflexivity | simpl; ring].
  - split; [exact IH1 | now apply cos_area_step_deriv].
Qed.

(** [cos_area k] is the primitive of cos^k that vanishes at 0. *)
Lemma cos_area_deriv (k : nat) (t : R) : derivable_pt_lim (cos_area k) t (cos t ^ k).
Proof. apply cos_area_deriv_pair. Qed.

Lemma cos_area_0 (k : nat) : cos_area k 0 = 0.
Proof.
  assert (H : cos_area k 0 = 0 /\ cos_area (S k) 0 = 0).
  { induction k as [| k [IH0 IH1]].
    - split; [reflexivity | simpl; apply sin_0].
    - split; [exact IH1 |]. rewrite cos_area_SS, IH0, sin_0. unfold Rdiv. ring. }
  apply H.
Qed.

Lemma wallis_0 : wallis 0 = PI / 2.
Proof. reflexivity. Qed.

Lemma wallis_1 : wallis 1 = 1.
Proof. unfold wallis. simpl. apply sin_PI2. Qed.

Lemma wallis_SS (k : nat) : wallis (S (S k)) = INR (S k) / INR (S (S k)) * wallis k.
Proof.
  unfold wallis. rewrite cos_area_SS, cos_PI2, pow_ne_zero by lia. unfold Rdiv. ring.
Qed.

(** The product of two consecutive Wallis numbers. *)
Lemma wallis_prod (k : nat) : wallis k * wallis (S k) = PI / (2 * INR (S k)).
Proof.
  induction k as [| k IH].
  - rewrite wallis_0, wallis_1. simpl. field.
  - rewrite wallis_SS. 
    replace (wallis (S k) * (INR (S k) / INR (S (S k)) * wallis k))
      with (INR (S k) / INR (S (S k)) * (wallis k * wallis (S k))) by ring.
    rewrite IH.
    assert (H1 : INR (S k) <> 0) by (apply not_0_INR; lia).
    assert (H2 : INR (S (S k)) <> 0) by (apply not_0_INR; lia).
    field. split; assumption.
Qed.

Lemma cos_area_derivable (k : nat) : derivable (cos_area k).
Proof. intro t. exists (cos t ^ k). apply cos_area_deriv. Qed.

Lemma cos_area_derive (k : nat) (t : R) :
  derive_pt (cos_area k) t (cos_area_derivable k t) = cos t ^ k.
Proof. apply derive_pt_eq_0, cos_area_deriv. Qed.

Lemma cos_area_mono (k : nat) (x y : R) :
  0 <= x -> x <= y -> y <= PI / 2 -> cos_area k x <= cos_area k y.
Proof.
  intros Hx Hxy Hy.
  destruct (Req_dec x y) as [-> | Hne]; [lra |].
  assert (Hpi : 0 < PI / 2) by (pose proof PI_RGT_0; lra).
  apply (derive_increasing_interv_var 0 (PI / 2) (cos_area k) (cos_area_derivable k));
    try lra.
  intros t Ht. rewrite cos_area_derive. apply pow_le. apply cos_ge_0; lra.
Qed.

Lemma wallis_pos (k : nat) : 0 < wallis k.
Proof.
  assert (H : 0 < wallis k /\ 0 < wallis (S k)).
  { induction k as [| k [IH0 IH1]].
    - rewrite wallis_0, wallis_1. pose proof PI_RGT_0. split; lra.
    - split; [exact IH1 |]. rewrite wallis_SS.
      apply Rmult_lt_0_compat; [| exact IH0].
      apply Rdiv_lt_0_compat; apply lt_0_INR; lia. }
  apply H.
Qed.

(** The Wallis numbers decrease, since cos^(k+1) <= cos^k on [0, PI/2]. *)
Lemma wallis_decr (k : nat) : wallis (S k) <= wallis k.
Proof.
  set (D := minus_fct (cos_area k) (cos_area (S k))).
  assert (dD : forall t, derivable_pt_lim D t (cos t ^ k - cos t ^ S k)).
  { intro t. apply derivable_pt_lim_minus; apply cos_area_deriv. }
  assert (pr : derivable D) by (intro t; eexists; apply dD).
  assert (Hpi : 0 < PI / 2) by (pose proof PI_RGT_0; lra).
  assert (H : D 0 <= D (PI / 2)).
  { apply (derive_increasing_interv_var 0 (PI / 2) D pr); try lra.
    intros t Ht. rewrite (derive_pt_eq_0 _ _ _ (pr t) (dD t)).
    rewrite <- tech_pow_Rmult.
    assert (Hc0 : 0 <= cos t) by (apply cos_ge_0; lra).
    pose proof (COS_bound t) as [_ Hc1].
    pose proof (pow_le (cos t) k Hc0).
    nra. }
  unfold D, minus_fct in H. rewrite !cos_area_0 in H. fold (wallis k) in H.
  fold (wallis (S k)) in H. lra.
Qed.

Lemma wallis_even_sq (j : nat) : wallis (2 * S j) * wallis (2 * S j) <= PI / (4 * INR (S j)).
Proof.
  replace (2 * S j)%nat with (S (S (2 * j))) by lia.
  pose proof (wallis_prod (S (2 * j))) as Hp.
  pose proof (wallis_decr (S (2 * j))) as Hd.
  pose proof (wallis_pos (S (S (2 * j)))) as Hpos.
  replace (PI / (4 * INR (S j))) with (PI / (2 * INR (S (S (2 * j))))).
  - rewrite <- Hp. apply Rmult_le_compat_r; lra.
  - replace (S (S (2 * j))) with (2 * S j)%nat by lia. rewrite mult_INR. simpl (INR 2).
    f_equal. ring.
Qed.

(** ** The mass of the kernel is at most sqrt(2 PI)

    For every n >= 2 the kernel exp(-x^2/2) is below (1 + x^2/(2n))^(-n),
    whose primitive is sqrt(2n) times the integral of cos^(2n-2) at
    atan(x/sqrt(2n)); the Wallis numbers bound that primitive by
    sqrt(PI/2 * n/(n-1)), and n is arbitrary. *)

Lemma exp_INR_mult (n : nat) (x : R) : exp (INR n * x) = exp x ^ n.
Proof.
  induction n as [| n IH].
  - simpl. rewrite Rmult_0_l. apply exp_0.
  - rewrite S_INR, Rmult_plus_distr_r, Rmult_1_l, exp_plus, IH. simpl. ring.
Qed.

Lemma exp_neg_sq_le (y : R) : exp (- (y * y)) <= / (1 + y * y).
Proof.
  rewrite exp_Ropp. apply Rinv_le_contravar; [nra |]. apply exp_ineq1_le.
Qed.

Section GaussianMass.
Variable j : nat.
Let m := S j.
Let s := sqrt (2 * INR (S m)).

Lemma scale_pos : 0 < s.
Proof.
  unfold s. apply sqrt_lt_R0. apply Rmult_lt_0_compat; [lra | apply lt_0_INR; lia].
Qed.

Lemma scale_sq : s * s = 2 * INR (S m).
Proof.
  unfold s. apply sqrt_sqrt. apply Rmult_le_pos; [lra | apply pos_INR].
Qed.

(** The primitive of (1 + x^2/s^2)^(-(m+1)) that vanishes at 0. *)
Definition majorant (x : R) : R := s * cos_area (2 * m) (atan (x / s)).

Lemma majorant_deriv (x : R) :
  derivable_pt_lim majorant x ((/ (1 + (x / s) * (x / s))) ^ S m).
Proof.
  pose proof scale_pos as Hs.
  eapply (derivable_pt_lim_ext
            (mult_real_fct s (comp (cos_area (2 * m)) (comp atan (mult_real_fct (/ s) id))))).
  - apply derivable_pt_lim_scal. apply derivable_pt_lim_comp.
    + apply derivable_pt_lim_comp.
      * apply derivable_pt_lim_scal. apply derivable_pt_lim_id.
      * apply derivable_pt_lim_atan.
    + apply cos_area_deriv.
  - intro y. unfold_fct. unfold majorant.
    replace (/ s * y) with (y / s) by (unfold Rdiv; ring). reflexivity.
  - unfold_fct. replace (/ s * x) with (x / s) by (unfold Rdiv; ring).
    set (y := x / s).
    assert (Hy : 0 < 1 + y * y) by nra.
    rewrite pow_mult. 
    assert (Hc : cos (atan y) ^ 2 = / (1 + y * y)).
    { rewrite cos_atan. unfold Rdiv. rewrite Rmult_1_l.
      rewrite pow_inv. f_equal. replace (y ^ 2) with (y * y) by ring.
      simpl. rewrite Rmult_1_r. apply sqrt_sqrt. lra. }
    rewrite Hc. replace (y ^ 2) with (y * y) by ring.
    rewrite <- (tech_pow_Rmult (/ (1 + y * y)) m). field. split; lra.
Qed.

Lemma kernel_le_majorant_deriv (x : R) :
  norm_pdf_kernel x <= (/ (1 + (x / s) * (x / s))) ^ S m.
Proof.
  pose proof scale_pos as Hs. pose proof scale_sq as Hss.
  set (y := x / s).
  assert (Hx : - (x * x) / 2 = INR (S m) * - (y * y)).
  { unfold y. field_simplify; [| lra]. replace (s ^ 2) with (s * s) by ring.
    rewrite Hss. field. apply not_0_INR. lia. }
  unfold norm_pdf_kernel. rewrite Hx, exp_INR_mult.
  apply pow_incr. split; [left; apply exp_pos | apply exp_neg_sq_le].
Qed.

Lemma kernel_area_le_majorant (x : R) : 0 <= x -> kernel_area x <= majorant x.
Proof.
  intro Hx.
  set (G := minus_fct majorant kernel_area).
  assert (dG : forall t, derivable_pt_lim G t
                 ((/ (1 + (t / s) * (t / s))) ^ S m - norm_pdf_kernel t)).
  { intro t. apply derivable_pt_lim_minus; [apply majorant_deriv | apply kernel_area_deriv]. }
  assert (pr : derivable G) by (intro t; eexists; apply dG).
  assert (Hinc : increasing G).
  { apply (nonneg_derivative_1 G pr). intro t.
    rewrite (derive_pt_eq_0 _ _ _ (pr t) (dG t)).
    pose proof (kernel_le_majorant_deriv t). lra. }
  specialize (Hinc 0 x Hx). unfold G, minus_fct, majorant in Hinc.
  unfold Rdiv in Hinc at 1. rewrite Rmult_0_l, atan_0, cos_area_0, kernel_area_0 in Hinc.
  fold (majorant x) in Hinc. lra.
Qed.

Lemma majorant_le_wallis (x : R) : 0 <= x -> majorant x <= s * wallis (2 * m).
Proof.
  intro Hx. pose proof scale_pos as Hs.
  unfold majorant, wallis. apply Rmult_le_compat_l; [lra |].
  assert (H0 : 0 <= atan (x / s)).
  { destruct Hx as [Hx | <-].
    - rewrite <- atan_0. left. apply atan_increasing. apply Rdiv_lt_0_compat; lra.
    - unfold Rdiv. rewrite Rmult_0_l, atan_0. lra. }
  pose proof (atan_bound (x / s)) as [_ Hb].
  apply cos_area_mono; lra.
Qed.

Lemma kernel_area_sq_bound (x : R) :
  0 <= x -> kernel_area x * kernel_area x <= PI / 2 * (1 + / INR m).
Proof.
  intro Hx.
  assert (Hk0 : 0 <= kernel_area x).
  { destruct Hx as [Hx | <-].
    - left. rewrite <- kernel_area_0. now apply kernel_area_increasing.
    - rewrite kernel_area_0. lra. }
  pose proof (kernel_area_le_majorant x Hx) as H1.
  pose proof (majorant_le_wallis x Hx) as H2.
  pose proof (wallis_even_sq j) as H3. fold m in H3.
  pose proof (wallis_pos (2 * m)) as Hw.
  pose proof scale_pos as Hs. pose proof scale_sq as Hss.
  assert (Hm : 0 < INR m) by (apply lt_0_INR; unfold m; lia).
  assert (HSm : INR (S m) = INR m + 1) by apply S_INR.
  assert (H4 : kernel_area x * kernel_area x
               <= (s * wallis (2 * m)) * (s * wallis (2 * m))).
  { apply Rmult_le_compat; lra. }
  replace ((s * wallis (2 * m)) * (s * wallis (2 * m)))
    with ((s * s) * (wallis (2 * m) * wallis (2 * m))) in H4 by ring.
  rewrite Hss in H4.
  assert (H5 : 2 * INR (S m) * (wallis (2 * m) * wallis (2 * m))
               <= 2 * INR (S m) * (PI / (4 * INR m))).
  { apply Rmult_le_compat_l; [rewrite HSm; lra | exact H3]. }
  replace (PI / 2 * (1 + / INR m)) with (2 * INR (S m) * (PI / (4 * INR m)));
    [lra |]. rewrite HSm. field. lra.
Qed.

End GaussianMass.

Lemma kernel_area_sq_le (x : R) : 0 <= x -> kernel_area x * kernel_area x <= PI / 2.
Proof.
  intro Hx.
  destruct (Rle_dec (kernel_area x * kernel_area x) (PI / 2)) as [H | H]; [exact H |].
  exfalso. apply Rnot_le_lt in H.
  set (A := kernel_area x * kernel_area x) in *.
  assert (Hpi : 0 < PI / 2) by (pose proof PI_RGT_0; lra).
  assert (Hd : 0 < (A - PI / 2) / (PI / 2)) by (apply Rdiv_lt_0_compat; lra).
  destruct (archimed_cor1 _ Hd) as [N [HN1 HN2]].
  destruct N as [| j]; [lia |].
  pose proof (kernel_area_sq_bound j x Hx) as Hb. fold A in Hb.
  assert (Hb' : (A - PI / 2) / (PI / 2) <= / INR (S j)).
  { apply (Rmult_le_reg_l (PI / 2)); [exact Hpi |].
    replace (PI / 2 * ((A - PI / 2) / (PI / 2))) with (A - PI / 2) by (field; lra).
    lra. }
  lra.
Qed.

(** Half of the mass bounds the area from 0 to any [x]. *)
Lemma kernel_area_lt_half_mass (x : R) : kernel_area x < sqrt (PI / 2).
Proof.
  assert (Hpi : 0 < PI / 2) by (pose proof PI_RGT_0; lra).
  assert (Hle : forall y, kernel_area y <= sqrt (PI / 2)).
  { intro y. destruct (Rle_dec 0 y) as [Hy | Hy].
    - apply Rsqr_incr_0_var; [| apply sqrt_pos].
      unfold Rsqr. rewrite sqrt_sqrt by lra. now apply kernel_area_sq_le.
    - apply Rnot_le_lt in Hy. apply kernel_area_increasing in Hy.
      rewrite kernel_area_0 in Hy. pose proof (sqrt_pos (PI / 2)). lra. }
  apply Rlt_le_trans with (kernel_area (x + 1)); [apply kernel_area_increasing; lra | apply Hle].
Qed.

Lemma sqrt_2PI : sqrt (2 * PI) = 2 * sqrt (PI / 2).
Proof.
  pose proof PI_RGT_0 as Hpi.
  replace (2 * PI) with ((2 * 2) * (PI / 2)) by field.
  rewrite sqrt_mult by lra. rewrite sqrt_square by lra. reflexivity.
Qed.

(** ** The distribution function *)

Lemma norm_cdf_range (x : R) : 0 < norm_cdf x < 1.
Proof.
  pose proof PI_RGT_0 as Hpi.
  assert (Hs : 0 < sqrt (PI / 2)) by (apply sqrt_lt_R0; lra).
  pose proof (kernel_area_lt_half_mass x) as H1.
  pose proof (kernel_area_lt_half_mass (- x)) as H2. rewrite kernel_area_odd in H2.
  unfold norm_cdf. rewrite sqrt_2PI.
  assert (H3 : - (1 / 2) < kernel_area x / (2 * sqrt (PI / 2)) < 1 / 2).
  { split.
    - apply (Rmult_lt_reg_r (2 * sqrt (PI / 2))); [lra |].
      unfold Rdiv. rewrite Rmult_assoc, Rinv_l by lra. lra.
    - apply (Rmult_lt_reg_r (2 * sqrt (PI / 2))); [lra |].
      unfold Rdiv. rewrite Rmult_assoc, Rinv_l by lra. lra. }
  lra.
Qed.

Lemma norm_cdf_increasing (x y : R) : x < y -> norm_cdf x < norm_cdf y.
Proof.
  intro Hxy. unfold norm_cdf.
  assert (Hs : 0 < sqrt (2 * PI)).
  { apply sqrt_lt_R0. pose proof PI_RGT_0. lra. }
  apply Rplus_lt_compat_l. unfold Rdiv.
  apply Rmult_lt_compat_r; [now apply Rinv_0_lt_compat | now apply kernel_area_increasing].
Qed.

Lemma norm_cdf_symmetric (x : R) : norm_cdf x + norm_cdf (- x) = 1.
Proof.
  unfold norm_cdf. rewrite kernel_area_odd.
  assert (Hs : 0 < sqrt (2 * PI)).
  { apply sqrt_lt_R0. pose proof PI_RGT_0. lra. }
  field. lra.
Qed.

Lemma norm_cdf_continuous : continuity norm_cdf.
Proof.
  intro x. unfold norm_cdf.
  apply (continuity_pt_plus (fct_cte (1 / 2)) (fun y => kernel_area y / sqrt (2 * PI))).
  - apply continuity_pt_const. intros a b. reflexivity.
  - apply (continuity_pt_mult kernel_area (fct_cte (/ sqrt (2 * PI)))).
    + apply derivable_continuous_pt. apply kernel_area_derivable.
    + apply continuity_pt_const. intros a b. reflexivity.
Qed.

Lemma norm_cdf_at_standard (x : R) : norm_cdf_at x 0 1 = norm_cdf x.
Proof. unfold norm_cdf_at. f_equal. field. Qed.

(** * Properties of the runtime operations *)

Lemma Rleb_true (x y : R) : Rleb x y = true <-> x <= y.
Proof. unfold Rleb. destruct (Rle_dec x y); split; intros; try easy. Qed.

Lemma Rleb_false (x y : R) : Rleb x y = false <-> y < x.
Proof.
  unfold Rleb. destruct (Rle_dec x y); split; intros; try easy; try lra.
Qed.

Lemma Rltb_true (x y : R) : Rltb x y = true <-> x < y.
Proof. unfold Rltb. destruct (Rlt_dec x y); split; intros; try easy. Qed.

Lemma Rltb_false (x y : R) : Rltb x y = false <-> y <= x.
Proof.
  unfold Rltb. destruct (Rlt_dec x y); split; intros; try easy; try lra.
Qed.

Lemma py_div_returns (x y : R) : y <> 0 -> py_div x y = Returned (x / y).
Proof. intro H. unfold py_div. destruct (Req_dec_T y 0); [contradiction | reflexivity]. Qed.

Lemma py_div_zero (x : R) : py_div x 0 = Raised ZeroDivisionError.
Proof. unfold py_div. destruct (Req_dec_T 0 0); [reflexivity | contradiction]. Qed.

Lemma py_log_returns (x : R) : 0 < x -> py_log x = Returned (ln x).
Proof. intro H. unfold py_log. destruct (Rlt_dec 0 x); [reflexivity | contradiction]. Qed.

Lemma py_log_domain (x : R) : x <= 0 -> py_log x = Raised ValueError.
Proof. intro H. unfold py_log. destruct (Rlt_dec 0 x); [lra | reflexivity]. Qed.

Lemma py_sqrt_returns (x : R) : 0 <= x -> py_sqrt x = Returned (sqrt x).
Proof. intro H. unfold py_sqrt. destruct (Rle_dec 0 x); [reflexivity | contradiction]. Qed.

Lemma py_sqrt_domain (x : R) : x < 0 -> py_sqrt x = Raised ValueError.
Proof. intro H. unfold py_sqrt. destruct (Rle_dec 0 x); [lra | reflexivity]. Qed.

(** * The loop body *)

Lemma market_eq_refl (a : CurrencyOption) : market_eq a a.
Proof. repeat split. Qed.

Lemma market_eq_trans (a b c : CurrencyOption) :
  market_eq a b -> market_eq b c -> market_eq a c.
Proof.
  unfold market_eq. intros (?&?&?&?&?&?&?) (?&?&?&?&?&?&?).
  repeat split; congruence.
Qed.

Lemma price_at_market_eq (a b : CurrencyOption) (vol : R) :
  market_eq a b -> price_at a vol = price_at b vol.
Proof.
  unfold market_eq, price_at. intros (->&->&->&->&->&->&->). reflexivity.
Qed.

Lemma well_formed_market_eq (a b : CurrencyOption) :
  market_eq a b -> well_formed a -> well_formed b.
Proof.
  unfold market_eq, well_formed. intros (_&<-&<-&<-&_) H. exact H.
Qed.

Lemma positive_well_formed (self : CurrencyOption) :
  0 < expiry self -> 0 < strike self -> 0 < underlying self -> well_formed self.
Proof.
  intros HT Hk Hu. repeat split; [exact HT | lra | now apply Rdiv_lt_0_compat].
Qed.

Lemma eval_d1_returns (self : CurrencyOption) :
  well_formed self -> volatility self <> 0 ->
  eval_d1 self = Returned (gk_d1 (underlying self) (strike self) (r_domestic self)
                             (r_foreign self) (expiry self) (volatility self)).
Proof.
  intros (HT & Hk & Hq) Hv. unfold eval_d1.
  rewrite py_div_returns by exact Hk. cbn [bind].
  rewrite py_log_returns by exact Hq. cbn [bind].
  rewrite py_sqrt_returns by lra. cbn [bind].
  assert (Hs : 0 < sqrt (expiry self)) by now apply sqrt_lt_R0.
  rewrite py_div_returns by (apply Rmult_integral_contrapositive_currified; lra).
  unfold gk_d1. do 2 f_equal. ring.
Qed.

Lemma loop_body_returns (self : CurrencyOption) (precision low high : R) :
  well_formed self -> high + low <> 0 ->
  exists self',
    loop_body self precision low high = Returned (self', next_ctl self precision low high)
    /\ market_eq self self'
    /\ volatility self' = (high + low) / 2
    /\ d1 self' = gk_d1 (underlying self) (strike self) (r_domestic self)
                    (r_foreign self) (expiry self) ((high + low) / 2).
Proof.
  intros Hwf Hv. unfold loop_body.
  replace ((high + low) / 2.0) with ((high + low) / 2) by lra.
  set (self1 := set_volatility self ((high + low) / 2)).
  assert (Hwf1 : well_formed self1) by exact Hwf.
  rewrite (eval_d1_returns self1 Hwf1) by (simpl; lra).
  cbn [bind]. simpl.
  set (d := gk_d1 _ _ _ _ _ _).
  rewrite norm_cdf_at_standard.
  exists (set_d1 self1 d).
  split; [| repeat split].
  unfold next_ctl, price_at, model_price. fold d.
  destruct (_ || _ || _); [reflexivity |].
  destruct (Rltb _ _); [reflexivity |].
  destruct (Rltb _ _); reflexivity.
Qed.

Lemma next_ctl_cases (self : CurrencyOption) (precision low high : R) :
  let vol := (high + low) / 2 in
  let value := price_at self vol in
  (exit_condition (buyPrice self) value precision low high
   /\ next_ctl self precision low high = Break)
  \/ (~ exit_condition (buyPrice self) value precision low high
      /\ value < buyPrice self
      /\ next_ctl self precision low high = Continue vol high)
  \/ (~ exit_condition (buyPrice self) value precision low high
      /\ buyPrice self < value
      /\ next_ctl self precision low high = Continue low vol)
  \/ (~ exit_condition (buyPrice self) value precision low high
      /\ value = buyPrice self
      /\ next_ctl self precision low high = Continue low high).
Proof.
  intros vol value. unfold next_ctl, exit_condition. fold vol. fold value.
  destruct (Rleb (Rabs (buyPrice self - value)) precision) eqn:E1;
    [left; split; [left; now apply Rleb_true | reflexivity] |].
  destruct (Rleb high 0.1) eqn:E2;
    [left; split; [right; left; now apply Rleb_true | reflexivity] |].
  destruct (Rleb 299.9 low) eqn:E3;
    [left; split; [right; right; apply Rleb_true in E3; lra | reflexivity] |].
  apply Rleb_false in E1, E2, E3. simpl.
  assert (Hne : ~ (Rabs (buyPrice self - value) <= precision \/ high <= 0.1 \/ low >= 299.9))
    by (intros [H | [H | H]]; lra).
  destruct (Rltb value (buyPrice self)) eqn:E4.
  - apply Rltb_true in E4. right; left. auto.
  - apply Rltb_false in E4. destruct (Rltb (buyPrice self) value) eqn:E5.
    + apply Rltb_true in E5. right; right; left. auto.
    + apply Rltb_false in E5. right; right; right. repeat split; [exact Hne | lra].
Qed.

(** * The loop *)

Lemma bisection_unfold (fuel : nat) (self : CurrencyOption) (precision low high : R) :
  well_formed self -> high + low <> 0 ->
  exists self',
    market_eq self self'
    /\ volatility self' = (high + low) / 2
    /\ d1 self' = gk_d1 (underlying self) (strike self) (r_domestic self)
                    (r_foreign self) (expiry self) ((high + low) / 2)
    /\ bisection (S fuel) self precision low high =
       match next_ctl self precision low high with
       | Break => Returned (self', (low, high))
       | Continue low' high' => bisection fuel self' precision low' high'
       end.
Proof.
  intros Hwf Hv.
  destruct (loop_body_returns self precision low high Hwf Hv) as (self' & Hb & Hm & Hvol & Hd).
  exists self'. repeat split; try assumption; try apply Hm.
  cbn [bisection]. rewrite Hb. reflexivity.
Qed.

(** More fuel never changes a result. *)
Lemma bisection_fuel_mono (fuel : nat) :
  forall (self : CurrencyOption) (precision low high : R) r,
    bisection fuel self precision low high = Returned r ->
    bisection (S fuel) self precision low high = Returned r.
Proof.
  induction fuel as [| fuel IH]; intros self precision low high r H; [discriminate |].
  cbn [bisection] in H |- *.
  destruct (loop_body self precision low high) as [[s c] | e |]; cbn [bind] in *;
    try discriminate.
  destruct c as [| l h]; simpl in *; [exact H |].
  apply IH in H. exact H.
Qed.

Lemma bisection_exit_state (fuel : nat) :
  forall (self0 self : CurrencyOption) (precision low high : R) r,
    well_formed self0 -> market_eq self0 self -> 0 < low -> low <= high ->
    bisection fuel self precision low high = Returned r ->
    exit_state self0 precision r /\ 0 < fst (snd r) /\ fst (snd r) <= snd (snd r).
Proof.
  induction fuel as [| fuel IH]; intros self0 self precision low high r Hwf Hm Hlo Hle H;
    [discriminate |].
  assert (Hwf' : well_formed self) by (eapply well_formed_market_eq; eauto).
  destruct (bisection_unfold fuel self precision low high Hwf') as (self' & Hm' & Hv & Hd & Hb);
    [lra |].
  rewrite Hb in H. clear Hb.
  assert (Hm0 : market_eq self0 self') by (eapply market_eq_trans; eauto).
  pose proof (next_ctl_cases self precision low high) as Hc. cbv zeta in Hc.
  rewrite <- (price_at_market_eq self0 self) in Hc by exact Hm.
  assert (Hbuy : buyPrice self = buyPrice self0) by (symmetry; apply Hm).
  rewrite Hbuy in Hc.
  destruct Hc as [[Hex Hn] | [(Hnex & Hlt & Hn) | [(Hnex & Hlt & Hn) | (Hnex & Heq & Hn)]]];
    rewrite Hn in H.
  - inversion H; subst r. simpl. split; [| split; lra].
    repeat split; try apply Hm0; try assumption.
    + rewrite Hd. destruct Hm as (_&<-&<-&<-&_&<-&<-). reflexivity.
    + rewrite Hv. exact Hex.
  - apply (IH self0 self' precision ((high + low) / 2) high r Hwf Hm0); [lra | lra | exact H].
  - apply (IH self0 self' precision low ((high + low) / 2) r Hwf Hm0); [lra | lra | exact H].
  - apply (IH self0 self' precision low high r Hwf Hm0); [lra | lra | exact H].
Qed.

(** * Continuity of the model price *)

Lemma gk_d1_continuous (u k rd rf T v : R) :
  0 < T -> v <> 0 -> continuity_pt (fun vol => gk_d1 u k rd rf T vol) v.
Proof.
  intros HT Hv. unfold gk_d1.
  assert (Hs : 0 < sqrt T) by now apply sqrt_lt_R0.
  reg. apply Rmult_integral_contrapositive_currified; lra.
Qed.

Lemma price_at_continuous (self : CurrencyOption) (v : R) :
  0 < expiry self -> v <> 0 -> continuity_pt (price_at self) v.
Proof.
  intros HT Hv. unfold price_at, model_price.
  apply (continuity_pt_mult
           (fun vol => exp (- r_domestic self * expiry self)
                       * norm_cdf (gk_d1 (underlying self) (strike self) (r_domestic self)
                                     (r_foreign self) (expiry self) vol) * buyPrice self)
           (fct_cte (conversionFactor self)));
    [| apply continuity_pt_const; intros a b; reflexivity].
  apply (continuity_pt_mult
           (fun vol => exp (- r_domestic self * expiry self)
                       * norm_cdf (gk_d1 (underlying self) (strike self) (r_domestic self)
                                     (r_foreign self) (expiry self) vol))
           (fct_cte (buyPrice self)));
    [| apply continuity_pt_const; intros a b; reflexivity].
  apply (continuity_pt_mult (fct_cte (exp (- r_domestic self * expiry self)))
           (fun vol => norm_cdf (gk_d1 (underlying self) (strike self) (r_domestic self)
                                   (r_foreign self) (expiry self) vol)));
    [apply continuity_pt_const; intros a b; reflexivity |].
  apply (continuity_pt_comp
           (fun vol => gk_d1 (underlying self) (strike self) (r_domestic self)
                         (r_foreign self) (expiry self) vol) norm_cdf).
  - now apply gk_d1_continuous.
  - apply norm_cdf_continuous.
Qed.

(** * Termination for a positive precision *)

Section Termination.
Variable self0 : CurrencyOption.
Variable precision : R.
Hypothesis expiry_pos : 0 < expiry self0.
Hypothesis inputs_wf : well_formed self0.
Hypothesis precision_pos : 0 < precision.

(** A bound that was moved lies strictly on its side of the target. *)
Definition bracket_inv (low high : R) : Prop :=
  0.01 <= low /\ low <= high /\ high <= 300
  /\ (low = 0.01 \/ price_at self0 low < buyPrice self0 - precision)
  /\ (high = 300 \/ buyPrice self0 + precision < price_at self0 high).

Lemma price_uniformly_continuous :
  exists delta : R, 0 < delta /\
    forall x y, 0.01 <= x <= 300 -> 0.01 <= y <= 300 -> Rabs (x - y) < delta ->
      Rabs (price_at self0 x - price_at self0 y) < 2 * precision.
Proof.
  assert (Heps : 0 < 2 * precision) by lra.
  assert (Hc : forall x, 0.01 <= x <= 300 -> continuity_pt (price_at self0) x).
  { intros x Hx. apply price_at_continuous; [exact expiry_pos | lra]. }
  destruct (Heine (price_at self0) (fun c => 0.01 <= c <= 300) (compact_P3 0.01 300) Hc
              (mkposreal _ Heps)) as [delta Hdelta].
  exists delta. split; [apply cond_pos |]. intros x y Hx Hy Hxy.
  apply (Hdelta x y Hx Hy Hxy).
Qed.

Lemma narrow_bracket_exits (delta low high : R) :
  (forall x y, 0.01 <= x <= 300 -> 0.01 <= y <= 300 -> Rabs (x - y) < delta ->
      Rabs (price_at self0 x - price_at self0 y) < 2 * precision) ->
  bracket_inv low high -> high - low < Rmin delta 0.09 ->
  high <= 0.1 \/ low >= 299.9.
Proof.
  intros Huc (H1 & H2 & H3 & Hl & Hh) Hw.
  assert (Hw1 : high - low < delta) by (eapply Rlt_le_trans; [exact Hw | apply Rmin_l]).
  assert (Hw2 : high - low < 0.09) by (eapply Rlt_le_trans; [exact Hw | apply Rmin_r]).
  destruct Hl as [-> | Hl]; [left; lra |].
  destruct Hh as [-> | Hh]; [right; lra |].
  exfalso.
  assert (Habs : Rabs (high - low) < delta) by (rewrite Rabs_pos_eq; lra).
  pose proof (Huc high low) as Hd.
  assert (Hd' : Rabs (price_at self0 high - price_at self0 low) < 2 * precision)
    by (apply Hd; [lra | lra | exact Habs]).
  apply Rabs_def2 in Hd'. lra.
Qed.

Lemma bisection_terminates_within (delta : R) :
  (forall x y, 0.01 <= x <= 300 -> 0.01 <= y <= 300 -> Rabs (x - y) < delta ->
      Rabs (price_at self0 x - price_at self0 y) < 2 * precision) ->
  forall (n : nat) (self : CurrencyOption) (low high : R),
    market_eq self0 self -> bracket_inv low high ->
    high - low < Rmin delta 0.09 * 2 ^ n ->
    exists r, bisection (S n) self precision low high = Returned r.
Proof.
  intros Huc n. induction n as [| n IH]; intros self low high Hm Hinv Hw.
  - assert (Hwf' : well_formed self) by (eapply well_formed_market_eq; eauto).
    destruct Hinv as (H1 & H2 & H3 & Hl & Hh).
    destruct (bisection_unfold 0 self precision low high Hwf') as (self' & _ & _ & _ & Hb);
      [lra |].
    rewrite Hb.
    destruct (narrow_bracket_exits delta low high Huc) as [He | He];
      [repeat split; assumption | simpl in Hw; lra | |].
    + exists (self', (low, high)). unfold next_ctl.
      replace (Rleb high 0.1) with true by (symmetry; now apply Rleb_true).
      rewrite orb_true_r. reflexivity.
    + exists (self', (low, high)). unfold next_ctl.
      replace (Rleb 299.9 low) with true by (symmetry; apply Rleb_true; lra).
      rewrite orb_true_r. reflexivity.
  - assert (Hwf' : well_formed self) by (eapply well_formed_market_eq; eauto).
    pose proof Hinv as (H1 & H2 & H3 & Hl & Hh).
    destruct (bisection_unfold (S n) self precision low high Hwf')
      as (self' & Hm' & _ & _ & Hb); [lra |].
    rewrite Hb. clear Hb.
    assert (Hm0 : market_eq self0 self') by (eapply market_eq_trans; eauto).
    pose proof (next_ctl_cases self precision low high) as Hc. cbv zeta in Hc.
    rewrite <- (price_at_market_eq self0 self) in Hc by exact Hm.
    assert (Hbuy : buyPrice self = buyPrice self0) by (symmetry; apply Hm).
    rewrite Hbuy in Hc. unfold exit_condition in Hc.
    assert (Hw' : (high - low) / 2 < Rmin delta 0.09 * 2 ^ n).
    { rewrite <- tech_pow_Rmult in Hw. lra. }
    destruct Hc as [[Hex Hn] | [(Hnex & Hlt & Hn) | [(Hnex & Hlt & Hn) | (Hnex & Heq & Hn)]]];
      rewrite Hn.
    + eexists. reflexivity.
    + apply IH; [exact Hm0 | | lra].
      repeat split; try lra. right.
      assert (Hgt : precision < Rabs (buyPrice self0 - price_at self0 ((high + low) / 2)))
        by (apply Rnot_le_lt; intro; apply Hnex; now left).
      rewrite Rabs_pos_eq in Hgt by lra. lra.
    + apply IH; [exact Hm0 | | lra].
      repeat split; try lra. right.
      assert (Hgt : precision < Rabs (buyPrice self0 - price_at self0 ((high + low) / 2)))
        by (apply Rnot_le_lt; intro; apply Hnex; now left).
      rewrite Rabs_left in Hgt by lra. lra.
    + exfalso. apply Hnex. left. rewrite Heq.
      unfold Rminus. rewrite Rplus_opp_r, Rabs_R0. lra.
Qed.

Lemma bisection_terminates :
  exists fuel r, bisection fuel self0 precision 0.01 300.0 = Returned r.
Proof.
  destruct price_uniformly_continuous as (delta & Hdelta & Huc).
  assert (Hd0 : 0 < Rmin delta 0.09) by (apply Rmin_pos; lra).
  assert (H2 : Rabs 2 > 1) by (rewrite Rabs_pos_eq; lra).
  destruct (Pow_x_infinity 2 H2 (300 / Rmin delta 0.09 + 1)) as [N HN].
  specialize (HN N (Nat.le_refl N)). rewrite Rabs_pos_eq in HN by (apply pow_le; lra).
  exists (S N).
  apply (bisection_terminates_within delta Huc N self0 0.01 300.0).
  - apply market_eq_refl.
  - repeat split; try lra; left; lra.
  - assert (H300 : 300 < Rmin delta 0.09 * 2 ^ N).
    { apply (Rmult_lt_reg_r (/ Rmin delta 0.09)); [now apply Rinv_0_lt_compat |].
      replace (Rmin delta 0.09 * 2 ^ N * / Rmin delta 0.09) with (2 ^ N) by (field; lra).
      unfold Rdiv in HN. lra. }
    lra.
Qed.

End Termination.

(** * The assignments after the loop *)

Lemma finish_returns (self : CurrencyOption) :
  0 <= expiry self -> finish self = Returned (finished self).
Proof.
  intro H. unfold finish. rewrite py_sqrt_returns by exact H. reflexivity.
Qed.

Lemma finish_inv (self self' : CurrencyOption) :
  finish self = Returned self' -> self' = finished self.
Proof.
  unfold finish, py_sqrt. destruct (Rle_dec 0 (expiry self)); cbn [bind]; [| discriminate].
  intro H. inversion H. reflexivity.
Qed.

Lemma calculateVolatility_inv (fuel : nat) (self : CurrencyOption) (precision : R) self' vol :
  calculateVolatility fuel self precision = Returned (self', vol) ->
  exists last low high,
    bisection fuel self precision 0.01 300.0 = Returned (last, (low, high))
    /\ self' = finished last /\ vol = volatility last.
Proof.
  unfold calculateVolatility. intro H.
  destruct (bisection fuel self precision 0.01 300.0) as [[last [low high]] | e |];
    cbn [bind fst] in H; try discriminate.
  destruct (finish last) as [s | e |] eqn:Hf; cbn [bind] in H; try discriminate.
  apply finish_inv in Hf. inversion H; subst. exists last, low, high. auto.
Qed.

Lemma calculateVolatility_returns (fuel : nat) (self : CurrencyOption) (precision : R)
    last low high :
  bisection fuel self precision 0.01 300.0 = Returned (last, (low, high)) ->
  0 <= expiry last ->
  calculateVolatility fuel self precision = Returned (finished last, volatility last).
Proof.
  intros Hb HT. unfold calculateVolatility. rewrite Hb. cbn [bind fst].
  rewrite finish_returns by exact HT. reflexivity.
Qed.

(** The pass that breaks is the one that wrote the final state. *)
Lemma bisection_last_pass (fuel : nat) :
  forall (self : CurrencyOption) (precision low high : R) last l h,
    bisection fuel self precision low high = Returned (last, (l, h)) ->
    exists prev, loop_body prev precision l h = Returned (last, Break).
Proof.
  induction fuel as [| fuel IH]; intros self precision low high last l h H; [discriminate |].
  cbn [bisection] in H.
  destruct (loop_body self precision low high) as [[s c] | e |] eqn:Hb; cbn [bind] in H;
    try discriminate.
  destruct c as [| low' high']; simpl in H.
  - inversion H; subst. exists self. exact Hb.
  - eapply IH. exact H.
Qed.

(** * Runs that leave through the upper escape *)

Section UpperEscape.
Variable self0 : CurrencyOption.
Variable precision : R.
Hypothesis inputs_wf : well_formed self0.
Hypothesis always_below :
  forall v, 0 < v -> price_at self0 v < buyPrice self0
                     /\ precision < buyPrice self0 - price_at self0 v.

Lemma below_continues (self : CurrencyOption) (low : R) :
  market_eq self0 self -> 0 < low -> low < 299.9 ->
  next_ctl self precision low 300 = Continue ((300 + low) / 2) 300.
Proof.
  intros Hm Hlo Hlt.
  pose proof (next_ctl_cases self precision low 300) as Hc. cbv zeta in Hc.
  rewrite <- (price_at_market_eq self0 self) in Hc by exact Hm.
  assert (Hbuy : buyPrice self = buyPrice self0) by (symmetry; apply Hm).
  rewrite Hbuy in Hc. unfold exit_condition in Hc.
  destruct (always_below ((300 + low) / 2)) as [Hb1 Hb2]; [lra |].
  assert (Hnex : ~ (Rabs (buyPrice self0 - price_at self0 ((300 + low) / 2)) <= precision
                    \/ 300 <= 0.1 \/ low >= 299.9)).
  { intros [H | [H | H]]; try lra. rewrite Rabs_pos_eq in H by lra. lra. }
  destruct Hc as [[Hex _] | [(_ & _ & Hn) | [(_ & Hgt & _) | (_ & Heq & _)]]];
    [contradiction | exact Hn | lra | lra].
Qed.

Lemma upper_escape_from (j : nat) :
  forall (self : CurrencyOption) (low : R),
    market_eq self0 self -> low = 300 - last_width * 2 ^ j -> 0 < low ->
    exists last,
      market_eq self0 last
      /\ volatility last = 300 - last_width / 2
      /\ d1 last = gk_d1 (underlying self0) (strike self0) (r_domestic self0)
                     (r_foreign self0) (expiry self0) (300 - last_width / 2)
      /\ bisection (S j) self precision low 300 = Returned (last, (300 - last_width, 300)).
Proof.
  assert (Hw : 0 < last_width <= 0.1) by (unfold last_width; lra).
  induction j as [| j IH]; intros self low Hm Hlow Hpos.
  - simpl in Hlow. rewrite Rmult_1_r in Hlow.
    assert (Hwf' : well_formed self) by (eapply well_formed_market_eq; eauto).
    destruct (bisection_unfold 0 self precision low 300 Hwf')
      as (last & Hm' & Hv & Hd & Hb); [lra |].
    exists last. split; [eapply market_eq_trans; eauto |].
    split; [rewrite Hv, Hlow; lra |].
    split.
    + rewrite Hd. destruct Hm as (_&<-&<-&<-&_&<-&<-). f_equal. rewrite Hlow. lra.
    + rewrite Hb. unfold next_ctl.
      replace (Rleb 299.9 low) with true by (symmetry; apply Rleb_true; lra).
      rewrite orb_true_r. rewrite Hlow. reflexivity.
  - assert (Hwf' : well_formed self) by (eapply well_formed_market_eq; eauto).
    assert (H2j : 1 <= 2 ^ j) by (apply pow_R1_Rle; lra).
    rewrite <- tech_pow_Rmult in Hlow.
    assert (Hlt : low < 299.9).
    { unfold last_width in *. nra. }
    destruct (bisection_unfold (S j) self precision low 300 Hwf')
      as (self' & Hm' & _ & _ & Hb); [lra |].
    rewrite Hb, (below_continues self low Hm Hpos Hlt).
    apply IH; [eapply market_eq_trans; eauto | rewrite Hlow; lra | lra].
Qed.

Lemma upper_escape_run :
  exists last,
    market_eq self0 last
    /\ volatility last = 300 - last_width / 2
    /\ d1 last = gk_d1 (underlying self0) (strike self0) (r_domestic self0)
                   (r_foreign self0) (expiry self0) (300 - last_width / 2)
    /\ bisection 13 self0 precision 0.01 300.0 = Returned (last, (300 - last_width, 300))
    /\ calculateVolatility 13 self0 precision
       = Returned (finished last, 300 - last_width / 2).
Proof.
  destruct (upper_escape_from 12 self0 0.01 (market_eq_refl self0)) as (last & Hm & Hv & Hd & Hb).
  - unfold last_width. field_simplify. lra.
  - lra.
  - replace 300.0 with 300 by lra.
    exists last. repeat split; try apply Hm; try assumption.
    rewrite <- Hv. eapply calculateVolatility_returns.
    + replace 300.0 with 300 by lra. exact Hb.
    + destruct Hm as (_ & <- & _). destruct inputs_wf as (HT & _). lra.
Qed.

End UpperEscape.

(** * Bounds on the model price *)

Lemma norm_cdf_range_at (self : CurrencyOption) (v : R) :
  0 < norm_cdf (gk_d1 (underlying self) (strike self) (r_domestic self) (r_foreign self)
                  (expiry self) v) < 1.
Proof. apply norm_cdf_range. Qed.

Lemma discount_le_1 (r T : R) : 0 <= r * T -> 0 < exp (- r * T) <= 1.
Proof.
  intro H. split; [apply exp_pos |].
  rewrite <- exp_0. destruct (Req_dec (r * T) 0) as [E | E].
  - right. f_equal. lra.
  - left. apply exp_increasing. lra.
Qed.

Lemma price_at_bounds (self : CurrencyOption) (v : R) :
  0 < buyPrice self -> 0 < conversionFactor self -> 0 <= r_domestic self * expiry self ->
  0 < price_at self v < buyPrice self * conversionFactor self.
Proof.
  intros Hb Hc Hr. unfold price_at, model_price.
  pose proof (norm_cdf_range_at self v) as [Hn0 Hn1].
  pose proof (discount_le_1 _ _ Hr) as [He0 He1].
  set (n := norm_cdf _) in *. set (e := exp _) in *.
  assert (Hen : 0 < e * n < 1) by nra.
  assert (Hbc : 0 < buyPrice self * conversionFactor self) by nra.
  replace (e * n * buyPrice self * conversionFactor self)
    with ((e * n) * (buyPrice self * conversionFactor self)) by ring.
  nra.
Qed.

(** * Runs that leave at the first pass *)

Lemma first_pass_exit (self : CurrencyOption) (precision : R) :
  well_formed self ->
  Rabs (buyPrice self - price_at self 150.005) <= precision ->
  exists last,
    market_eq self last
    /\ volatility last = 150.005
    /\ d1 last = gk_d1 (underlying self) (strike self) (r_domestic self)
                   (r_foreign self) (expiry self) 150.005
    /\ bisection 1 self precision 0.01 300.0 = Returned (last, (0.01, 300.0))
    /\ calculateVolatility 1 self precision = Returned (finished last, 150.005).
Proof.
  intros Hwf Hp.
  destruct (bisection_unfold 0 self precision 0.01 300.0 Hwf) as (last & Hm & Hv & Hd & Hb);
    [lra |].
  replace ((300.0 + 0.01) / 2) with 150.005 in * by lra.
  assert (Hn : next_ctl self precision 0.01 300.0 = Break).
  { unfold next_ctl. replace ((300.0 + 0.01) / 2) with 150.005 by lra.
    replace (Rleb (Rabs (buyPrice self - price_at self 150.005)) precision) with true
      by (symmetry; now apply Rleb_true).
    reflexivity. }
  rewrite Hn in Hb.
  exists last. repeat split; try apply Hm; try assumption.
  rewrite <- Hv. eapply calculateVolatility_returns; [exact Hb |].
  destruct Hm as (_ & <- & _). destruct Hwf as (HT & _). lra.
Qed.

(** * What a returning call tells about its inputs *)

Lemma eval_d1_returned (self : CurrencyOption) (d : R) :
  eval_d1 self = Returned d -> well_formed self /\ volatility self <> 0.
Proof.
  unfold eval_d1, py_div, py_log, py_sqrt.
  destruct (Req_dec_T (strike self) 0) as [Hk | Hk]; cbn [bind]; [discriminate |].
  destruct (Rlt_dec 0 (underlying self / strike self)) as [Hq | Hq]; cbn [bind];
    [| discriminate].
  destruct (Rle_dec 0 (expiry self)) as [HT | HT]; cbn [bind]; [| discriminate].
  destruct (Req_dec_T (volatility self * sqrt (expiry self)) 0) as [Hz | Hz];
    [discriminate |].
  intros _.
  assert (Hv : volatility self <> 0) by (intro E; apply Hz; rewrite E; ring).
  assert (Hs : sqrt (expiry self) <> 0) by (intro E; apply Hz; rewrite E; ring).
  repeat split; try assumption.
  destruct HT as [HT | HT]; [exact HT |]. exfalso. apply Hs. rewrite <- HT. apply sqrt_0.
Qed.

Lemma loop_body_returned (self : CurrencyOption) (precision low high : R) r :
  loop_body self precision low high = Returned r -> well_formed self.
Proof.
  unfold loop_body.
  destruct (eval_d1 (set_volatility self ((high + low) / 2.0))) as [d | e |] eqn:E;
    cbn [bind]; try discriminate.
  intros _. apply eval_d1_returned in E. destruct E as [Hwf _]. exact Hwf.
Qed.

Lemma bisection_returned (fuel : nat) (self : CurrencyOption) (precision low high : R) r :
  bisection fuel self precision low high = Returned r -> well_formed self.
Proof.
  destruct fuel as [| fuel]; [discriminate |]. cbn [bisection].
  destruct (loop_body self precision low high) as [b | e |] eqn:E; cbn [bind];
    try discriminate.
  intros _. eapply loop_body_returned. exact E.
Qed.

(** * Calibration returns for a positive precision *)

Lemma calculateVolatility_terminates (self : CurrencyOption) (precision : R) :
  0 < expiry self -> 0 < strike self -> 0 < underlying self -> 0 < precision ->
  exists fuel self' vol, calculateVolatility fuel self precision = Returned (self', vol).
Proof.
  intros HT Hk Hu Hp.
  assert (Hwf : well_formed self) by now apply positive_well_formed.
  destruct (bisection_terminates self precision HT Hwf Hp) as (fuel & [last [low high]] & Hb).
  exists fuel, (finished last), (volatility last).
  eapply calculateVolatility_returns; [exact Hb |].
  destruct (bisection_exit_state fuel self self precision 0.01 300.0 _ Hwf
              (market_eq_refl self) ltac:(lra) ltac:(lra) Hb) as ((Hm & _) & _).
  destruct Hm as (_ & <- & _). lra.
Qed.

(** * Facts about the sample inputs *)

Lemma sample_well_formed : well_formed sample_option.
Proof. unfold well_formed. simpl. repeat split; lra. Qed.

Lemma cheap_well_formed : well_formed cheap_option.
Proof. exact sample_well_formed. Qed.

Lemma sample_always_below (v : R) :
  price_at sample_option v < buyPrice sample_option
  /\ 0.05 < buyPrice sample_option - price_at sample_option v.
Proof.
  assert (H : 0 < price_at sample_option v
              < buyPrice sample_option * conversionFactor sample_option)
    by (apply price_at_bounds; simpl; lra).
  simpl in *. lra.
Qed.

Lemma cheap_within_precision (v : R) :
  Rabs (buyPrice cheap_option - price_at cheap_option v) <= 0.05.
Proof.
  assert (H : 0 < price_at cheap_option v
              < buyPrice cheap_option * conversionFactor cheap_option)
    by (apply price_at_bounds; simpl; lra).
  simpl in *. apply Rabs_le. lra.
Qed.

(** The end-to-end example of the specification (strike 1.1000, underlying
    1.1050, T = 0.0833, price 0.0120, precision 0.05) leaves the loop at its
    first pass, with the volatility 150.005. *)
Lemma cheap_option_run :
  exists last,
    calculateVolatility 1 cheap_option 0.05 = Returned (finished last, 150.005)
    /\ Rabs (buyPrice cheap_option - price_at cheap_option 150.005) <= 0.05.
Proof.
  destruct (first_pass_exit cheap_option 0.05 cheap_well_formed
              (cheap_within_precision 150.005)) as (last & _ & _ & _ & _ & Hc).
  exists last. split; [exact Hc | apply cheap_within_precision].
Qed.

(** * A call that never returns *)

Lemma stuck_level_pos : 0 < stuck_level.
Proof.
  unfold stuck_level. apply Rmult_lt_0_compat; [apply exp_pos | apply norm_cdf_range].
Qed.

Lemma stuck_well_formed : well_formed stuck_option.
Proof.
  pose proof stuck_level_pos as H. apply positive_well_formed; simpl; lra.
Qed.

Lemma sqrt_4 : sqrt 4 = 2.
Proof. replace 4 with (2 * 2) by lra. apply sqrt_square. lra. Qed.

Lemma stuck_d1 (v : R) :
  v <> 0 ->
  gk_d1 (underlying stuck_option) (strike stuck_option) (r_domestic stuck_option)
    (r_foreign stuck_option) (expiry stuck_option) v = v.
Proof.
  intro Hv. pose proof stuck_level_pos as H. unfold gk_d1, stuck_option. read_fields.
  replace (stuck_level / stuck_level) with 1 by (field; lra).
  rewrite ln_1, sqrt_4.
  replace (0.0256 - 0.0256) with 0 by lra. replace 0.5 with (1 / 2) by lra.
  field. exact Hv.
Qed.

Lemma stuck_price (v : R) :
  v <> 0 -> price_at stuck_option v = norm_cdf v / norm_cdf 1.
Proof.
  intro Hv. unfold price_at. rewrite stuck_d1 by exact Hv.
  unfold model_price, stuck_option. read_fields. unfold stuck_level.
  pose proof (norm_cdf_range 1) as [Hn _].
  pose proof (exp_pos (- (0.0256) * 4)) as He.
  set (e := exp (- (0.0256) * 4)) in *. set (n1 := norm_cdf 1) in *.
  field. split; lra.
Qed.

Lemma norm_cdf_0 : norm_cdf 0 = 1 / 2.
Proof. unfold norm_cdf. rewrite kernel_area_0. unfold Rdiv. ring. Qed.

Lemma stuck_price_at_1 : price_at stuck_option 1 = buyPrice stuck_option.
Proof.
  rewrite stuck_price by lra. pose proof (norm_cdf_range 1) as [Hn _].
  unfold stuck_option. read_fields. field. lra.
Qed.

Lemma stuck_first_pass : Rabs (buyPrice stuck_option - price_at stuck_option 150.005) <= 1.
Proof.
  rewrite stuck_price by lra. unfold stuck_option. read_fields.
  assert (H1 : 1 / 2 < norm_cdf 1) by (rewrite <- norm_cdf_0; apply norm_cdf_increasing; lra).
  pose proof (norm_cdf_range 150.005) as [Hv0 Hv1].
  assert (Hr : 0 < norm_cdf 150.005 / norm_cdf 1 < 2).
  { split; [apply Rdiv_lt_0_compat; lra |].
    apply (Rmult_lt_reg_r (norm_cdf 1)); [lra |].
    unfold Rdiv. rewrite Rmult_assoc, Rinv_l by lra. lra. }
  apply Rabs_le. lra.
Qed.

(** With the price 0 and the precision -1 a pass changes nothing. *)
Lemma zero_price_well_formed : well_formed zero_price_option.
Proof. exact sample_well_formed. Qed.

Lemma zero_price_price (v : R) : price_at zero_price_option v = 0.
Proof. unfold price_at, model_price, zero_price_option. read_fields. ring. Qed.

Lemma zero_price_forever (fuel : nat) :
  forall self : CurrencyOption,
    market_eq zero_price_option self ->
    bisection fuel self (- 1) 0.01 300.0 = OutOfFuel.
Proof.
  induction fuel as [| fuel IH]; intros self Hm; [reflexivity |].
  assert (Hwf : well_formed self)
    by (eapply well_formed_market_eq; [exact Hm | exact zero_price_well_formed]).
  destruct (bisection_unfold fuel self (- 1) 0.01 300.0 Hwf) as (self' & Hm' & _ & _ & Hb);
    [lra |].
  rewrite Hb. clear Hb.
  assert (Hm0 : market_eq zero_price_option self') by (eapply market_eq_trans; eauto).
  pose proof (next_ctl_cases self (- 1) 0.01 300.0) as Hc. cbv zeta in Hc.
  rewrite <- (price_at_market_eq zero_price_option self) in Hc by exact Hm.
  assert (Hbuy : buyPrice self = 0) by (symmetry; apply Hm).
  rewrite Hbuy, zero_price_price in Hc. unfold exit_condition in Hc.
  rewrite Rminus_0_r, Rabs_R0 in Hc.
  destruct Hc as [[Hex _] | [(_ & Hlt & _) | [(_ & Hgt & _) | (_ & _ & Hn)]]].
  - exfalso. destruct Hex as [Hex | [Hex | Hex]]; lra.
  - lra.
  - lra.
  - rewrite Hn. apply IH. exact Hm0.
Qed.

(** * Monotonicity of the model price in the volatility *)

Lemma gk_d1_increasing (u k rd rf T v1 v2 : R) :
  0 < T -> 0 < v1 -> v1 < v2 ->
  2 * (ln (u / k) + (rd - rf) * T) <= v1 * v1 * T ->
  gk_d1 u k rd rf T v1 < gk_d1 u k rd rf T v2.
Proof.
  intros HT Hv1 Hv12 Ha. unfold gk_d1.
  assert (Hs : 0 < sqrt T) by now apply sqrt_lt_R0.
  set (L := ln (u / k)) in *. set (s := sqrt T) in *.
  replace 0.5 with (1 / 2) by lra.
  assert (H1 : 0 < v1 * s) by (apply Rmult_lt_0_compat; lra).
  assert (H2 : 0 < v2 * s) by (apply Rmult_lt_0_compat; lra).
  apply (Rmult_lt_reg_r (v1 * s)); [exact H1 |].
  apply (Rmult_lt_reg_r (v2 * s)); [exact H2 |].
  replace ((L + (rd - rf + 1 / 2 * v1 ^ 2) * T) / (v1 * s) * (v1 * s) * (v2 * s))
    with ((L + (rd - rf + 1 / 2 * v1 ^ 2) * T) * (v2 * s)) by (field; lra).
  replace ((L + (rd - rf + 1 / 2 * v2 ^ 2) * T) / (v2 * s) * (v1 * s) * (v2 * s))
    with ((L + (rd - rf + 1 / 2 * v2 ^ 2) * T) * (v1 * s)) by (field; lra).
  assert (Hd : 0 < (v2 - v1) * (1 / 2 * T * v1 * v2 - (L + (rd - rf) * T))).
  { apply Rmult_lt_0_compat; [lra |].
    assert (HvT : 0 < v1 * T) by (apply Rmult_lt_0_compat; lra).
    assert (Hlt : v1 * T * v1 < v1 * T * v2) by (apply Rmult_lt_compat_l; lra).
    lra. }
  apply (Rmult_lt_compat_r s) in Hd; [| exact Hs].
  rewrite Rmult_0_l in Hd. lra.
Qed.

Lemma itm_d1 (v : R) :
  v <> 0 ->
  gk_d1 (underlying itm_option) (strike itm_option) (r_domestic itm_option)
    (r_foreign itm_option) (expiry itm_option) v = (ln 2 + v * v / 2) / v.
Proof.
  intro Hv. unfold gk_d1, itm_option. read_fields.
  replace (2.0 / 1.0) with 2 by lra.
  rewrite sqrt_1.
  replace (0.0256 - 0.0256) with 0 by lra. replace 0.5 with (1 / 2) by lra.
  field. exact Hv.
Qed.

Lemma atm_log_moneyness : log_moneyness atm_option = 0.
Proof.
  unfold log_moneyness, atm_option. read_fields.
  replace (0.85 / 0.85) with 1 by lra. rewrite ln_1. lra.
Qed.

(** * Inputs that make the d1 expression raise *)

Lemma loop_body_raises (self : CurrencyOption) (precision low high : R) (e : pyexn) :
  eval_d1 (set_volatility self ((high + low) / 2.0)) = Raised e ->
  loop_body self precision low high = Raised e.
Proof. intro H. unfold loop_body. rewrite H. reflexivity. Qed.

Lemma calculateVolatility_raises (fuel : nat) (self : CurrencyOption) (precision : R)
    (e : pyexn) :
  eval_d1 (set_volatility self ((300.0 + 0.01) / 2.0)) = Raised e ->
  calculateVolatility (S fuel) self precision = Raised e.
Proof.
  intro H. unfold calculateVolatility. cbn [bisection].
  rewrite (loop_body_raises self precision 0.01 300.0 e H). reflexivity.
Qed.

Lemma eval_d1_strike_zero (self : CurrencyOption) :
  strike self = 0 -> eval_d1 self = Raised ZeroDivisionError.
Proof. intro H. unfold eval_d1. rewrite H, py_div_zero. reflexivity. Qed.

Lemma eval_d1_log_domain (self : CurrencyOption) :
  strike self <> 0 -> underlying self / strike self <= 0 ->
  eval_d1 self = Raised ValueError.
Proof.
  intros Hk Hq. unfold eval_d1. rewrite py_div_returns by exact Hk. cbn [bind].
  rewrite py_log_domain by exact Hq. reflexivity.
Qed.

Lemma eval_d1_sqrt_domain (self : CurrencyOption) :
  strike self <> 0 -> 0 < underlying self / strike self -> expiry self < 0 ->
  eval_d1 self = Raised ValueError.
Proof.
  intros Hk Hq HT. unfold eval_d1. rewrite py_div_returns by exact Hk. cbn [bind].
  rewrite py_log_returns by exact Hq. cbn [bind].
  rewrite py_sqrt_domain by exact HT. reflexivity.
Qed.

Lemma eval_d1_expired (self : CurrencyOption) :
  strike self <> 0 -> 0 < underlying self / strike self -> expiry self = 0 ->
  eval_d1 self = Raised ZeroDivisionError.
Proof.
  intros Hk Hq HT. unfold eval_d1. rewrite py_div_returns by exact Hk. cbn [bind].
  rewrite py_log_returns by exact Hq. cbn [bind].
  rewrite HT, py_sqrt_returns by lra. cbn [bind].
  rewrite sqrt_0, !Rmult_0_r. apply py_div_zero.
Qed.

Lemma negative_well_formed : well_formed negative_option.
Proof. unfold well_formed, negative_option. read_fields. repeat split; lra. Qed.

Lemma negative_always_below (v : R) :
  price_at negative_option v < buyPrice negative_option
  /\ 0.05 < buyPrice negative_option - price_at negative_option v.
Proof.
  unfold price_at, model_price.
  pose proof (norm_cdf_range_at negative_option v) as [Hn _].
  pose proof (exp_pos (- r_domestic negative_option * expiry negative_option)) as He.
  set (n := norm_cdf _) in *. set (e := exp _) in *.
  unfold negative_option. read_fields.
  assert (Hen : 0 < e * n) by (apply Rmult_lt_0_compat; assumption).
  assert (Hneg : e * n * 50.0 * (1 / - 1.105) < 0).
  { replace (e * n * 50.0 * (1 / - 1.105)) with (- ((e * n) * (50.0 / 1.105))) by lra.
    assert (0 < e * n * (50.0 / 1.105)) by (apply Rmult_lt_0_compat; lra). lra. }
  lra.
Qed.

(** * Splitting and joining *)

Lemma py_split_free (sep : ascii) (s : string) :
  has_char sep s = false -> py_split sep s = [s].
Proof.
  induction s as [| a rest IH]; intro H; [reflexivity |].
  simpl in H. apply orb_false_elim in H. destruct H as [Ha Hrest].
  simpl. rewrite Ha, (IH Hrest). reflexivity.
Qed.

Lemma py_split_app (sep : ascii) (s rest : string) :
  has_char sep s = false ->
  py_split sep (s ++ String sep rest) = s :: py_split sep rest.
Proof.
  induction s as [| a s' IH]; intro H.
  - simpl. rewrite Ascii.eqb_refl. reflexivity.
  - simpl in H. apply orb_false_elim in H. destruct H as [Ha Hs].
    simpl. rewrite Ha, (IH Hs). reflexivity.
Qed.

Lemma py_split_concat (sep : ascii) (fields : list string) :
  fields <> [] ->
  Forall (fun f => has_char sep f = false) fields ->
  py_split sep (String.concat (String sep EmptyString) fields) = fields.
Proof.
  induction fields as [| f fs IH]; intros Hne Hall; [contradiction |].
  inversion Hall as [| ? ? Hf Hfs]; subst.
  destruct fs as [| g gs].
  - simpl. now apply py_split_free.
  - change (String.concat (String sep EmptyString) (f :: g :: gs))
      with (f ++ String sep (String.concat (String sep EmptyString) (g :: gs)))%string.
    rewrite py_split_app by exact Hf. f_equal. apply IH; [discriminate | exact Hfs].
Qed.

Lemma py_index_neg_2 {A : Type} (l : list A) (x y : A) :
  py_index_neg (l ++ [x; y]) 2 = Returned x.
Proof.
  unfold py_index_neg, py_index. rewrite length_app. simpl List.length.
  replace (2 <=? List.length l + 2)%nat with true by (symmetry; apply Nat.leb_le; lia).
  replace (List.length l + 2 - 2)%nat with (List.length l) by lia.
  rewrite nth_error_app2 by lia. rewrite Nat.sub_diag. reflexivity.
Qed.

Lemma dict_get_outcome {V : Type} (d : dict V) (k : string) :
  (exists v, dict_get d k = Returned v) \/ dict_get d k = Raised (KeyError k).
Proof.
  induction d as [| [k' v] d IH]; [right; reflexivity |].
  simpl. destruct (String.eqb k' k); [left; eauto | exact IH].
Qed.

(** * What calibration leaves untouched *)

Lemma same_contract_refl (a : CurrencyOption) : same_contract a a.
Proof. repeat split. Qed.

Lemma same_contract_trans (a b c : CurrencyOption) :
  same_contract a b -> same_contract b c -> same_contract a c.
Proof.
  unfold same_contract. intros (?&?&?&?&?&?&?&?&?&?) (?&?&?&?&?&?&?&?&?&?).
  repeat split; congruence.
Qed.

Lemma loop_body_same_contract (self : CurrencyOption) (precision low high : R) s c :
  loop_body self precision low high = Returned (s, c) -> same_contract self s.
Proof.
  unfold loop_body.
  destruct (eval_d1 (set_volatility self ((high + low) / 2.0))) as [d | e |];
    cbn [bind]; try discriminate.
  read_fields.
  destruct (_ || _ || _); [intro H; inversion H; repeat split |].
  destruct (Rltb _ _); [intro H; inversion H; repeat split |].
  destruct (Rltb _ _); intro H; inversion H; repeat split.
Qed.

Lemma bisection_same_contract (fuel : nat) :
  forall (self : CurrencyOption) (precision low high : R) r,
    bisection fuel self precision low high = Returned r -> same_contract self (fst r).
Proof.
  induction fuel as [| fuel IH]; intros self precision low high r H; [discriminate |].
  cbn [bisection] in H.
  destruct (loop_body self precision low high) as [[s c] | e |] eqn:Hb; cbn [bind] in H;
    try discriminate.
  apply loop_body_same_contract in Hb.
  destruct c as [| low' high']; simpl in H.
  - inversion H; subst. exact Hb.
  - eapply same_contract_trans; [exact Hb | eapply IH; exact H].
Qed.

Lemma calculateVolatility_same_contract (fuel : nat) (self : CurrencyOption)
    (precision : R) self' vol :
  calculateVolatility fuel self precision = Returned (self', vol) ->
  same_contract self self'.
Proof.
  intro H.
  destruct (calculateVolatility_inv fuel self precision self' vol H)
    as (last & low & high & Hb & -> & _).
  apply bisection_same_contract in Hb. simpl in Hb.
  eapply same_contract_trans; [exact Hb | repeat split].
Qed.

(** * Well-formed inputs raise nothing *)

Lemma bisection_never_raises (fuel : nat) :
  forall (self : CurrencyOption) (precision low high : R) (e : pyexn),
    well_formed self -> 0 < low -> low <= high ->
    bisection fuel self precision low high <> Raised e.
Proof.
  induction fuel as [| fuel IH]; intros self precision low high e Hwf Hlo Hle;
    [discriminate |].
  destruct (bisection_unfold fuel self precision low high Hwf) as (self' & Hm & _ & _ & Hb);
    [lra |].
  rewrite Hb.
  assert (Hwf' : well_formed self') by (eapply well_formed_market_eq; eauto).
  pose proof (next_ctl_cases self precision low high) as Hc. cbv zeta in Hc.
  destruct Hc as [[_ Hn] | [(_ & _ & Hn) | [(_ & _ & Hn) | (_ & _ & Hn)]]]; rewrite Hn.
  - discriminate.
  - apply IH; [exact Hwf' | lra | lra].
  - apply IH; [exact Hwf' | lra | lra].
  - apply IH; [exact Hwf' | lra | lra].
Qed.

Lemma calculateVolatility_never_raises (fuel : nat) (self : CurrencyOption)
    (precision : R) (e : pyexn) :
  well_formed self -> calculateVolatility fuel self precision <> Raised e.
Proof.
  intros Hwf H. unfold calculateVolatility in H.
  destruct (bisection fuel self precision 0.01 300.0) as [[last [low high]] | e' |] eqn:Hb;
    cbn [bind fst] in H.
  - apply bisection_same_contract in Hb. simpl in Hb.
    destruct Hb as (_ & _ & _ & HT & _). destruct Hwf as (Hpos & _).
    rewrite finish_returns in H by lra. discriminate.
  - apply (bisection_never_raises fuel self precision 0.01 300.0 e' Hwf) in Hb;
      [contradiction | lra | lra].
  - discriminate.
Qed.

(** * The constructor *)

Section ConstructorFacts.
Variable py_float : string -> outcome R.

(** [__init__] derives the contract terms as [parse] does, leaves the
    object with conversionFactor = 1/underlying, and returns it calibrated. *)
Lemma init_returned (fuel : nat) (name : string) (buy sell exchangeRate expireTime : R)
    (indicative : option R) (pipe : pipe_argument) (bh sh : list R) (uh : R)
    (self : CurrencyOption) :
  init py_float fuel name buy sell exchangeRate expireTime indicative pipe bh sh uh
  = Constructed self ->
  (exists n, pipe = Arguments n)
  /\ parse py_float riskFreeRates name (underlying self)
     = Returned (mkContractTerms (strike self) (countries self) (conversionFactor self)
                   (r_domestic self) (r_foreign self))
  /\ underlying self = match indicative with Some x => x | None => exchangeRate end
  /\ conversionFactor self = 1 / underlying self
  /\ buyPrice self = buy /\ expiry self = expireTime.
Proof.
  unfold init. destruct pipe as [| n]; [discriminate |].
  destruct (init_body py_float fuel name buy sell exchangeRate expireTime indicative
              bh sh uh) as [s0 | e |] eqn:Hbody; try discriminate.
  intro Hs0. inversion Hs0; subst s0. clear Hs0.
  split; [exists n; reflexivity |].
  revert Hbody. unfold init_body.
  set (u := match indicative with Some x => x | None => exchangeRate end).
  destruct (parse_strike py_float name) as [k | e |] eqn:Hk0; cbn [bind];
    try discriminate.
  destruct (parse_countries name) as [cs | e |] eqn:Hcs0; cbn [bind]; try discriminate.
  destruct (py_div 1 u) as [cf | e |] eqn:Hdiv; cbn [bind]; try discriminate.
  destruct (py_index cs 0) as [c0 | e |] eqn:H0; cbn [bind]; try discriminate.
  destruct (dict_get riskFreeRates c0) as [rd | e |] eqn:Hd; cbn [bind];
    try discriminate.
  destruct (py_index cs 1) as [c1 | e |] eqn:H1; cbn [bind]; try discriminate.
  destruct (dict_get riskFreeRates c1) as [rf | e |] eqn:Hf; cbn [bind];
    try discriminate.
  destruct (calculateVolatility fuel _ 0.05) as [[s v] | e |] eqn:Hc; cbn [bind];
    try discriminate.
  intro H. inversion H; subst self. clear H.
  apply calculateVolatility_same_contract in Hc.
  destruct Hc as (_ & Hbuy & _ & HT & Hu & Hk & Hcs & Hcf & Hrd & Hrf).
  read_fields. rewrite <- Hk, <- Hcs, <- Hrd, <- Hrf, <- Hu, <- Hcf, <- Hbuy, <- HT.
  assert (Hcf' : cf = 1 / u).
  { unfold py_div in Hdiv. destruct (Req_dec_T u 0); [discriminate |].
    inversion Hdiv. reflexivity. }
  split; [| repeat split; exact Hcf'].
  unfold parse. rewrite Hk0, Hcs0. cbn [bind]. rewrite Hdiv. cbn [bind].
  rewrite H0. cbn [bind]. rewrite Hd. cbn [bind]. rewrite H1. cbn [bind].
  rewrite Hf. reflexivity.
Qed.

End ConstructorFacts.

(** * Contract parsing *)

Section Parsing.
Variable py_float : string -> outcome R.

Lemma py_index_neg_second_last {A : Type} (l : list A) (x d : A) :
  l <> [] -> py_index_neg (l ++ [x]) 2 = Returned (List.last l d).
Proof.
  intro Hl. destruct (exists_last Hl) as (l' & a & ->).
  rewrite last_last, <- app_assoc. apply py_index_neg_2.
Qed.

Lemma parse_strike_identifier (codes middle : list string) (lastField : string) :
  Forall (fun f => has_char " " f = false)
    (String.concat "/" codes :: middle ++ [lastField]) ->
  parse_strike py_float (identifier codes middle lastField)
  = py_float (py_remove ">" (strike_field codes middle)).
Proof.
  intro Hfree. unfold parse_strike, identifier, strike_field.
  change " "%string with (String " "%char EmptyString).
  rewrite py_split_concat by (try discriminate; exact Hfree).
  rewrite (app_comm_cons middle [lastField] (String.concat "/" codes)).
  rewrite (py_index_neg_second_last _ lastField EmptyString) by discriminate.
  reflexivity.
Qed.

Lemma parse_countries_identifier (codes middle : list string) (lastField : string) :
  codes <> [] ->
  Forall (fun f => has_char " " f = false)
    (String.concat "/" codes :: middle ++ [lastField]) ->
  Forall (fun c => has_char "/" c = false) codes ->
  parse_countries (identifier codes middle lastField) = Returned codes.
Proof.
  intros Hne Hfree Hcodes. unfold parse_countries, identifier.
  change " "%string with (String " "%char EmptyString).
  rewrite py_split_concat by (try discriminate; exact Hfree).
  cbn [py_index nth_error bind].
  change "/"%string with (String "/"%char EmptyString).
  rewrite py_split_concat by assumption. reflexivity.
Qed.

End Parsing.

(** * The conversion factor after a feed update *)

Lemma updateFields_feed_fields (self : CurrencyOption) (m0 m1 m2 m3 : feed_message)
    (self' : CurrencyOption) :
  updateFields_feed self m0 m1 m2 m3 = Returned self' ->
  underlying self' = msg_underlying m3
  /\ conversionFactor self' = conversionFactor self.
Proof.
  unfold updateFields_feed.
  destruct (py_index_neg (msg_sell m0) 1) as [s | e |]; cbn [bind]; try discriminate.
  destruct (py_index_neg (msg_buy m1) 1) as [b | e |]; cbn [bind]; try discriminate.
  intro H. inversion H. split; reflexivity.
Qed.

Lemma updateFields_history_fields (self self' : CurrencyOption) :
  updateFields_history self = Returned self' ->
  underlying self' = underlyingHistory self
  /\ conversionFactor self' = conversionFactor self.
Proof.
  unfold updateFields_history.
  destruct (py_index_neg (buyHistory self) 1) as [b | e |]; cbn [bind]; try discriminate.
  read_fields.
  destruct (py_index_neg (sellHistory self) 1) as [s | e |]; cbn [bind]; try discriminate.
  intro H. inversion H. split; reflexivity.
Qed.

(** No pass of [updateFields] writes the conversion factor. *)
Lemma updateFields_conversionFactor (self : CurrencyOption) (m0 m1 m2 m3 : feed_message)
    (self' : CurrencyOption) :
  updateFields self m0 m1 m2 m3 = Returned self' ->
  conversionFactor self' = conversionFactor self.
Proof.
  unfold updateFields. destruct (doExpiry self); intro H.
  - now apply updateFields_feed_fields in H.
  - now apply updateFields_history_fields in H.
Qed.

(** * The claims *)

(** C1: on inputs for which the d1 expression is defined, one pass of the
    loop sets vol = (low + high)/2, d1 by the Garman-Kohlhagen formula, the
    model price exp(-r_domestic*T) * Phi(d1) * buyPrice * conversionFactor,
    breaks when an exit condition holds, and otherwise moves low to vol when
    the price is below the buy price and high to vol when it is above. *)
Theorem C1_loop_iteration (self : CurrencyOption) (precision low high : R) :
  well_formed self -> low + high <> 0 ->
  iteration_spec self precision low high.
Proof.
  intros Hwf Hv. unfold iteration_spec.
  destruct (loop_body_returns self precision low high Hwf) as (self' & Hb & _ & Hvol & Hd);
    [lra |].
  replace ((high + low) / 2) with ((low + high) / 2) in * by lra.
  exists self', (next_ctl self precision low high).
  split; [exact Hb |]. split; [exact Hvol |]. split; [exact Hd |].
  pose proof (next_ctl_cases self precision low high) as Hc. cbv zeta in Hc.
  unfold price_at in Hc.
  replace ((high + low) / 2) with ((low + high) / 2) in Hc by lra.
  destruct Hc as [[Hex Hn] | [(Hnex & Hlt & Hn) | [(Hnex & Hlt & Hn) | (Hnex & Heq & Hn)]]];
    rewrite Hn; repeat split; intros; try reflexivity; try contradiction; try lra.
Qed.

Lemma C1_loop_iteration_witness :
  well_formed sample_option /\ 0.01 + 300 <> 0
  /\ iteration_spec sample_option 0.05 0.01 300.
Proof.
  split; [exact sample_well_formed |]. split; [lra |].
  apply (C1_loop_iteration sample_option 0.05 0.01 300); [exact sample_well_formed | lra].
Defined.

(** C2, as stated, fails: for the sample option (positive time to expiry,
    strike and underlying) with the reference price 0 and the precision -1
    no branch of the loop is taken: the model price is 0, the test
    |0 - 0| <= -1 fails, no escape holds and neither elif fires, so low and
    high never change and the loop never breaks, whatever the number of
    passes allowed. *)
Lemma C2_counterexample :
  0 < expiry zero_price_option /\ 0 < strike zero_price_option
  /\ 0 < underlying zero_price_option
  /\ buyPrice zero_price_option = 0
  /\ forall fuel, calculateVolatility fuel zero_price_option (- 1) = OutOfFuel.
Proof.
  repeat split; try (unfold zero_price_option, sample_option; read_fields; lra).
  intro fuel. unfold calculateVolatility.
  rewrite (zero_price_forever fuel zero_price_option); [reflexivity | apply market_eq_refl].
Qed.

(** C2, amended: in exact arithmetic (floats are modelled by the reals), for
    positive time to expiry, strike and underlying, any reference price and
    any precision greater than 0, the loop terminates: some pass breaks, and
    on the bracket (low, high) of that pass, whose midpoint is the returned
    volatility, |referencePrice - modelPrice| <= precision, or high <= 0.1,
    or low >= 299.9 holds. *)
Theorem C2_terminates_positive_precision (self : CurrencyOption) (precision : R) :
  0 < expiry self -> 0 < strike self -> 0 < underlying self -> 0 < precision ->
  exists fuel prev last low high,
    bisection fuel self precision 0.01 300.0 = Returned (last, (low, high))
    /\ loop_body prev precision low high = Returned (last, Break)
    /\ calculateVolatility fuel self precision
       = Returned (finished last, volatility last)
    /\ volatility last = (high + low) / 2
    /\ 0 < low /\ low <= high
    /\ exit_condition (buyPrice self) (price_at self (volatility last)) precision
         low high.
Proof.
  intros HT Hk Hu Hp.
  assert (Hwf : well_formed self) by now apply positive_well_formed.
  destruct (bisection_terminates self precision HT Hwf Hp) as (fuel & [last [low high]] & Hb).
  destruct (bisection_exit_state fuel self self precision 0.01 300.0 _ Hwf
              (market_eq_refl self) ltac:(lra) ltac:(lra) Hb)
    as ((Hm & Hv & _ & Hex) & Hlo & Hle).
  destruct (bisection_last_pass fuel self precision 0.01 300.0 last low high Hb)
    as [prev Hprev].
  exists fuel, prev, last, low, high.
  split; [exact Hb |]. split; [exact Hprev |].
  split; [| split; [exact Hv | split; [exact Hlo | split; [exact Hle | exact Hex]]]].
  eapply calculateVolatility_returns; [exact Hb |].
  destruct Hm as (_ & <- & _). lra.
Qed.

Lemma C2_terminates_positive_precision_witness :
  (0 < expiry sample_option /\ 0 < strike sample_option /\ 0 < underlying sample_option
   /\ 0 < 0.05)
  /\ exists fuel prev last low high,
       bisection fuel sample_option 0.05 0.01 300.0 = Returned (last, (low, high))
       /\ loop_body prev 0.05 low high = Returned (last, Break)
       /\ calculateVolatility fuel sample_option 0.05
          = Returned (finished last, volatility last)
       /\ volatility last = (high + low) / 2
       /\ 0 < low /\ low <= high
       /\ exit_condition (buyPrice sample_option)
            (price_at sample_option (volatility last)) 0.05 low high.
Proof.
  assert (H1 : 0 < expiry sample_option) by (simpl; lra).
  assert (H2 : 0 < strike sample_option) by (simpl; lra).
  assert (H3 : 0 < underlying sample_option) by (simpl; lra).
  assert (H4 : 0 < 0.05) by lra.
  split; [repeat split; assumption |].
  exact (C2_terminates_positive_precision sample_option 0.05 H1 H2 H3 H4).
Defined.

(** C3, as stated, fails: for the option deep in the money (strike 1,
    underlying 2, T = 1, positive price and conversion factor) the model
    price at the volatility 0.5 is above the model price at the volatility 1;
    and for a reference price 0 the model price is the same at the
    volatilities 1 and 2. *)
Lemma C3_counterexample :
  (0 < strike itm_option /\ 0 < underlying itm_option /\ 0 < expiry itm_option
   /\ 0.01 < 0.5 /\ 0.5 < 1 /\ 1 < 300
   /\ price_at itm_option 1 < price_at itm_option 0.5)
  /\ (0.01 < 1 /\ 1 < 2 /\ 2 < 300
      /\ price_at zero_price_option 1 = price_at zero_price_option 2).
Proof.
  split.
  - repeat split; try (unfold itm_option; read_fields; lra).
    unfold price_at. rewrite !itm_d1 by lra.
    pose proof ln_lt_2 as Hln.
    assert (Hn : norm_cdf ((ln 2 + 1 * 1 / 2) / 1) < norm_cdf ((ln 2 + 0.5 * 0.5 / 2) / 0.5))
      by (apply norm_cdf_increasing; lra).
    unfold model_price, itm_option. read_fields.
    assert (Hd : 0 < exp (- (0.0256) * 1)) by apply exp_pos.
    apply Rmult_lt_compat_r; [lra |].
    apply Rmult_lt_compat_r; [lra |].
    apply Rmult_lt_compat_l; [exact Hd | exact Hn].
  - repeat split; try lra.
    unfold price_at, model_price, zero_price_option. read_fields. ring.
Qed.

(** C3, amended: in exact arithmetic (floats are modelled by the reals, and
    Phi is the exact distribution function), for T > 0, strike > 0,
    underlying > 0 and referencePrice * conversionFactor > 0, the model
    price is strictly increasing between any two volatilities 0 < v1 < v2
    with v1^2 * T >= 2 * (ln(underlying/strike) + (r_domestic - r_foreign) * T);
    that is every pair when this logarithmic moneyness is not positive. In
    double precision the strictness is lost where [norm.cdf] rounds to 1. *)
Theorem C3_price_increasing (self : CurrencyOption) (v1 v2 : R) :
  0 < expiry self -> 0 < strike self -> 0 < underlying self ->
  0 < buyPrice self * conversionFactor self ->
  0 < v1 -> v1 < v2 ->
  2 * log_moneyness self <= v1 * v1 * expiry self ->
  price_at self v1 < price_at self v2.
Proof.
  intros HT _ _ Hbc Hv1 Hv12 Ha. unfold price_at, model_price.
  pose proof (gk_d1_increasing (underlying self) (strike self) (r_domestic self)
                (r_foreign self) (expiry self) v1 v2 HT Hv1 Hv12 Ha) as Hd.
  apply norm_cdf_increasing in Hd.
  pose proof (exp_pos (- r_domestic self * expiry self)) as He.
  set (n1 := norm_cdf (gk_d1 _ _ _ _ _ v1)) in *.
  set (n2 := norm_cdf (gk_d1 _ _ _ _ _ v2)) in *.
  set (e := exp _) in *.
  replace (e * n1 * buyPrice self * conversionFactor self)
    with (e * n1 * (buyPrice self * conversionFactor self)) by ring.
  replace (e * n2 * buyPrice self * conversionFactor self)
    with (e * n2 * (buyPrice self * conversionFactor self)) by ring.
  apply Rmult_lt_compat_r; [exact Hbc |].
  apply Rmult_lt_compat_l; [exact He | exact Hd].
Qed.

Lemma C3_price_increasing_witness :
  (0 < expiry atm_option /\ 0 < strike atm_option /\ 0 < underlying atm_option
   /\ 0 < buyPrice atm_option * conversionFactor atm_option
   /\ 0 < 1 /\ 1 < 2 /\ 2 * log_moneyness atm_option <= 1 * 1 * expiry atm_option)
  /\ price_at atm_option 1 < price_at atm_option 2.
Proof.
  assert (H1 : 0 < expiry atm_option) by (unfold atm_option; read_fields; lra).
  assert (H2 : 0 < strike atm_option) by (unfold atm_option; read_fields; lra).
  assert (H3 : 0 < underlying atm_option) by (unfold atm_option; read_fields; lra).
  assert (H4 : 0 < buyPrice atm_option * conversionFactor atm_option)
    by (unfold atm_option; read_fields; lra).
  assert (H5 : 0 < 1) by lra.
  assert (H6 : 1 < 2) by lra.
  assert (H7 : 2 * log_moneyness atm_option <= 1 * 1 * expiry atm_option)
    by (rewrite atm_log_moneyness; unfold atm_option; read_fields; lra).
  split; [repeat split; assumption |].
  exact (C3_price_increasing atm_option 1 2 H1 H2 H3 H4 H5 H6 H7).
Defined.

(** C4, as stated, fails: for the sample option (every input positive, rates
    from the table) and precision 0.05, calibration returns a volatility at
    which the model price is more than 0.05 away from the observed price;
    and for the option whose price is consistent with the volatility 1, with
    precision 1, calibration returns 150.005, which is not within 1 of 1. *)
Lemma C4_counterexample :
  (exists self' vol,
     calculateVolatility 13 sample_option 0.05 = Returned (self', vol)
     /\ ~ Rabs (buyPrice sample_option - price_at sample_option vol) <= 0.05)
  /\ (price_at stuck_option 1 = buyPrice stuck_option /\ 0.01 < 1 /\ 1 < 300
      /\ exists self',
           calculateVolatility 1 stuck_option 1 = Returned (self', 150.005)
           /\ ~ Rabs (150.005 - 1) <= 1).
Proof.
  split.
  - destruct (upper_escape_run sample_option 0.05 sample_well_formed
                (fun v _ => sample_always_below v)) as (last & _ & _ & _ & _ & Hc).
    exists (finished last), (300 - last_width / 2).
    split; [exact Hc |].
    destruct (sample_always_below (300 - last_width / 2)) as [H1 H2].
    rewrite Rabs_pos_eq by lra. lra.
  - split; [exact stuck_price_at_1 |]. split; [lra |]. split; [lra |].
    destruct (first_pass_exit stuck_option 1 stuck_well_formed stuck_first_pass)
      as (last & _ & _ & _ & _ & Hc).
    exists (finished last). split; [exact Hc |].
    rewrite Rabs_pos_eq by lra. lra.
Qed.

(** C4, amended: whenever calibration returns a volatility, either the model
    price at that volatility is within the precision of the observed price,
    or the volatility is a boundary result: at most 0.1 (left through
    high <= 0.1) or at least 299.9 (left through low >= 299.9); and in exact
    arithmetic (floats are modelled by the reals), for positive time to
    expiry, strike and underlying and a positive precision it does return
    one. In double precision a precision below the spacing of the model
    prices may never be met. *)
Theorem C4_roundtrip_or_boundary (self : CurrencyOption) (precision : R) :
  (forall fuel self' vol,
     calculateVolatility fuel self precision = Returned (self', vol) ->
     Rabs (buyPrice self - price_at self vol) <= precision \/ vol <= 0.1 \/ 299.9 <= vol)
  /\ (0 < expiry self -> 0 < strike self -> 0 < underlying self -> 0 < precision ->
      exists fuel self' vol,
        calculateVolatility fuel self precision = Returned (self', vol)
        /\ (Rabs (buyPrice self - price_at self vol) <= precision
            \/ vol <= 0.1 \/ 299.9 <= vol)).
Proof.
  assert (Hpartial : forall fuel self' vol,
     calculateVolatility fuel self precision = Returned (self', vol) ->
     Rabs (buyPrice self - price_at self vol) <= precision \/ vol <= 0.1 \/ 299.9 <= vol).
  { intros fuel self' vol H.
    destruct (calculateVolatility_inv fuel self precision self' vol H)
      as (last & low & high & Hb & _ & ->).
    pose proof (bisection_returned _ _ _ _ _ _ Hb) as Hwf.
    destruct (bisection_exit_state fuel self self precision 0.01 300.0 _ Hwf
                (market_eq_refl self) ltac:(lra) ltac:(lra) Hb)
      as ((_ & Hv & _ & Hex) & Hlo & Hle).
    simpl in Hlo, Hle. unfold exit_condition in Hex.
    destruct Hex as [Hex | [Hex | Hex]]; [left; exact Hex | right; left | right; right];
      rewrite Hv; lra. }
  split; [exact Hpartial |].
  intros HT Hk Hu Hp.
  destruct (calculateVolatility_terminates self precision HT Hk Hu Hp)
    as (fuel & self' & vol & Hc).
  exists fuel, self', vol. split; [exact Hc | exact (Hpartial fuel self' vol Hc)].
Qed.

Lemma C4_roundtrip_or_boundary_witness :
  (0 < expiry cheap_option /\ 0 < strike cheap_option /\ 0 < underlying cheap_option
   /\ 0 < 0.05)
  /\ exists fuel self' vol,
       calculateVolatility fuel cheap_option 0.05 = Returned (self', vol)
       /\ (Rabs (buyPrice cheap_option - price_at cheap_option vol) <= 0.05
           \/ vol <= 0.1 \/ 299.9 <= vol).
Proof.
  assert (H1 : 0 < expiry cheap_option)
    by (unfold cheap_option, sample_option; read_fields; lra).
  assert (H2 : 0 < strike cheap_option)
    by (unfold cheap_option, sample_option; read_fields; lra).
  assert (H3 : 0 < underlying cheap_option)
    by (unfold cheap_option, sample_option; read_fields; lra).
  assert (H4 : 0 < 0.05) by lra.
  split; [repeat split; assumption |].
  exact (proj2 (C4_roundtrip_or_boundary cheap_option 0.05) H1 H2 H3 H4).
Defined.

(** C5: whenever calibration returns, through the precision test or through
    an escape, the stored d2 equals d1 - volatility * sqrt(expiry), where d1
    and volatility are the values written by the pass of the loop that
    broke, and volatility is the returned value; and for positive time to
    expiry, strike and underlying and a positive precision it does return. *)
Theorem C5_d2_invariant (self : CurrencyOption) (precision : R) :
  (forall fuel self' vol,
     calculateVolatility fuel self precision = Returned (self', vol) ->
     calibrated precision self' vol)
  /\ (0 < expiry self -> 0 < strike self -> 0 < underlying self -> 0 < precision ->
      exists fuel self' vol,
        calculateVolatility fuel self precision = Returned (self', vol)
        /\ calibrated precision self' vol).
Proof.
  assert (Hpartial : forall fuel self' vol,
     calculateVolatility fuel self precision = Returned (self', vol) ->
     calibrated precision self' vol).
  { intros fuel self' vol H.
    destruct (calculateVolatility_inv fuel self precision self' vol H)
      as (last & low & high & Hb & -> & ->).
    split; [reflexivity |]. split; [reflexivity |].
    destruct (bisection_last_pass fuel self precision 0.01 300.0 last low high Hb)
      as [prev Hp].
    exists prev, last, low, high. auto. }
  split; [exact Hpartial |].
  intros HT Hk Hu Hp.
  destruct (calculateVolatility_terminates self precision HT Hk Hu Hp)
    as (fuel & self' & vol & Hc).
  exists fuel, self', vol. split; [exact Hc | exact (Hpartial fuel self' vol Hc)].
Qed.

Lemma C5_d2_invariant_witness :
  (0 < expiry sample_option /\ 0 < strike sample_option /\ 0 < underlying sample_option
   /\ 0 < 0.05)
  /\ exists fuel self' vol,
       calculateVolatility fuel sample_option 0.05 = Returned (self', vol)
       /\ calibrated 0.05 self' vol.
Proof.
  assert (H1 : 0 < expiry sample_option) by (unfold sample_option; read_fields; lra).
  assert (H2 : 0 < strike sample_option) by (unfold sample_option; read_fields; lra).
  assert (H3 : 0 < underlying sample_option) by (unfold sample_option; read_fields; lra).
  assert (H4 : 0 < 0.05) by lra.
  split; [repeat split; assumption |].
  exact (proj2 (C5_d2_invariant sample_option 0.05) H1 H2 H3 H4).
Defined.

(** C6, as stated, fails: with a negative strike and a negative underlying
    the call raises nothing and returns a calibrated object. *)
Lemma C6_counterexample :
  strike negative_option <= 0 /\ underlying negative_option <= 0
  /\ exists self' vol,
       calculateVolatility 13 negative_option 0.05 = Returned (self', vol).
Proof.
  split; [unfold negative_option; read_fields; lra |].
  split; [unfold negative_option; read_fields; lra |].
  destruct (upper_escape_run negative_option 0.05 negative_well_formed
              (fun v _ => negative_always_below v)) as (last & _ & _ & _ & _ & Hc).
  exists (finished last), (300 - last_width / 2). exact Hc.
Qed.

(** C6, amended: the call validates nothing and has no errors of its own.
    With timeToExpiry <= 0, underlying <= 0 or strike <= 0 the first pass
    raises ZeroDivisionError when strike = 0; otherwise ValueError (from
    math.log) when underlying/strike <= 0; otherwise ValueError (from
    math.sqrt) when timeToExpiry < 0; otherwise ZeroDivisionError when
    timeToExpiry = 0; and when strike and underlying are both negative and
    timeToExpiry > 0 the d1 expression is defined and the call never
    raises. *)
Theorem C6_python_errors (fuel : nat) (self : CurrencyOption) (precision : R) :
  expiry self <= 0 \/ underlying self <= 0 \/ strike self <= 0 ->
  input_outcome fuel self precision.
Proof.
  intro Hbad. unfold input_outcome.
  destruct (Req_dec (strike self) 0) as [Hk | Hk].
  { left. split; [exact Hk |]. apply calculateVolatility_raises.
    now apply eval_d1_strike_zero. }
  right.
  destruct (Rle_dec (underlying self / strike self) 0) as [Hq | Hq].
  { left. split; [exact Hk |]. split; [exact Hq |]. apply calculateVolatility_raises.
    now apply eval_d1_log_domain. }
  right. apply Rnot_le_lt in Hq.
  destruct (Rtotal_order (expiry self) 0) as [HT | [HT | HT]].
  - left. repeat split; try assumption. apply calculateVolatility_raises.
    now apply eval_d1_sqrt_domain.
  - right; left. repeat split; try assumption. apply calculateVolatility_raises.
    now apply eval_d1_expired.
  - right; right.
    assert (Hsign : strike self < 0 /\ underlying self < 0).
    { destruct (Rtotal_order (strike self) 0) as [Hs | [Hs | Hs]]; [| contradiction |].
      - split; [exact Hs |].
        destruct (Rle_dec 0 (underlying self)) as [Hu | Hu]; [| lra].
        exfalso. unfold Rdiv in Hq.
        assert (Hi : / strike self < 0) by now apply Rinv_lt_0_compat.
        nra.
      - exfalso.
        assert (Hu : underlying self <= 0) by (destruct Hbad as [H | [H | H]]; lra).
        unfold Rdiv in Hq.
        assert (Hi : 0 < / strike self) by now apply Rinv_0_lt_compat.
        nra. }
    destruct Hsign as [Hs Hu].
    assert (Hwf : well_formed self) by (repeat split; assumption).
    repeat split; try assumption.
    intros fuel' e. now apply calculateVolatility_never_raises.
Qed.

Lemma C6_python_errors_witness :
  (expiry expired_option <= 0 \/ underlying expired_option <= 0
   \/ strike expired_option <= 0)
  /\ input_outcome 0 expired_option 0.05.
Proof.
  assert (H : expiry expired_option <= 0 \/ underlying expired_option <= 0
              \/ strike expired_option <= 0)
    by (left; unfold expired_option, sample_option; read_fields; lra).
  split; [exact H |].
  exact (C6_python_errors 0 expired_option 0.05 H).
Defined.

(** C7, as stated, fails: in "EUR/USD >1.1000  (3PM)", with two spaces
    before the last token, the second-to-last whitespace-separated token is
    ">1.1000", but the code hands the empty field between the two spaces to
    [float]. *)
Lemma C7_counterexample :
  spec_strike_token "EUR/USD >1.1000  (3PM)" = Some "1.1000"%string
  /\ (forall py_float, parse_strike py_float "EUR/USD >1.1000  (3PM)" = py_float ""%string)
  /\ ""%string <> "1.1000"%string.
Proof.
  split; [reflexivity |]. split; [intro py_float; reflexivity | discriminate].
Qed.

(** C7, amended: the fields of an identifier are what lies between its
    single space characters (two adjacent spaces enclose an empty field, and
    no other whitespace separates). For an identifier of at least two
    fields whose first field holds at least two codes joined by "/", lines
    32 to 36 of the constructor take the strike as [float] of the
    second-to-last field with every ">" removed (of the first field itself
    when there are only two), the codes from splitting the first field on
    "/", the conversion factor as 1/underlying, the domestic rate as the
    table entry of the first code and the foreign rate as that of the
    second. Once the strike has parsed, an underlying of 0 raises
    ZeroDivisionError before the table is read; for another underlying a
    code absent from the table raises KeyError of that code; and with a code
    absent nothing is returned. *)
Theorem C7_parse_single_space (py_float : string -> outcome R) (rateTable : dict R)
    (base quote : string) (more middle : list string) (lastField : string)
    (underlying : R) :
  Forall (fun f => has_char " " f = false)
    (String.concat "/" (base :: quote :: more) :: middle ++ [lastField]) ->
  Forall (fun c => has_char "/" c = false) (base :: quote :: more) ->
  let name := identifier (base :: quote :: more) middle lastField in
  let field := strike_field (base :: quote :: more) middle in
  parse py_float rateTable name underlying
  = (strike <- py_float (py_remove ">" field) ;;
     conversionFactor <- py_div 1 underlying ;;
     r_domestic <- dict_get rateTable base ;;
     r_foreign <- dict_get rateTable quote ;;
     Returned (mkContractTerms strike (base :: quote :: more) conversionFactor
                 r_domestic r_foreign))
  /\ (forall strike, py_float (py_remove ">" field) = Returned strike ->
      underlying = 0 ->
      parse py_float rateTable name underlying = Raised ZeroDivisionError)
  /\ (forall strike, py_float (py_remove ">" field) = Returned strike ->
      underlying <> 0 ->
      (forall v, dict_get rateTable base <> Returned v) ->
      parse py_float rateTable name underlying = Raised (KeyError base))
  /\ (forall strike r_domestic,
        py_float (py_remove ">" field) = Returned strike ->
        underlying <> 0 ->
        dict_get rateTable base = Returned r_domestic ->
        (forall v, dict_get rateTable quote <> Returned v) ->
        parse py_float rateTable name underlying = Raised (KeyError quote))
  /\ ((forall v, dict_get rateTable base <> Returned v)
      \/ (forall v, dict_get rateTable quote <> Returned v) ->
      forall terms, parse py_float rateTable name underlying <> Returned terms).
Proof.
  intros Hfree Hcodes name field.
  assert (Hparse : parse py_float rateTable name underlying
    = (strike <- py_float (py_remove ">" field) ;;
       conversionFactor <- py_div 1 underlying ;;
       r_domestic <- dict_get rateTable base ;;
       r_foreign <- dict_get rateTable quote ;;
       Returned (mkContractTerms strike (base :: quote :: more) conversionFactor
                   r_domestic r_foreign))).
  { unfold parse, name, field.
    rewrite parse_strike_identifier by exact Hfree.
    rewrite parse_countries_identifier by (try discriminate; assumption).
    destruct (py_float (py_remove ">" _)); reflexivity. }
  split; [exact Hparse |]. rewrite Hparse.
  split; [| split; [| split]].
  - intros strike Hs Hu. rewrite Hs. cbn [bind]. rewrite Hu, py_div_zero. reflexivity.
  - intros strike Hs Hu Hb. rewrite Hs. cbn [bind].
    rewrite py_div_returns by exact Hu. cbn [bind].
    destruct (dict_get_outcome rateTable base) as [[v Hv] | Hk];
      [exfalso; now apply (Hb v) | rewrite Hk; reflexivity].
  - intros strike rd Hs Hu Hb Hq. rewrite Hs. cbn [bind].
    rewrite py_div_returns by exact Hu. cbn [bind]. rewrite Hb. cbn [bind].
    destruct (dict_get_outcome rateTable quote) as [[v Hv] | Hk];
      [exfalso; now apply (Hq v) | rewrite Hk; reflexivity].
  - intros Habs terms.
    destruct (py_float (py_remove ">" field)) as [k | e |]; cbn [bind]; try discriminate.
    destruct (py_div 1 underlying) as [cf | e |]; cbn [bind]; try discriminate.
    destruct (dict_get rateTable base) as [rd | e |] eqn:Eb; cbn [bind]; try discriminate.
    destruct (dict_get rateTable quote) as [rf | e |] eqn:Eq; cbn [bind]; try discriminate.
    destruct Habs as [Hb | Hq]; [exfalso; now apply (Hb rd) | exfalso; now apply (Hq rf)].
Qed.

Lemma C7_parse_single_space_witness :
  (Forall (fun f => has_char " " f = false)
     (String.concat "/" ["EUR"%string; "USD"%string]
      :: [">1.1000"%string] ++ ["(3PM)"%string])
   /\ Forall (fun f => has_char " " f = false)
        (String.concat "/" ["EUR"%string; "USD"%string] :: [] ++ ["(3PM)"%string])
   /\ Forall (fun c => has_char "/" c = false) ["EUR"%string; "USD"%string])
  /\ parse (fun _ : string => Returned 1.1) riskFreeRates
       (identifier ["EUR"%string; "USD"%string] [">1.1000"%string] "(3PM)") 1.105
     = Returned (mkContractTerms 1.1 ["EUR"%string; "USD"%string] (1 / 1.105)
                   0.0256 0.0252)
  /\ parse (fun s : string => if String.eqb s "EUR/USD" then Raised ValueError
                              else Returned 1.1) riskFreeRates
       (identifier ["EUR"%string; "USD"%string] [] "(3PM)") 1.105
     = Raised ValueError.
Proof.
  assert (Hfree : Forall (fun f => has_char " " f = false)
            (String.concat "/" ["EUR"%string; "USD"%string]
             :: [">1.1000"%string] ++ ["(3PM)"%string]))
    by (repeat constructor).
  assert (Hfree2 : Forall (fun f => has_char " " f = false)
            (String.concat "/" ["EUR"%string; "USD"%string] :: [] ++ ["(3PM)"%string]))
    by (repeat constructor).
  assert (Hcodes : Forall (fun c => has_char "/" c = false) ["EUR"%string; "USD"%string])
    by (repeat constructor).
  split; [repeat split; assumption |].
  destruct (C7_parse_single_space (fun _ : string => Returned 1.1) riskFreeRates
              "EUR" "USD" [] [">1.1000"%string] "(3PM)" 1.105 Hfree Hcodes) as [H _].
  destruct (C7_parse_single_space
              (fun s : string => if String.eqb s "EUR/USD" then Raised ValueError
                                 else Returned 1.1) riskFreeRates
              "EUR" "USD" [] [] "(3PM)" 1.105 Hfree2 Hcodes) as [H2 _].
  split.
  - rewrite H. cbn [bind]. rewrite py_div_returns by lra. reflexivity.
  - rewrite H2. reflexivity.
Defined.


(** C9: delta on the short side is -exp(-r_foreign*T) * Phi(-d1), and
    delta(long) - delta(short) = exp(-r_foreign*T) * (Phi(d1) + Phi(-d1))
    = exp(-r_foreign*T). *)
Theorem C9_delta_symmetry (self : CurrencyOption) :
  delta self true = - exp (- r_foreign self * expiry self) * norm_cdf (- d1 self)
  /\ delta self false - delta self true
     = exp (- r_foreign self * expiry self) * (norm_cdf (d1 self) + norm_cdf (- d1 self))
  /\ delta self false - delta self true = exp (- r_foreign self * expiry self).
Proof.
  unfold delta. split; [reflexivity |]. split; [ring |].
  pose proof (norm_cdf_symmetric (d1 self)) as Hs.
  replace (exp (- r_foreign self * expiry self) * norm_cdf (d1 self) -
           - exp (- r_foreign self * expiry self) * norm_cdf (- d1 self))
    with (exp (- r_foreign self * expiry self) * (norm_cdf (d1 self) + norm_cdf (- d1 self)))
    by ring.
  rewrite Hs. ring.
Qed.

(** C10: with T > 0, strike > 0, underlying > 1, r_domestic >= 0,
    buyPrice > 0, conversionFactor = 1/underlying and
    precision < buyPrice * (1 - 1/underlying), the model price at every
    positive volatility is strictly below buyPrice and farther from it than
    the precision, so the loop only raises low: it breaks at the thirteenth
    pass through low >= 299.9, with the bracket (300 - 299.99/2^12, 300),
    and returns the volatility 300 - 299.99/2^13 >= 299.9. *)
Theorem C10_always_upper_escape (self : CurrencyOption) (precision : R) :
  0 < expiry self -> 0 < strike self -> 1 < underlying self ->
  0 <= r_domestic self -> 0 < buyPrice self ->
  conversionFactor self = 1 / underlying self ->
  precision < buyPrice self * (1 - 1 / underlying self) ->
  (forall v, 0 < v ->
     price_at self v < buyPrice self
     /\ precision < Rabs (buyPrice self - price_at self v))
  /\ exists last,
       bisection 13 self precision 0.01 300.0
       = Returned (last, (300 - 299.99 / 2 ^ 12, 300))
       /\ 300 - 299.99 / 2 ^ 12 >= 299.9
       /\ calculateVolatility 13 self precision
          = Returned (finished last, 300 - 299.99 / 2 ^ 13)
       /\ 300 - 299.99 / 2 ^ 13 >= 299.9.
Proof.
  intros HT Hk Hu Hr Hb Hcf Hp.
  assert (Hwf : well_formed self) by (apply positive_well_formed; lra).
  assert (Hinv : 0 < 1 / underlying self < 1).
  { split; [apply Rdiv_lt_0_compat; lra |].
    apply (Rmult_lt_reg_r (underlying self)); [lra |].
    unfold Rdiv. rewrite Rmult_assoc, Rinv_l by lra. lra. }
  assert (Hbelow : forall v, 0 < v ->
            price_at self v < buyPrice self
            /\ precision < buyPrice self - price_at self v).
  { intros v _.
    assert (Hpr : 0 < price_at self v < buyPrice self * conversionFactor self).
    { apply price_at_bounds; [exact Hb | rewrite Hcf; lra | nra]. }
    rewrite Hcf in Hpr. split; nra. }
  split.
  - intros v Hv. destruct (Hbelow v Hv) as [H1 H2].
    split; [exact H1 |]. rewrite Rabs_pos_eq by lra. exact H2.
  - destruct (upper_escape_run self precision Hwf Hbelow) as (last & _ & _ & _ & Hbis & Hc).
    exists last. unfold last_width in *.
    replace (300 - 299.99 / 2 ^ 12 / 2) with (300 - 299.99 / 2 ^ 13) in Hc by lra.
    repeat split; try assumption; lra.
Qed.

Lemma C10_always_upper_escape_witness :
  (0 < expiry sample_option /\ 0 < strike sample_option /\ 1 < underlying sample_option
   /\ 0 <= r_domestic sample_option /\ 0 < buyPrice sample_option
   /\ conversionFactor sample_option = 1 / underlying sample_option
   /\ 0.05 < buyPrice sample_option * (1 - 1 / underlying sample_option))
  /\ exists last,
       bisection 13 sample_option 0.05 0.01 300.0
       = Returned (last, (300 - 299.99 / 2 ^ 12, 300))
       /\ calculateVolatility 13 sample_option 0.05
          = Returned (finished last, 300 - 299.99 / 2 ^ 13).
Proof.
  assert (H1 : 0 < expiry sample_option) by (simpl; lra).
  assert (H2 : 0 < strike sample_option) by (simpl; lra).
  assert (H3 : 1 < underlying sample_option) by (simpl; lra).
  assert (H4 : 0 <= r_domestic sample_option) by (simpl; lra).
  assert (H5 : 0 < buyPrice sample_option) by (simpl; lra).
  assert (H6 : conversionFactor sample_option = 1 / underlying sample_option)
    by reflexivity.
  assert (H7 : 0.05 < buyPrice sample_option * (1 - 1 / underlying sample_option))
    by (simpl; lra).
  split; [repeat split; assumption |].
  destruct (C10_always_upper_escape sample_option 0.05 H1 H2 H3 H4 H5 H6 H7)
    as (_ & last & Hb & _ & Hc & _).
  exists last. split; assumption.
Defined.

(** * Further properties of [calculateVolatility] *)

Lemma untouched_refl (a : CurrencyOption) : untouched a a.
Proof. repeat split. Qed.

Lemma untouched_trans (a b c : CurrencyOption) :
  untouched a b -> untouched b c -> untouched a c.
Proof.
  unfold untouched. intros (Hs & ? & ? & ? & ?) (Hs' & ? & ? & ? & ?).
  split; [exact (same_contract_trans a b c Hs Hs') |].
  repeat split; congruence.
Qed.

Lemma untouched_sym (a b : CurrencyOption) : untouched a b -> untouched b a.
Proof.
  unfold untouched, same_contract.
  intros ((?&?&?&?&?&?&?&?&?&?) & ? & ? & ? & ?). repeat split; congruence.
Qed.

Lemma untouched_market_eq (a b : CurrencyOption) : untouched a b -> market_eq a b.
Proof.
  unfold untouched, same_contract, market_eq.
  intros ((?&?&?&?&?&?&?&?&?&?) & _). repeat split; assumption.
Qed.

Lemma CurrencyOption_ext (a b : CurrencyOption) :
  untouched a b -> same_model a b -> a = b.
Proof.
  destruct a, b. unfold untouched, same_contract, same_model. read_fields.
  intros ((?&?&?&?&?&?&?&?&?&?) & ? & ? & ? & ?) (?&?&?&?&?&?).
  subst. reflexivity.
Qed.

Lemma loop_body_untouched (self : CurrencyOption) (precision low high : R) s c :
  loop_body self precision low high = Returned (s, c) -> untouched self s.
Proof.
  unfold loop_body.
  destruct (eval_d1 (set_volatility self ((high + low) / 2.0))) as [d | e |];
    cbn [bind]; try discriminate.
  read_fields.
  destruct (_ || _ || _); [intro H; inversion H; repeat split |].
  destruct (Rltb _ _); [intro H; inversion H; repeat split |].
  destruct (Rltb _ _); intro H; inversion H; repeat split.
Qed.

Lemma bisection_untouched (fuel : nat) :
  forall (self : CurrencyOption) (precision low high : R) r,
    bisection fuel self precision low high = Returned r -> untouched self (fst r).
Proof.
  induction fuel as [| fuel IH]; intros self precision low high r H; [discriminate |].
  cbn [bisection] in H.
  destruct (loop_body self precision low high) as [[s c] | e |] eqn:Hb; cbn [bind] in H;
    try discriminate.
  apply loop_body_untouched in Hb.
  destruct c as [| low' high']; simpl in H.
  - inversion H; subst. exact Hb.
  - eapply untouched_trans; [exact Hb | eapply IH; exact H].
Qed.

Lemma finished_untouched (self : CurrencyOption) : untouched self (finished self).
Proof. repeat split. Qed.

Lemma calculateVolatility_untouched (fuel : nat) (self : CurrencyOption)
    (precision : R) self' vol :
  calculateVolatility fuel self precision = Returned (self', vol) ->
  untouched self self'.
Proof.
  intro H.
  destruct (calculateVolatility_inv fuel self precision self' vol H)
    as (last & low & high & Hb & -> & _).
  apply bisection_untouched in Hb. simpl in Hb.
  eapply untouched_trans; [exact Hb | apply finished_untouched].
Qed.

(** The bracket stays inside [0.01, 300] and never collapses. *)
Lemma bisection_bracket (fuel : nat) :
  forall (self : CurrencyOption) (precision low high : R) last l h,
    0.01 <= low -> low < high -> high <= 300 ->
    bisection fuel self precision low high = Returned (last, (l, h)) ->
    0.01 <= l /\ l < h /\ h <= 300 /\ volatility last = (h + l) / 2.
Proof.
  induction fuel as [| fuel IH]; intros self precision low high last l h Hl Hlh Hh H;
    [discriminate |].
  assert (Hwf : well_formed self) by (eapply bisection_returned; exact H).
  destruct (bisection_unfold fuel self precision low high Hwf ltac:(lra))
    as (self' & Hm & Hv & Hd & Hstep).
  rewrite Hstep in H. clear Hstep.
  destruct (next_ctl_cases self precision low high)
    as [[_ Hc] | [(_ & _ & Hc) | [(_ & _ & Hc) | (_ & _ & Hc)]]];
    cbv zeta in Hc; rewrite Hc in H.
  - inversion H; subst. repeat split; lra.
  - apply (fun A B C => IH self' precision _ _ last l h A B C H); lra.
  - apply (fun A B C => IH self' precision _ _ last l h A B C H); lra.
  - apply (fun A B C => IH self' precision _ _ last l h A B C H); lra.
Qed.

Lemma next_ctl_market_eq (a b : CurrencyOption) (precision low high : R) :
  market_eq a b -> next_ctl a precision low high = next_ctl b precision low high.
Proof.
  intro Hm. unfold next_ctl.
  rewrite (price_at_market_eq a b _ Hm).
  destruct Hm as (Hb & _). rewrite Hb. reflexivity.
Qed.

Lemma market_eq_sym (a b : CurrencyOption) : market_eq a b -> market_eq b a.
Proof.
  unfold market_eq. intros (?&?&?&?&?&?&?). repeat split; congruence.
Qed.

(** The loop reads nothing but the market fields. *)
Lemma bisection_market_eq (fuel : nat) :
  forall (a b : CurrencyOption) (precision low high : R) last l h,
    market_eq a b -> 0 < low -> low <= high ->
    bisection fuel a precision low high = Returned (last, (l, h)) ->
    exists last',
      bisection fuel b precision low high = Returned (last', (l, h))
      /\ volatility last' = volatility last /\ d1 last' = d1 last
      /\ market_eq last last'.
Proof.
  induction fuel as [| fuel IH]; intros a b precision low high last l h Hm Hl Hlh H;
    [discriminate |].
  assert (Hwa : well_formed a) by (eapply bisection_returned; exact H).
  assert (Hwb : well_formed b) by (eapply well_formed_market_eq; eassumption).
  destruct (bisection_unfold fuel a precision low high Hwa ltac:(lra))
    as (a' & Hma & Hva & Hda & Hsa).
  destruct (bisection_unfold fuel b precision low high Hwb ltac:(lra))
    as (b' & Hmb & Hvb & Hdb & Hsb).
  rewrite Hsa in H. rewrite Hsb. clear Hsa Hsb.
  rewrite <- (next_ctl_market_eq a b precision low high Hm).
  assert (Hab : market_eq a' b').
  { eapply market_eq_trans; [apply market_eq_sym; exact Hma |].
    eapply market_eq_trans; [exact Hm | exact Hmb]. }
  destruct (next_ctl_cases a precision low high)
    as [[_ Hc] | [(_ & _ & Hc) | [(_ & _ & Hc) | (_ & _ & Hc)]]];
    cbv zeta in Hc; rewrite Hc in H |- *.
  - inversion H; subst. exists b'. repeat split; try congruence; try apply Hab.
    destruct Hm as (?&?&?&?&?&?&?). congruence.
  - apply (fun A B => IH a' b' precision _ _ last l h Hab A B H); lra.
  - apply (fun A B => IH a' b' precision _ _ last l h Hab A B H); lra.
  - apply (fun A B => IH a' b' precision _ _ last l h Hab A B H); lra.
Qed.

Lemma calculateVolatility_market_eq (fuel : nat) (a b : CurrencyOption) (precision : R)
    a' vol :
  market_eq a b ->
  calculateVolatility fuel a precision = Returned (a', vol) ->
  exists b', calculateVolatility fuel b precision = Returned (b', vol)
             /\ same_model a' b'.
Proof.
  intros Hm H.
  destruct (calculateVolatility_inv fuel a precision a' vol H)
    as (last & low & high & Hb & -> & ->).
  destruct (bisection_market_eq fuel a b precision 0.01 300.0 last low high Hm
              ltac:(lra) ltac:(lra) Hb) as (last' & Hb' & Hv & Hd & Hl).
  assert (HT : expiry last' = expiry last).
  { destruct Hl as (_ & HT & _). symmetry. exact HT. }
  assert (Hwf : well_formed last').
  { eapply well_formed_market_eq; [exact Hl |].
    eapply well_formed_market_eq;
      [| eapply bisection_returned; exact Hb].
    destruct (bisection_exit_state fuel a a precision 0.01 300.0 _
                (bisection_returned _ _ _ _ _ _ Hb) (market_eq_refl a)
                ltac:(lra) ltac:(lra) Hb) as [(Hma & _) _].
    exact Hma. }
  exists (finished last'). split.
  - rewrite <- Hv.
    apply (calculateVolatility_returns fuel b precision last' low high Hb').
    destruct Hwf as [HT' _]. lra.
  - unfold same_model, finished. read_fields. rewrite Hv, Hd, HT.
    repeat split; reflexivity.
Qed.

Lemma calculateVolatility_model (fuel : nat) (self : CurrencyOption) (precision : R)
    self' vol :
  calculateVolatility fuel self precision = Returned (self', vol) ->
  0.01 < vol < 300
  /\ volatility self' = vol
  /\ d1 self' = gk_d1 (underlying self) (strike self) (r_domestic self)
                  (r_foreign self) (expiry self) vol
  /\ d2 self' = d1 self' - vol * sqrt (expiry self)
  /\ d1Squared self' = d1 self' * d1 self'
  /\ d1d2 self' = d1 self' * d2 self'
  /\ d2Squared self' = d2 self' * d2 self'.
Proof.
  intro H.
  destruct (calculateVolatility_inv fuel self precision self' vol H)
    as (last & low & high & Hb & -> & ->).
  assert (Hwf : well_formed self) by (eapply bisection_returned; exact Hb).
  destruct (bisection_bracket fuel self precision 0.01 300.0 last low high
              ltac:(lra) ltac:(lra) ltac:(lra) Hb) as (Hl & Hlh & Hh & Hv).
  destruct (bisection_exit_state fuel self self precision 0.01 300.0 _ Hwf
              (market_eq_refl self) ltac:(lra) ltac:(lra) Hb)
    as [(Hm & Hv' & Hd & _) _].
  assert (HT : expiry last = expiry self).
  { destruct Hm as (_ & HT & _). symmetry. exact HT. }
  unfold finished. read_fields. rewrite HT, Hd, Hv'.
  repeat split; try reflexivity; lra.
Qed.

(** X1: the volatility [calculateVolatility] returns is the one it stores,
    and it lies strictly between the initial bounds 0.01 and 300, whatever
    the inputs and the precision; and for positive time to expiry, strike and
    underlying and a positive precision the call does return such a value. *)
Theorem calibration_volatility_range (self : CurrencyOption) (precision : R) :
  (forall fuel self' vol,
     calculateVolatility fuel self precision = Returned (self', vol) ->
     0.01 < vol < 300 /\ volatility self' = vol)
  /\ (0 < expiry self -> 0 < strike self -> 0 < underlying self -> 0 < precision ->
      exists fuel self' vol,
        calculateVolatility fuel self precision = Returned (self', vol)
        /\ 0.01 < vol < 300 /\ volatility self' = vol).
Proof.
  assert (Hpartial : forall fuel self' vol,
     calculateVolatility fuel self precision = Returned (self', vol) ->
     0.01 < vol < 300 /\ volatility self' = vol).
  { intros fuel self' vol H.
    destruct (calculateVolatility_model fuel self precision self' vol H)
      as (Hr & Hv & _).
    split; assumption. }
  split; [exact Hpartial |].
  intros HT Hk Hu Hp.
  destruct (calculateVolatility_terminates self precision HT Hk Hu Hp)
    as (fuel & self' & vol & Hc).
  exists fuel, self', vol. split; [exact Hc | exact (Hpartial fuel self' vol Hc)].
Qed.

Lemma calibration_volatility_range_witness :
  (0 < expiry sample_option /\ 0 < strike sample_option /\ 0 < underlying sample_option
   /\ 0 < 0.05)
  /\ exists fuel self' vol,
       calculateVolatility fuel sample_option 0.05 = Returned (self', vol)
       /\ 0.01 < vol < 300 /\ volatility self' = vol.
Proof.
  assert (H1 : 0 < expiry sample_option) by (unfold sample_option; read_fields; lra).
  assert (H2 : 0 < strike sample_option) by (unfold sample_option; read_fields; lra).
  assert (H3 : 0 < underlying sample_option) by (unfold sample_option; read_fields; lra).
  assert (H4 : 0 < 0.05) by lra.
  split; [repeat split; assumption |].
  exact (proj2 (calibration_volatility_range sample_option 0.05) H1 H2 H3 H4).
Defined.

(** X2: a returning call of [calculateVolatility] assigns only volatility,
    d1, d2, d1Squared, d1d2 and d2Squared: the name, both prices, both
    histories, the underlying and its history, the expiry, doExpiry, the
    strike, the currency codes, the conversion factor and both rates are
    those of the object it was called on. *)
Theorem calibration_frame (fuel : nat) (self : CurrencyOption) (precision : R)
    (self' : CurrencyOption) (vol : R) :
  calculateVolatility fuel self precision = Returned (self', vol) ->
  untouched self self'.
Proof.
  intro H.
  destruct (calculateVolatility_inv fuel self precision self' vol H)
    as (last & low & high & Hb & -> & _).
  apply bisection_untouched in Hb. cbn [fst] in Hb.
  eapply untouched_trans; [exact Hb | apply finished_untouched].
Qed.

Lemma calibration_frame_witness :
  exists self' vol,
    calculateVolatility 1 cheap_option 0.05 = Returned (self', vol)
    /\ untouched cheap_option self'.
Proof.
  destruct cheap_option_run as (last & H & _).
  exists (finished last), 150.005.
  split; [exact H | exact (calibration_frame 1 cheap_option 0.05 _ _ H)].
Defined.

(** X3: after a returning call the stored d1 is the Garman-Kohlhagen d1 of
    the object's underlying, strike, rates and expiry at the returned
    volatility, d2 is d1 - volatility * sqrt(expiry), and the three cached
    products are d1*d1, d1*d2 and d2*d2 of the stored d1 and d2. *)
Theorem calibration_model_state (fuel : nat) (self : CurrencyOption) (precision : R)
    (self' : CurrencyOption) (vol : R) :
  calculateVolatility fuel self precision = Returned (self', vol) ->
  d1 self' = gk_d1 (underlying self) (strike self) (r_domestic self)
               (r_foreign self) (expiry self) vol
  /\ d2 self' = d1 self' - vol * sqrt (expiry self)
  /\ d1Squared self' = d1 self' * d1 self'
  /\ d1d2 self' = d1 self' * d2 self'
  /\ d2Squared self' = d2 self' * d2 self'.
Proof.
  intro H.
  destruct (calculateVolatility_model fuel self precision self' vol H)
    as (_ & _ & Hrest).
  exact Hrest.
Qed.

Lemma calibration_model_state_witness :
  exists self' vol,
    calculateVolatility 1 cheap_option 0.05 = Returned (self', vol)
    /\ d1 self' = gk_d1 (underlying cheap_option) (strike cheap_option)
                    (r_domestic cheap_option) (r_foreign cheap_option)
                    (expiry cheap_option) vol
    /\ d2 self' = d1 self' - vol * sqrt (expiry cheap_option)
    /\ d1Squared self' = d1 self' * d1 self'
    /\ d1d2 self' = d1 self' * d2 self'
    /\ d2Squared self' = d2 self' * d2 self'.
Proof.
  destruct cheap_option_run as (last & H & _).
  exists (finished last), 150.005.
  split; [exact H | exact (calibration_model_state 1 cheap_option 0.05 _ _ H)].
Defined.

(** X4: [calculateVolatility] reads only the buy price, the expiry, the
    underlying, the strike, the conversion factor and the two rates: called
    on two objects that agree on these seven attributes (and may differ in
    the sell price, the name, the histories and the previous model state),
    it returns the same volatility and stores the same d1, d2 and products. *)
Theorem calibration_reads_market_only (fuel : nat) (a b : CurrencyOption)
    (precision : R) (a' : CurrencyOption) (vol : R) :
  market_eq a b ->
  calculateVolatility fuel a precision = Returned (a', vol) ->
  exists b', calculateVolatility fuel b precision = Returned (b', vol)
             /\ same_model a' b'.
Proof.
  intros Hm H.
  destruct (calculateVolatility_inv fuel a precision a' vol H)
    as (last & low & high & Hb & -> & ->).
  destruct (bisection_market_eq fuel a b precision 0.01 300.0 last low high Hm
              ltac:(lra) ltac:(lra) Hb) as (last' & Hb' & Hv & Hd & Hl).
  assert (HT : expiry last' = expiry last).
  { destruct Hl as (_ & HT & _). symmetry. exact HT. }
  assert (Hwf : well_formed last').
  { eapply well_formed_market_eq; [exact Hl |].
    eapply well_formed_market_eq;
      [| eapply bisection_returned; exact Hb].
    destruct (bisection_exit_state fuel a a precision 0.01 300.0 _
                (bisection_returned _ _ _ _ _ _ Hb) (market_eq_refl a)
                ltac:(lra) ltac:(lra) Hb) as [(Hma & _) _].
    exact Hma. }
  exists (finished last'). split.
  - rewrite <- Hv.
    apply (calculateVolatility_returns fuel b precision last' low high Hb').
    destruct Hwf as [HT' _]. lra.
  - unfold same_model, finished. read_fields. rewrite Hv, Hd, HT.
    repeat split; reflexivity.
Qed.

Lemma calibration_reads_market_only_witness :
  market_eq cheap_option (set_sellPrice cheap_option 0)
  /\ exists a' vol,
       calculateVolatility 1 cheap_option 0.05 = Returned (a', vol)
       /\ exists b',
            calculateVolatility 1 (set_sellPrice cheap_option 0) 0.05
            = Returned (b', vol)
            /\ same_model a' b'.
Proof.
  assert (Hm : market_eq cheap_option (set_sellPrice cheap_option 0))
    by (repeat split).
  split; [exact Hm |].
  destruct cheap_option_run as (last & H & _).
  exists (finished last), 150.005.
  split; [exact H |].
  exact (calibration_reads_market_only 1 cheap_option (set_sellPrice cheap_option 0)
           0.05 _ _ Hm H).
Defined.

(** X5: recalibrating changes nothing: when [calculateVolatility] returns a
    volatility and leaves an object, calling it again on that object with the
    same precision returns the same volatility and leaves that same object. *)
Theorem calibration_idempotent (fuel : nat) (self : CurrencyOption) (precision : R)
    (self' : CurrencyOption) (vol : R) :
  calculateVolatility fuel self precision = Returned (self', vol) ->
  calculateVolatility fuel self' precision = Returned (self', vol).
Proof.
  intro H.
  assert (Hu : untouched self self') by (eapply calculateVolatility_untouched; exact H).
  destruct (calculateVolatility_market_eq fuel self self' precision self' vol
              (untouched_market_eq _ _ Hu) H) as (s'' & H' & Hmod).
  assert (Hu' : untouched self' s'')
    by (eapply calculateVolatility_untouched; exact H').
  rewrite <- (CurrencyOption_ext self' s'' Hu' Hmod) in H'. exact H'.
Qed.

Lemma calibration_idempotent_witness :
  exists self' vol,
    calculateVolatility 1 cheap_option 0.05 = Returned (self', vol)
    /\ calculateVolatility 1 self' 0.05 = Returned (self', vol).
Proof.
  destruct cheap_option_run as (last & H & _).
  exists (finished last), 150.005.
  split; [exact H | exact (calibration_idempotent 1 cheap_option 0.05 _ _ H)].
Defined.

(** * The Greeks *)

Lemma TWOPI_pos : 0 < TWOPI.
Proof. unfold TWOPI. generalize PI_RGT_0. lra. Qed.

Lemma sqrt_TWOPI_pos : 0 < sqrt TWOPI.
Proof. apply sqrt_lt_R0, TWOPI_pos. Qed.

Lemma greek_exp_pos (self : CurrencyOption) : 0 < greek_exp self.
Proof. apply exp_pos. Qed.

Lemma at_market_run (self : CurrencyOption) (u vol : R) :
  well_formed (set_underlying self u) -> vol <> 0 ->
  (d <- eval_d1 (set_volatility (set_underlying self u) vol) ;;
   finish (set_d1 (set_volatility (set_underlying self u) vol) d))
  = Returned (at_market self u vol).
Proof.
  intros Hwf Hv.
  rewrite eval_d1_returns; [| exact Hwf | exact Hv]. cbn [bind].
  rewrite finish_returns; [reflexivity |].
  destruct Hwf as [HT _]. read_fields. read_fields. lra.
Qed.

Lemma at_market_calibrated (fuel : nat) (self : CurrencyOption) (precision : R)
    self' vol :
  calculateVolatility fuel self precision = Returned (self', vol) ->
  self' = at_market self (underlying self) vol.
Proof.
  intro H.
  destruct (calculateVolatility_model fuel self precision self' vol H)
    as (_ & Hv & Hd1 & Hd2 & Hs1 & Hs2 & Hs3).
  apply CurrencyOption_ext.
  - eapply untouched_trans; [apply untouched_sym, (calculateVolatility_untouched _ _ _ _ _ H) |].
    destruct self; repeat split.
  - unfold same_model, at_market, finished. read_fields.
    rewrite Hs3, Hs2, Hs1, Hd2, Hd1, Hv. repeat split; reflexivity.
Qed.

Lemma calibrated_greeks_defined (fuel : nat) (self : CurrencyOption) (precision : R)
    self' vol :
  calculateVolatility fuel self precision = Returned (self', vol) ->
  greeks_defined self' /\ 0 < underlying self' / strike self'.
Proof.
  intro H.
  destruct (calculateVolatility_model fuel self precision self' vol H)
    as (Hr & Hv & _).
  destruct (calculateVolatility_inv fuel self precision self' vol H)
    as (last & low & high & Hb & _ & _).
  assert (Hwf : well_formed self) by (eapply bisection_returned; exact Hb).
  destruct (calculateVolatility_untouched _ _ _ _ _ H)
    as ((_ & _ & _ & HT & Hu & Hk & _) & _).
  destruct Hwf as (HT' & Hk' & Huk).
  unfold greeks_defined. rewrite <- HT, <- Hu, <- Hk, Hv.
  repeat split; try assumption; try lra.
  intro E. rewrite E in Huk. unfold Rdiv in Huk. rewrite Rmult_0_l in Huk. lra.
Qed.

(** The values of the Greeks where they are defined. *)
Lemma sqrt_TWOPI_T_pos (T : R) : 0 < T -> 0 < sqrt (TWOPI * T).
Proof. intro H. apply sqrt_lt_R0, Rmult_lt_0_compat; [apply TWOPI_pos | exact H]. Qed.

Lemma leverage_value (self : CurrencyOption) (short : bool) :
  strike self <> 0 ->
  leverage self short = Returned (delta self short * (underlying self / strike self)).
Proof.
  intro Hk. unfold leverage, delta.
  destruct short; rewrite py_div_returns by exact Hk; reflexivity.
Qed.

Lemma theta_value (self : CurrencyOption) (short : bool) :
  0 < expiry self ->
  theta self short
  = Returned
      (- greek_exp self * underlying self * volatility self
         / (2 * sqrt (TWOPI * expiry self))
       + (if short
          then - (r_foreign self * exp (- r_foreign self * expiry self)
                  * norm_cdf (- d1 self))
               + r_domestic self * exp (r_domestic self * expiry self) * strike self
                 * norm_cdf (- d2 self)
          else r_foreign self * exp (- r_foreign self * expiry self)
               * norm_cdf (d1 self)
               - r_domestic self * exp (r_domestic self * expiry self) * strike self
                 * norm_cdf (d2 self))).
Proof.
  intro HT. unfold theta.
  assert (Hs := sqrt_TWOPI_T_pos _ HT).
  rewrite py_sqrt_returns by (generalize TWOPI_pos; nra). cbn [bind].
  rewrite py_div_returns by lra. cbn [bind].
  destruct short; f_equal; ring.
Qed.

Lemma vega_value (self : CurrencyOption) :
  0 <= expiry self ->
  vega self = Returned (greek_exp self * underlying self * sqrt (expiry self / TWOPI)).
Proof.
  intro HT. unfold vega.
  rewrite py_div_returns by (generalize TWOPI_pos; lra). cbn [bind].
  rewrite py_sqrt_returns; [reflexivity |].
  apply Rmult_le_pos; [exact HT |]. left. apply Rinv_0_lt_compat, TWOPI_pos.
Qed.

Lemma gamma_value (self : CurrencyOption) :
  0 < expiry self -> underlying self <> 0 -> volatility self <> 0 ->
  gamma self
  = Returned (greek_exp self
              / (underlying self * volatility self * sqrt (TWOPI * expiry self))).
Proof.
  intros HT Hu Hv. unfold gamma.
  assert (Hs := sqrt_TWOPI_T_pos _ HT).
  rewrite py_sqrt_returns by (generalize TWOPI_pos; nra). cbn [bind].
  apply py_div_returns.
  repeat apply Rmult_integral_contrapositive_currified; try assumption. lra.
Qed.

Lemma vanna_value (self : CurrencyOption) :
  volatility self <> 0 ->
  vanna self
  = Returned (- greek_exp self * d2 self / (volatility self * sqrt TWOPI)).
Proof.
  intro Hv. unfold vanna.
  rewrite py_sqrt_returns by (generalize TWOPI_pos; lra). cbn [bind].
  apply py_div_returns.
  apply Rmult_integral_contrapositive_currified; [exact Hv |].
  generalize sqrt_TWOPI_pos; lra.
Qed.

Lemma vomma_value (self : CurrencyOption) :
  0 <= expiry self -> volatility self <> 0 ->
  vomma self
  = Returned (underlying self * greek_exp self * sqrt (expiry self) * d1d2 self
              / volatility self).
Proof.
  intros HT Hv. unfold vomma.
  rewrite py_sqrt_returns by exact HT. cbn [bind].
  apply py_div_returns. exact Hv.
Qed.

Lemma speed_value (self : CurrencyOption) :
  0 < expiry self -> underlying self <> 0 -> volatility self <> 0 ->
  speed self
  = Returned (- (greek_exp self
                 / (underlying self * volatility self * sqrt (TWOPI * expiry self))
                 / underlying self)
              * (1 + d1 self / (volatility self * sqrt (expiry self)))).
Proof.
  intros HT Hu Hv. unfold speed.
  assert (Hs := sqrt_TWOPI_T_pos _ HT).
  assert (Hs' : 0 < sqrt (expiry self)) by (apply sqrt_lt_R0; exact HT).
  rewrite py_sqrt_returns by (generalize TWOPI_pos; nra). cbn [bind].
  rewrite py_div_returns
    by (repeat apply Rmult_integral_contrapositive_currified; try assumption; lra).
  cbn [bind].
  rewrite py_div_returns by exact Hu. cbn [bind].
  rewrite py_sqrt_returns by lra. cbn [bind].
  rewrite py_div_returns
    by (apply Rmult_integral_contrapositive_currified; [assumption | lra]).
  reflexivity.
Qed.

Lemma zomma_value (self : CurrencyOption) :
  0 < expiry self -> underlying self <> 0 -> volatility self <> 0 ->
  zomma self
  = Returned (greek_exp self
              / (underlying self * volatility self * sqrt (TWOPI * expiry self))
              * ((d1d2 self - 1) / volatility self)).
Proof.
  intros HT Hu Hv. unfold zomma.
  assert (Hs := sqrt_TWOPI_T_pos _ HT).
  rewrite py_sqrt_returns by (generalize TWOPI_pos; nra). cbn [bind].
  rewrite py_div_returns
    by (repeat apply Rmult_integral_contrapositive_currified; try assumption; lra).
  cbn [bind].
  rewrite py_div_returns by exact Hv. reflexivity.
Qed.

Lemma ultima_value (self : CurrencyOption) :
  0 <= expiry self -> volatility self <> 0 ->
  ultima self
  = Returned (- greek_exp self * underlying self * sqrt (expiry self / TWOPI)
              / (volatility self * volatility self)
              * (d1d2 self * (1 - d1d2 self) + d1Squared self + d2Squared self)).
Proof.
  intros HT Hv. unfold ultima.
  rewrite py_div_returns by (generalize TWOPI_pos; lra). cbn [bind].
  rewrite py_sqrt_returns
    by (apply Rmult_le_pos; [exact HT | left; apply Rinv_0_lt_compat, TWOPI_pos]).
  cbn [bind].
  rewrite py_div_returns
    by (apply Rmult_integral_contrapositive_currified; assumption).
  reflexivity.
Qed.

(** X6: when r_foreign * expiry >= 0, [delta()] lies between 0 and 1 and
    [delta(short=True)] between -1 and 0, whatever d1 is. The bounds are
    not strict: in double precision [norm.cdf] reaches 0 and 1. *)
Theorem delta_sign_and_bounds (self : CurrencyOption) :
  0 <= r_foreign self * expiry self ->
  0 <= delta self false <= 1 /\ -1 <= delta self true <= 0.
Proof.
  intro Hr. unfold delta.
  destruct (discount_le_1 _ _ Hr) as [He Hle].
  assert (Hp := norm_cdf_range (d1 self)).
  assert (Hn := norm_cdf_range (- d1 self)).
  set (e := exp (- r_foreign self * expiry self)) in *.
  set (p := norm_cdf (d1 self)) in *. set (n := norm_cdf (- d1 self)) in *.
  assert (H1 : 0 < e * p) by (apply Rmult_lt_0_compat; lra).
  assert (H2 : 0 < e * n) by (apply Rmult_lt_0_compat; lra).
  assert (H3 : e * p < e * 1) by (apply Rmult_lt_compat_l; lra).
  assert (H4 : e * n < e * 1) by (apply Rmult_lt_compat_l; lra).
  split; split; lra.
Qed.

Lemma delta_sign_and_bounds_witness :
  0 <= r_foreign sample_option * expiry sample_option
  /\ 0 <= delta sample_option false <= 1 /\ -1 <= delta sample_option true <= 0.
Proof.
  assert (H : 0 <= r_foreign sample_option * expiry sample_option)
    by (unfold sample_option; read_fields; lra).
  split; [exact H |].
  exact (delta_sign_and_bounds sample_option H).
Defined.

(** X7: the long and short variants of the Greeks differ by amounts that do
    not involve the normal distribution function: for a positive expiry and a
    non-zero strike, leverage() - leverage(short=True) is
    exp(-r_foreign*T) * underlying/strike, theta() - theta(short=True) is
    r_foreign*exp(-r_foreign*T) - r_domestic*exp(r_domestic*T)*strike, and
    rho() - rho(short=True) is T*exp(-r_domestic*T)*strike. *)
Theorem greeks_long_short_parity (self : CurrencyOption) :
  0 < expiry self -> strike self <> 0 ->
  exists ll ls tl ts,
    leverage self false = Returned ll /\ leverage self true = Returned ls
    /\ theta self false = Returned tl /\ theta self true = Returned ts
    /\ ll - ls = exp (- r_foreign self * expiry self)
                 * (underlying self / strike self)
    /\ tl - ts = r_foreign self * exp (- r_foreign self * expiry self)
                 - r_domestic self * exp (r_domestic self * expiry self) * strike self
    /\ rho self false - rho self true
       = expiry self * exp (- r_domestic self * expiry self) * strike self.
Proof.
  intros HT Hk.
  do 4 eexists.
  split; [apply leverage_value; exact Hk |].
  split; [apply leverage_value; exact Hk |].
  split; [apply theta_value; exact HT |].
  split; [apply theta_value; exact HT |].
  assert (S1 := norm_cdf_symmetric (d1 self)).
  assert (S2 := norm_cdf_symmetric (d2 self)).
  unfold delta, rho.
  set (p1 := norm_cdf (d1 self)) in *. set (n1 := norm_cdf (- d1 self)) in *.
  set (p2 := norm_cdf (d2 self)) in *. set (n2 := norm_cdf (- d2 self)) in *.
  replace n1 with (1 - p1) by lra. replace n2 with (1 - p2) by lra.
  repeat split; ring.
Qed.

Lemma greeks_long_short_parity_witness :
  (0 < expiry sample_option /\ strike sample_option <> 0)
  /\ exists ll ls tl ts,
       leverage sample_option false = Returned ll
       /\ leverage sample_option true = Returned ls
       /\ theta sample_option false = Returned tl
       /\ theta sample_option true = Returned ts
       /\ ll - ls = exp (- r_foreign sample_option * expiry sample_option)
                    * (underlying sample_option / strike sample_option)
       /\ tl - ts = r_foreign sample_option
                    * exp (- r_foreign sample_option * expiry sample_option)
                    - r_domestic sample_option
                      * exp (r_domestic sample_option * expiry sample_option)
                      * strike sample_option
       /\ rho sample_option false - rho sample_option true
          = expiry sample_option
            * exp (- r_domestic sample_option * expiry sample_option)
            * strike sample_option.
Proof.
  assert (H1 : 0 < expiry sample_option) by (unfold sample_option; read_fields; lra).
  assert (H2 : strike sample_option <> 0) by (unfold sample_option; read_fields; lra).
  split; [split; assumption |].
  exact (greeks_long_short_parity sample_option H1 H2).
Defined.

(** X8: on the object a returning call of [calculateVolatility] leaves, no
    Greek raises (floats being modelled by the reals): leverage and theta
    (long and short), vega, gamma, vanna, vomma, speed, zomma and ultima all
    return a value; vega and gamma never have the sign opposite to that of
    the underlying (in double precision both are 0 once [exp] underflows). *)
Theorem greeks_return_after_calibration (fuel : nat) (self : CurrencyOption)
    (precision : R) (self' : CurrencyOption) (vol : R) :
  calculateVolatility fuel self precision = Returned (self', vol) ->
  (forall short, exists l t,
      leverage self' short = Returned l /\ theta self' short = Returned t)
  /\ exists v g va vo sp zo ul,
       vega self' = Returned v /\ gamma self' = Returned g
       /\ vanna self' = Returned va /\ vomma self' = Returned vo
       /\ speed self' = Returned sp /\ zomma self' = Returned zo
       /\ ultima self' = Returned ul
       /\ 0 <= v * underlying self /\ 0 <= g * underlying self.
Proof.
  intro H.
  destruct (calibrated_greeks_defined fuel self precision self' vol H)
    as ((HT & Hu & Hk & Hv) & _).
  destruct (calculateVolatility_model fuel self precision self' vol H)
    as (Hr & Hvol & _).
  destruct (calculateVolatility_untouched _ _ _ _ _ H)
    as ((_ & _ & _ & _ & Hu' & _) & _).
  split.
  - intro short. do 2 eexists.
    split; [apply leverage_value; exact Hk | apply theta_value; exact HT].
  - do 7 eexists.
    split; [apply vega_value; lra |].
    split; [apply gamma_value; assumption |].
    split; [apply vanna_value; assumption |].
    split; [apply vomma_value; [lra | assumption] |].
    split; [apply speed_value; assumption |].
    split; [apply zomma_value; assumption |].
    split; [apply ultima_value; [lra | assumption] |].
    rewrite Hu'.
    assert (He := greek_exp_pos self').
    assert (Hs := sqrt_TWOPI_T_pos _ HT).
    assert (Hs' : 0 < sqrt (expiry self' / TWOPI)).
    { apply sqrt_lt_R0. apply Rdiv_lt_0_compat; [exact HT | apply TWOPI_pos]. }
    assert (Huu : 0 < underlying self' * underlying self') by nra.
    split.
    + replace (greek_exp self' * underlying self' * sqrt (expiry self' / TWOPI)
               * underlying self')
        with (greek_exp self' * sqrt (expiry self' / TWOPI)
              * (underlying self' * underlying self')) by ring.
      left. apply Rmult_lt_0_compat; [apply Rmult_lt_0_compat; assumption | exact Huu].
    + replace (greek_exp self'
               / (underlying self' * volatility self' * sqrt (TWOPI * expiry self'))
               * underlying self')
        with (greek_exp self' / (volatility self' * sqrt (TWOPI * expiry self')))
        by (field; repeat split; try assumption; lra).
      left. apply Rdiv_lt_0_compat; [exact He |].
      apply Rmult_lt_0_compat; [lra | exact Hs].
Qed.

Lemma greeks_return_after_calibration_witness :
  exists self' vol,
    calculateVolatility 1 cheap_option 0.05 = Returned (self', vol)
    /\ (forall short, exists l t,
          leverage self' short = Returned l /\ theta self' short = Returned t)
    /\ exists v g va vo sp zo ul,
         vega self' = Returned v /\ gamma self' = Returned g
         /\ vanna self' = Returned va /\ vomma self' = Returned vo
         /\ speed self' = Returned sp /\ zomma self' = Returned zo
         /\ ultima self' = Returned ul
         /\ 0 <= v * underlying cheap_option /\ 0 <= g * underlying cheap_option.
Proof.
  destruct cheap_option_run as (last & H & _).
  exists (finished last), 150.005.
  split; [exact H |].
  exact (greeks_return_after_calibration 1 cheap_option 0.05 _ _ H).
Defined.

(** X9: at expiry (expiry = 0) theta, gamma, speed and zomma raise
    ZeroDivisionError, whatever the other attributes, while vega returns 0
    and, for a non-zero volatility, so do vomma and ultima. *)
Theorem greeks_at_expiry (self : CurrencyOption) :
  expiry self = 0 ->
  (forall short, theta self short = Raised ZeroDivisionError)
  /\ gamma self = Raised ZeroDivisionError
  /\ speed self = Raised ZeroDivisionError
  /\ zomma self = Raised ZeroDivisionError
  /\ vega self = Returned 0
  /\ (volatility self <> 0 -> vomma self = Returned 0 /\ ultima self = Returned 0).
Proof.
  intro HT.
  assert (Hz : TWOPI * expiry self = 0) by (rewrite HT; ring).
  unfold theta, gamma, speed, zomma.
  rewrite Hz, (py_sqrt_returns 0) by lra. cbn [bind]. rewrite sqrt_0.
  rewrite !Rmult_0_r, !py_div_zero. cbn [bind].
  split; [intro short; reflexivity |].
  repeat (split; [reflexivity |]).
  split.
  - rewrite vega_value by lra. f_equal.
    rewrite HT. unfold Rdiv. rewrite Rmult_0_l, sqrt_0. ring.
  - intro Hv. rewrite vomma_value, ultima_value by (assumption || lra).
    rewrite HT. unfold Rdiv at 3. rewrite Rmult_0_l, sqrt_0.
    split; f_equal; field; exact Hv.
Qed.

Lemma greeks_at_expiry_witness :
  expiry (set_volatility expired_option 1) = 0
  /\ (forall short,
        theta (set_volatility expired_option 1) short = Raised ZeroDivisionError)
  /\ gamma (set_volatility expired_option 1) = Raised ZeroDivisionError
  /\ speed (set_volatility expired_option 1) = Raised ZeroDivisionError
  /\ zomma (set_volatility expired_option 1) = Raised ZeroDivisionError
  /\ vega (set_volatility expired_option 1) = Returned 0
  /\ vomma (set_volatility expired_option 1) = Returned 0
  /\ ultima (set_volatility expired_option 1) = Returned 0.
Proof.
  assert (H : expiry (set_volatility expired_option 1) = 0) by reflexivity.
  assert (Hv : volatility (set_volatility expired_option 1) <> 0)
    by (read_fields; lra).
  split; [exact H |].
  destruct (greeks_at_expiry (set_volatility expired_option 1) H)
    as (Ht & Hg & Hs & Hz & Hve & Hrest).
  repeat (split; [assumption |]).
  exact (Hrest Hv).
Defined.

(** X10: with a negative expiry theta, vega, gamma, vomma, speed, zomma and
    ultima raise ValueError (the square root of a negative number), whatever
    the other attributes; delta, rho and, for a non-zero volatility, vanna
    still return. *)
Theorem greeks_negative_expiry (self : CurrencyOption) :
  expiry self < 0 ->
  (forall short, theta self short = Raised ValueError)
  /\ vega self = Raised ValueError
  /\ gamma self = Raised ValueError
  /\ vomma self = Raised ValueError
  /\ speed self = Raised ValueError
  /\ zomma self = Raised ValueError
  /\ ultima self = Raised ValueError
  /\ (volatility self <> 0 -> exists va, vanna self = Returned va).
Proof.
  intro HT.
  assert (Hz : TWOPI * expiry self < 0) by (generalize TWOPI_pos; nra).
  assert (Hq : expiry self / TWOPI < 0).
  { unfold Rdiv. assert (Hi := Rinv_0_lt_compat _ TWOPI_pos). nra. }
  unfold theta, vega, gamma, vomma, speed, zomma, ultima.
  rewrite (py_sqrt_domain _ Hz), (py_sqrt_domain _ HT).
  rewrite py_div_returns by (generalize TWOPI_pos; lra). cbn [bind].
  rewrite (py_sqrt_domain _ Hq). cbn [bind].
  split; [intro short; reflexivity |].
  repeat (split; [reflexivity |]).
  intro Hv. eexists. apply vanna_value. exact Hv.
Qed.

Lemma greeks_negative_expiry_witness :
  expiry (set_expiry (set_volatility sample_option 1) (-1)) < 0
  /\ (forall short,
        theta (set_expiry (set_volatility sample_option 1) (-1)) short
        = Raised ValueError)
  /\ vega (set_expiry (set_volatility sample_option 1) (-1)) = Raised ValueError
  /\ gamma (set_expiry (set_volatility sample_option 1) (-1)) = Raised ValueError
  /\ vomma (set_expiry (set_volatility sample_option 1) (-1)) = Raised ValueError
  /\ speed (set_expiry (set_volatility sample_option 1) (-1)) = Raised ValueError
  /\ zomma (set_expiry (set_volatility sample_option 1) (-1)) = Raised ValueError
  /\ ultima (set_expiry (set_volatility sample_option 1) (-1)) = Raised ValueError
  /\ exists va, vanna (set_expiry (set_volatility sample_option 1) (-1)) = Returned va.
Proof.
  assert (H : expiry (set_expiry (set_volatility sample_option 1) (-1)) < 0)
    by (read_fields; lra).
  assert (Hv : volatility (set_expiry (set_volatility sample_option 1) (-1)) <> 0)
    by (read_fields; lra).
  split; [exact H |].
  destruct (greeks_negative_expiry _ H) as (Ht & H1 & H2 & H3 & H4 & H5 & H6 & Hrest).
  repeat (split; [assumption |]).
  exact (Hrest Hv).
Defined.

(** * The Greeks as derivatives of one another *)

Lemma derivable_pt_lim_val (f : R -> R) (x l l' : R) :
  derivable_pt_lim f x l -> l = l' -> derivable_pt_lim f x l'.
Proof. intros H <-. exact H. Qed.

Lemma D_const (c x : R) : derivable_pt_lim (fun _ => c) x 0.
Proof. exact (derivable_pt_lim_const c x). Qed.

Lemma D_id (x : R) : derivable_pt_lim (fun y => y) x 1.
Proof. exact (derivable_pt_lim_id x). Qed.

Lemma D_plus (f g : R -> R) (x l1 l2 : R) :
  derivable_pt_lim f x l1 -> derivable_pt_lim g x l2 ->
  derivable_pt_lim (fun y => f y + g y) x (l1 + l2).
Proof. exact (derivable_pt_lim_plus f g x l1 l2). Qed.

Lemma D_minus (f g : R -> R) (x l1 l2 : R) :
  derivable_pt_lim f x l1 -> derivable_pt_lim g x l2 ->
  derivable_pt_lim (fun y => f y - g y) x (l1 - l2).
Proof. exact (derivable_pt_lim_minus f g x l1 l2). Qed.

Lemma D_opp (f : R -> R) (x l : R) :
  derivable_pt_lim f x l -> derivable_pt_lim (fun y => - f y) x (- l).
Proof. exact (derivable_pt_lim_opp f x l). Qed.

Lemma D_mult (f g : R -> R) (x l1 l2 : R) :
  derivable_pt_lim f x l1 -> derivable_pt_lim g x l2 ->
  derivable_pt_lim (fun y => f y * g y) x (l1 * g x + f x * l2).
Proof. exact (derivable_pt_lim_mult f g x l1 l2). Qed.

Lemma D_div (f g : R -> R) (x l1 l2 : R) :
  derivable_pt_lim f x l1 -> derivable_pt_lim g x l2 -> g x <> 0 ->
  derivable_pt_lim (fun y => f y / g y) x ((l1 * g x - l2 * f x) / (g x * g x)).
Proof. exact (derivable_pt_lim_div f g x l1 l2). Qed.

Lemma D_exp (f : R -> R) (x l : R) :
  derivable_pt_lim f x l -> derivable_pt_lim (fun y => exp (f y)) x (exp (f x) * l).
Proof.
  intro H. exact (derivable_pt_lim_comp f exp x l _ H (derivable_pt_lim_exp (f x))).
Qed.

Lemma D_ln (f : R -> R) (x l : R) :
  derivable_pt_lim f x l -> 0 < f x ->
  derivable_pt_lim (fun y => ln (f y)) x (/ f x * l).
Proof.
  intros H Hp.
  exact (derivable_pt_lim_comp f ln x l _ H (derivable_pt_lim_ln (f x) Hp)).
Qed.

Lemma norm_cdf_deriv (x : R) :
  derivable_pt_lim norm_cdf x (norm_pdf_kernel x / sqrt (2 * PI)).
Proof.
  apply (derivable_pt_lim_val norm_cdf x
           (0 + (norm_pdf_kernel x * / sqrt (2 * PI) + kernel_area x * 0)));
    [| unfold Rdiv; ring].
  apply (D_plus (fun _ => 1 / 2) (fun y => kernel_area y * / sqrt (2 * PI)));
    [apply D_const |].
  apply (D_mult kernel_area (fun _ => / sqrt (2 * PI)));
    [apply kernel_area_deriv | apply D_const].
Qed.

Lemma D_norm_cdf (f : R -> R) (x l : R) :
  derivable_pt_lim f x l ->
  derivable_pt_lim (fun y => norm_cdf (f y)) x
    (norm_pdf_kernel (f x) / sqrt (2 * PI) * l).
Proof.
  intro H. exact (derivable_pt_lim_comp f norm_cdf x l _ H (norm_cdf_deriv (f x))).
Qed.

(** d1 as a function of the underlying and of the volatility. *)
Lemma gk_d1_deriv_underlying (u k rd rf T vol : R) :
  0 < T -> vol <> 0 -> k <> 0 -> 0 < u / k ->
  derivable_pt_lim (fun x => gk_d1 x k rd rf T vol) u (/ u / (vol * sqrt T)).
Proof.
  intros HT Hv Hk Huk. unfold gk_d1.
  assert (Hs : 0 < sqrt T) by (apply sqrt_lt_R0; exact HT).
  assert (Hu : u <> 0).
  { intro E. rewrite E in Huk. unfold Rdiv in Huk. rewrite Rmult_0_l in Huk. lra. }
  eapply derivable_pt_lim_val.
  - apply D_mult; [| apply D_const].
    apply D_plus; [| apply D_const].
    apply D_ln; [| exact Huk].
    apply D_mult; [apply D_id | apply D_const].
  - unfold Rdiv in *. field. repeat split; try assumption; lra.
Qed.

Lemma gk_d1_deriv_volatility (u k rd rf T vol : R) :
  0 < T -> vol <> 0 ->
  derivable_pt_lim (fun v => gk_d1 u k rd rf T v) vol
    (- (gk_d1 u k rd rf T vol - vol * sqrt T) / vol).
Proof.
  intros HT Hv. unfold gk_d1.
  assert (Hs : 0 < sqrt T) by (apply sqrt_lt_R0; exact HT).
  assert (Hss : sqrt T * sqrt T = T) by (apply sqrt_sqrt; lra).
  eapply derivable_pt_lim_val.
  - apply D_div.
    + apply D_plus; [apply D_const |].
      apply D_mult; [| apply D_const].
      apply D_plus; [apply D_const |].
      apply D_mult; [apply D_const |].
      apply (derivable_pt_lim_pow vol 2).
    + apply D_mult; [apply D_id | apply D_const].
    + apply Rmult_integral_contrapositive_currified; lra.
  - set (L := ln (u / k)). set (s := sqrt T) in *.
    replace 0.5 with (1 / 2) by lra. simpl INR. simpl pred.
    rewrite <- Hss. simpl. field. split; lra.
Qed.

Lemma D_kernel (f : R -> R) (x l : R) :
  derivable_pt_lim f x l ->
  derivable_pt_lim (fun y => norm_pdf_kernel (f y)) x
    (norm_pdf_kernel (f x) * (- f x * l)).
Proof.
  intro H. unfold norm_pdf_kernel.
  eapply derivable_pt_lim_val.
  - apply D_exp. apply (D_mult (fun y => - (f y * f y)) (fun _ => / 2)); [| apply D_const].
    apply D_opp. apply (D_mult f f); exact H.
  - unfold Rdiv. field.
Qed.

Lemma sqrt_TWOPI_T (T : R) : 0 <= T -> sqrt (TWOPI * T) = sqrt (2 * PI) * sqrt T.
Proof.
  intro HT. unfold TWOPI. apply sqrt_mult; [generalize PI_RGT_0; lra | exact HT].
Qed.

Lemma sqrt_T_TWOPI (T : R) : 0 <= T -> sqrt (T / TWOPI) = sqrt T / sqrt (2 * PI).
Proof.
  intro HT. unfold TWOPI. apply sqrt_div; [exact HT | generalize PI_RGT_0; lra].
Qed.

Lemma greek_exp_split (rf T d : R) :
  exp (- rf * T - d * d / 2) = exp (- rf * T) * norm_pdf_kernel d.
Proof.
  unfold norm_pdf_kernel. rewrite <- exp_plus. f_equal. unfold Rdiv. ring.
Qed.

Lemma near_nonzero (u : R) :
  u <> 0 -> exists a b, a < u < b /\ forall z, a < z < b -> z <> 0.
Proof.
  intro Hu. destruct (Rlt_dec 0 u) as [Hp | Hn].
  - exists (u / 2), (2 * u). split; [lra | intros z Hz; lra].
  - exists (2 * u), (u / 2). split; [lra | intros z Hz; lra].
Qed.

Section GreekFunctions.
Variable self : CurrencyOption.
Hypothesis T_pos : 0 < expiry self.

Lemma delta_at (x v : R) (short : bool) :
  delta (at_market self x v) short
  = if short
    then - exp (- r_foreign self * expiry self) * norm_cdf (- d1_at self x v)
    else exp (- r_foreign self * expiry self) * norm_cdf (d1_at self x v).
Proof. reflexivity. Qed.

Lemma vega_at (x v : R) :
  vega (at_market self x v)
  = Returned (exp (- r_foreign self * expiry self) * norm_pdf_kernel (d1_at self x v) * x
              * (sqrt (expiry self) / sqrt (2 * PI))).
Proof.
  rewrite vega_value by (unfold at_market, finished; read_fields; lra).
  unfold greek_exp, at_market, finished. read_fields.
  rewrite greek_exp_split, sqrt_T_TWOPI by lra. reflexivity.
Qed.

Lemma gamma_at (x v : R) :
  x <> 0 -> v <> 0 ->
  gamma (at_market self x v)
  = Returned (exp (- r_foreign self * expiry self) * norm_pdf_kernel (d1_at self x v)
              / (x * v * (sqrt (2 * PI) * sqrt (expiry self)))).
Proof.
  intros Hx Hv.
  rewrite gamma_value by (unfold at_market, finished; read_fields; assumption).
  unfold greek_exp, at_market, finished. read_fields.
  rewrite greek_exp_split, sqrt_TWOPI_T by lra. reflexivity.
Qed.

Lemma vanna_at (x v : R) :
  v <> 0 ->
  vanna (at_market self x v)
  = Returned (- (exp (- r_foreign self * expiry self) * norm_pdf_kernel (d1_at self x v))
              * d2_at self x v / (v * sqrt (2 * PI))).
Proof.
  intros Hv.
  rewrite vanna_value by (unfold at_market, finished; read_fields; assumption).
  unfold greek_exp, at_market, finished. read_fields.
  rewrite greek_exp_split. reflexivity.
Qed.

Lemma vomma_at (x v : R) :
  v <> 0 ->
  vomma (at_market self x v)
  = Returned (x * (exp (- r_foreign self * expiry self)
                   * norm_pdf_kernel (d1_at self x v))
              * sqrt (expiry self) * (d1_at self x v * d2_at self x v) / v).
Proof.
  intros Hv.
  rewrite vomma_value by (unfold at_market, finished; read_fields; assumption || lra).
  unfold greek_exp, at_market, finished. read_fields.
  rewrite greek_exp_split. reflexivity.
Qed.

Lemma speed_at (x v : R) :
  x <> 0 -> v <> 0 ->
  speed (at_market self x v)
  = Returned (- (exp (- r_foreign self * expiry self) * norm_pdf_kernel (d1_at self x v)
                 / (x * v * (sqrt (2 * PI) * sqrt (expiry self))) / x)
              * (1 + d1_at self x v / (v * sqrt (expiry self)))).
Proof.
  intros Hx Hv.
  rewrite speed_value by (unfold at_market, finished; read_fields; assumption).
  unfold greek_exp, at_market, finished. read_fields.
  rewrite greek_exp_split, sqrt_TWOPI_T by lra. reflexivity.
Qed.

Lemma zomma_at (x v : R) :
  x <> 0 -> v <> 0 ->
  zomma (at_market self x v)
  = Returned (exp (- r_foreign self * expiry self) * norm_pdf_kernel (d1_at self x v)
              / (x * v * (sqrt (2 * PI) * sqrt (expiry self)))
              * ((d1_at self x v * d2_at self x v - 1) / v)).
Proof.
  intros Hx Hv.
  rewrite zomma_value by (unfold at_market, finished; read_fields; assumption).
  unfold greek_exp, at_market, finished. read_fields.
  rewrite greek_exp_split, sqrt_TWOPI_T by lra. reflexivity.
Qed.

Lemma ultima_at (x v : R) :
  v <> 0 ->
  ultima (at_market self x v)
  = Returned (- (exp (- r_foreign self * expiry self) * norm_pdf_kernel (d1_at self x v))
              * x * (sqrt (expiry self) / sqrt (2 * PI)) / (v * v)
              * (d1_at self x v * d2_at self x v * (1 - d1_at self x v * d2_at self x v)
                 + d1_at self x v * d1_at self x v + d2_at self x v * d2_at self x v)).
Proof.
  intros Hv.
  rewrite ultima_value by (unfold at_market, finished; read_fields; assumption || lra).
  unfold greek_exp, at_market, finished. read_fields.
  rewrite greek_exp_split, sqrt_T_TWOPI by lra. reflexivity.
Qed.

Lemma kernel_even (d : R) : norm_pdf_kernel (- d) = norm_pdf_kernel d.
Proof. unfold norm_pdf_kernel. f_equal. field. Qed.

Lemma d1_at_du (x v : R) :
  v <> 0 -> strike self <> 0 -> 0 < x / strike self ->
  derivable_pt_lim (fun y => d1_at self y v) x (/ x / (v * sqrt (expiry self))).
Proof. intros. apply gk_d1_deriv_underlying; assumption. Qed.

Lemma d1_at_dv (x v : R) :
  v <> 0 -> derivable_pt_lim (fun y => d1_at self x y) v (- d2_at self x v / v).
Proof. intros. apply gk_d1_deriv_volatility; assumption. Qed.

Lemma d2_at_dv (x v : R) :
  v <> 0 -> derivable_pt_lim (fun y => d2_at self x y) v (- d1_at self x v / v).
Proof.
  intro Hv. unfold d2_at at 1.
  eapply derivable_pt_lim_val.
  - apply (D_minus (fun y => d1_at self x y) (fun y => y * sqrt (expiry self)));
      [apply d1_at_dv; exact Hv |].
    apply (D_mult (fun y => y) (fun _ => sqrt (expiry self))); [apply D_id | apply D_const].
  - unfold d2_at. field. exact Hv.
Qed.

End GreekFunctions.

Lemma well_formed_underlying (self : CurrencyOption) :
  well_formed self -> underlying self <> 0.
Proof.
  intros (_ & _ & Huk) E. rewrite E in Huk. unfold Rdiv in Huk.
  rewrite Rmult_0_l in Huk. lra.
Qed.

Ltac greek_atoms self vol :=
  set (e := exp (- r_foreign self * expiry self)) in *;
  set (N := norm_pdf_kernel (d1_at self (underlying self) vol)) in *;
  set (D := d1_at self (underlying self) vol) in *;
  set (s2 := sqrt (2 * PI)) in *;
  set (st := sqrt (expiry self)) in *;
  set (u := underlying self) in *.

(** X11: gamma is the derivative of delta with respect to the underlying:
    for an object on which the d1 expression is defined and a non-zero
    volatility, gamma() of the object's model state returns the derivative,
    at the object's underlying, of both delta() and delta(short=True) taken
    as functions of the underlying with the model state recomputed. *)
Theorem gamma_is_delta_by_underlying (self : CurrencyOption) (vol : R) :
  well_formed self -> vol <> 0 ->
  exists g,
    gamma (at_market self (underlying self) vol) = Returned g
    /\ forall short,
         derivable_pt_lim (fun x => delta (at_market self x vol) short)
           (underlying self) g.
Proof.
  intros Hwf Hv.
  assert (Hu := well_formed_underlying self Hwf).
  destruct Hwf as (HT & Hk & Huk).
  assert (Hs2 : 0 < sqrt (2 * PI)) by (apply sqrt_TWOPI_pos).
  assert (Hst : 0 < sqrt (expiry self)) by (apply sqrt_lt_R0; exact HT).
  eexists. split; [apply (gamma_at self HT); assumption |].
  assert (Hd := d1_at_du self HT (underlying self) vol Hv Hk Huk).
  intros [|].
  - eapply (derivable_pt_lim_ext
              (fun x => - exp (- r_foreign self * expiry self)
                        * norm_cdf (- d1_at self x vol))).
    + apply (D_mult (fun _ => - exp (- r_foreign self * expiry self))
               (fun x => norm_cdf (- d1_at self x vol))); [apply D_const |].
      apply (D_norm_cdf (fun x => - d1_at self x vol)). apply D_opp. exact Hd.
    + intro y. reflexivity.
    + rewrite kernel_even. greek_atoms self vol. field. repeat split; lra.
  - eapply (derivable_pt_lim_ext
              (fun x => exp (- r_foreign self * expiry self)
                        * norm_cdf (d1_at self x vol))).
    + apply (D_mult (fun _ => exp (- r_foreign self * expiry self))
               (fun x => norm_cdf (d1_at self x vol))); [apply D_const |].
      apply (D_norm_cdf (fun x => d1_at self x vol)). exact Hd.
    + intro y. reflexivity.
    + greek_atoms self vol. field. repeat split; lra.
Qed.

Lemma gamma_is_delta_by_underlying_witness :
  (well_formed sample_option /\ 1 <> 0)
  /\ exists g,
       gamma (at_market sample_option (underlying sample_option) 1) = Returned g
       /\ forall short,
            derivable_pt_lim (fun x => delta (at_market sample_option x 1) short)
              (underlying sample_option) g.
Proof.
  assert (H : (1 <> 0)%R) by lra.
  split; [split; [exact sample_well_formed | exact H] |].
  exact (gamma_is_delta_by_underlying sample_option 1 sample_well_formed H).
Defined.

(** X12: vanna is both the derivative of delta with respect to the
    volatility and the derivative of vega with respect to the underlying:
    vanna() of the object's model state returns the derivative of delta()
    and of delta(short=True) at the volatility, and of vega() at the
    underlying, the model state being recomputed for each argument. *)
Theorem vanna_is_delta_by_volatility (self : CurrencyOption) (vol : R) :
  well_formed self -> vol <> 0 ->
  exists va,
    vanna (at_market self (underlying self) vol) = Returned va
    /\ (forall short,
          derivable_pt_lim (fun v => delta (at_market self (underlying self) v) short)
            vol va)
    /\ derivable_pt_lim (fun x => returned_value (vega (at_market self x vol)))
         (underlying self) va.
Proof.
  intros Hwf Hv.
  assert (Hu := well_formed_underlying self Hwf).
  destruct Hwf as (HT & Hk & Huk).
  assert (Hs2 : 0 < sqrt (2 * PI)) by (apply sqrt_TWOPI_pos).
  assert (Hst : 0 < sqrt (expiry self)) by (apply sqrt_lt_R0; exact HT).
  eexists. split; [apply (vanna_at self); assumption |].
  assert (Hdu := d1_at_du self HT (underlying self) vol Hv Hk Huk).
  assert (Hdv := d1_at_dv self HT (underlying self) vol Hv).
  split; [intros [|] |].
  - eapply (derivable_pt_lim_ext
              (fun v => - exp (- r_foreign self * expiry self)
                        * norm_cdf (- d1_at self (underlying self) v))).
    + apply (D_mult (fun _ => - exp (- r_foreign self * expiry self))
               (fun v => norm_cdf (- d1_at self (underlying self) v)));
        [apply D_const |].
      apply (D_norm_cdf (fun v => - d1_at self (underlying self) v)).
      apply D_opp. exact Hdv.
    + intro y. reflexivity.
    + rewrite kernel_even. unfold d2_at. greek_atoms self vol.
      field. repeat split; lra.
  - eapply (derivable_pt_lim_ext
              (fun v => exp (- r_foreign self * expiry self)
                        * norm_cdf (d1_at self (underlying self) v))).
    + apply (D_mult (fun _ => exp (- r_foreign self * expiry self))
               (fun v => norm_cdf (d1_at self (underlying self) v)));
        [apply D_const |].
      apply (D_norm_cdf (fun v => d1_at self (underlying self) v)). exact Hdv.
    + intro y. reflexivity.
    + unfold d2_at. greek_atoms self vol. field. repeat split; lra.
  - eapply (derivable_pt_lim_ext
              (fun x => exp (- r_foreign self * expiry self)
                        * norm_pdf_kernel (d1_at self x vol) * x
                        * (sqrt (expiry self) / sqrt (2 * PI)))).
    + apply (D_mult (fun x => exp (- r_foreign self * expiry self)
                              * norm_pdf_kernel (d1_at self x vol) * x)
               (fun _ => sqrt (expiry self) / sqrt (2 * PI))); [| apply D_const].
      apply (D_mult (fun x => exp (- r_foreign self * expiry self)
                              * norm_pdf_kernel (d1_at self x vol))
               (fun x => x)); [| apply D_id].
      apply (D_mult (fun _ => exp (- r_foreign self * expiry self))
               (fun x => norm_pdf_kernel (d1_at self x vol))); [apply D_const |].
      apply (D_kernel (fun x => d1_at self x vol)). exact Hdu.
    + intro y. rewrite (vega_at self HT). reflexivity.
    + unfold d2_at. greek_atoms self vol.
      assert (Hss : st * st = expiry self) by (apply sqrt_sqrt; lra).
      field. repeat split; lra.
Qed.

Lemma vanna_is_delta_by_volatility_witness :
  (well_formed sample_option /\ 1 <> 0)
  /\ exists va,
       vanna (at_market sample_option (underlying sample_option) 1) = Returned va
       /\ (forall short,
             derivable_pt_lim
               (fun v => delta (at_market sample_option (underlying sample_option) v)
                           short) 1 va)
       /\ derivable_pt_lim
            (fun x => returned_value (vega (at_market sample_option x 1)))
            (underlying sample_option) va.
Proof.
  assert (H : (1 <> 0)%R) by lra.
  split; [split; [exact sample_well_formed | exact H] |].
  exact (vanna_is_delta_by_volatility sample_option 1 sample_well_formed H).
Defined.

(** X13: speed is the derivative of gamma with respect to the underlying:
    speed() of the object's model state returns the derivative, at the
    object's underlying, of the value gamma() returns as a function of the
    underlying with the model state recomputed. *)
Theorem speed_is_gamma_by_underlying (self : CurrencyOption) (vol : R) :
  well_formed self -> vol <> 0 ->
  exists sp,
    speed (at_market self (underlying self) vol) = Returned sp
    /\ derivable_pt_lim (fun x => returned_value (gamma (at_market self x vol)))
         (underlying self) sp.
Proof.
  intros Hwf Hv.
  assert (Hu := well_formed_underlying self Hwf).
  destruct Hwf as (HT & Hk & Huk).
  assert (Hs2 : 0 < sqrt (2 * PI)) by (apply sqrt_TWOPI_pos).
  assert (Hst : 0 < sqrt (expiry self)) by (apply sqrt_lt_R0; exact HT).
  eexists. split; [apply (speed_at self HT); assumption |].
  assert (Hdu := d1_at_du self HT (underlying self) vol Hv Hk Huk).
  destruct (near_nonzero (underlying self) Hu) as (a & b & Hab & Hnz).
  apply (derivable_pt_lim_locally_ext
           (fun x => exp (- r_foreign self * expiry self)
                     * norm_pdf_kernel (d1_at self x vol)
                     / (x * vol * (sqrt (2 * PI) * sqrt (expiry self))))
           _ (underlying self) a b _ Hab).
  - intros z Hz. rewrite (gamma_at self HT); [reflexivity | apply Hnz; exact Hz | exact Hv].
  - eapply derivable_pt_lim_val.
    + apply (D_div (fun x => exp (- r_foreign self * expiry self)
                             * norm_pdf_kernel (d1_at self x vol))
               (fun x => x * vol * (sqrt (2 * PI) * sqrt (expiry self)))).
      * apply (D_mult (fun _ => exp (- r_foreign self * expiry self))
                 (fun x => norm_pdf_kernel (d1_at self x vol))); [apply D_const |].
        apply (D_kernel (fun x => d1_at self x vol)). exact Hdu.
      * apply (D_mult (fun x => x * vol)
                 (fun _ => sqrt (2 * PI) * sqrt (expiry self))); [| apply D_const].
        apply (D_mult (fun x => x) (fun _ => vol)); [apply D_id | apply D_const].
      * repeat apply Rmult_integral_contrapositive_currified; try assumption; lra.
    + greek_atoms self vol. field. repeat split; lra.
Qed.

Lemma speed_is_gamma_by_underlying_witness :
  (well_formed sample_option /\ 1 <> 0)
  /\ exists sp,
       speed (at_market sample_option (underlying sample_option) 1) = Returned sp
       /\ derivable_pt_lim
            (fun x => returned_value (gamma (at_market sample_option x 1)))
            (underlying sample_option) sp.
Proof.
  assert (H : (1 <> 0)%R) by lra.
  split; [split; [exact sample_well_formed | exact H] |].
  exact (speed_is_gamma_by_underlying sample_option 1 sample_well_formed H).
Defined.

(** X14: zomma is the derivative of gamma with respect to the volatility:
    zomma() of the object's model state returns the derivative, at the
    volatility, of the value gamma() returns as a function of the volatility
    with the model state recomputed. *)
Theorem zomma_is_gamma_by_volatility (self : CurrencyOption) (vol : R) :
  well_formed self -> vol <> 0 ->
  exists zo,
    zomma (at_market self (underlying self) vol) = Returned zo
    /\ derivable_pt_lim
         (fun v => returned_value (gamma (at_market self (underlying self) v)))
         vol zo.
Proof.
  intros Hwf Hv.
  assert (Hu := well_formed_underlying self Hwf).
  destruct Hwf as (HT & Hk & Huk).
  assert (Hs2 : 0 < sqrt (2 * PI)) by (apply sqrt_TWOPI_pos).
  assert (Hst : 0 < sqrt (expiry self)) by (apply sqrt_lt_R0; exact HT).
  eexists. split; [apply (zomma_at self HT); assumption |].
  assert (Hdv := d1_at_dv self HT (underlying self) vol Hv).
  destruct (near_nonzero vol Hv) as (a & b & Hab & Hnz).
  apply (derivable_pt_lim_locally_ext
           (fun v => exp (- r_foreign self * expiry self)
                     * norm_pdf_kernel (d1_at self (underlying self) v)
                     / (underlying self * v * (sqrt (2 * PI) * sqrt (expiry self))))
           _ vol a b _ Hab).
  - intros z Hz. rewrite (gamma_at self HT); [reflexivity | exact Hu | apply Hnz; exact Hz].
  - eapply derivable_pt_lim_val.
    + apply (D_div (fun v => exp (- r_foreign self * expiry self)
                             * norm_pdf_kernel (d1_at self (underlying self) v))
               (fun v => underlying self * v
                         * (sqrt (2 * PI) * sqrt (expiry self)))).
      * apply (D_mult (fun _ => exp (- r_foreign self * expiry self))
                 (fun v => norm_pdf_kernel (d1_at self (underlying self) v)));
          [apply D_const |].
        apply (D_kernel (fun v => d1_at self (underlying self) v)). exact Hdv.
      * apply (D_mult (fun v => underlying self * v)
                 (fun _ => sqrt (2 * PI) * sqrt (expiry self))); [| apply D_const].
        apply (D_mult (fun _ => underlying self) (fun v => v));
          [apply D_const | apply D_id].
      * repeat apply Rmult_integral_contrapositive_currified; try assumption; lra.
    + unfold d2_at. greek_atoms self vol. field. repeat split; lra.
Qed.

Lemma zomma_is_gamma_by_volatility_witness :
  (well_formed sample_option /\ 1 <> 0)
  /\ exists zo,
       zomma (at_market sample_option (underlying sample_option) 1) = Returned zo
       /\ derivable_pt_lim
            (fun v => returned_value
                        (gamma (at_market sample_option (underlying sample_option) v)))
            1 zo.
Proof.
  assert (H : (1 <> 0)%R) by lra.
  split; [split; [exact sample_well_formed | exact H] |].
  exact (zomma_is_gamma_by_volatility sample_option 1 sample_well_formed H).
Defined.

(** X15: the value vomma() returns is sqrt(2 pi) times the derivative of
    vega with respect to the volatility: the derivative, at the volatility,
    of the value vega() returns with the model state recomputed is
    vomma() / sqrt(TWOPI). *)
Theorem vomma_is_scaled_vega_by_volatility (self : CurrencyOption) (vol : R) :
  well_formed self -> vol <> 0 ->
  exists vo,
    vomma (at_market self (underlying self) vol) = Returned vo
    /\ derivable_pt_lim
         (fun v => returned_value (vega (at_market self (underlying self) v)))
         vol (vo / sqrt TWOPI).
Proof.
  intros Hwf Hv.
  destruct Hwf as (HT & Hk & Huk).
  assert (Hs2 : 0 < sqrt (2 * PI)) by (apply sqrt_TWOPI_pos).
  assert (Hst : 0 < sqrt (expiry self)) by (apply sqrt_lt_R0; exact HT).
  eexists. split; [apply (vomma_at self); assumption |].
  assert (Hdv := d1_at_dv self HT (underlying self) vol Hv).
  eapply (derivable_pt_lim_ext
            (fun v => exp (- r_foreign self * expiry self)
                      * norm_pdf_kernel (d1_at self (underlying self) v)
                      * underlying self
                      * (sqrt (expiry self) / sqrt (2 * PI)))).
  - apply (D_mult (fun v => exp (- r_foreign self * expiry self)
                            * norm_pdf_kernel (d1_at self (underlying self) v)
                            * underlying self)
             (fun _ => sqrt (expiry self) / sqrt (2 * PI))); [| apply D_const].
    apply (D_mult (fun v => exp (- r_foreign self * expiry self)
                            * norm_pdf_kernel (d1_at self (underlying self) v))
             (fun _ => underlying self)); [| apply D_const].
    apply (D_mult (fun _ => exp (- r_foreign self * expiry self))
             (fun v => norm_pdf_kernel (d1_at self (underlying self) v)));
      [apply D_const |].
    apply (D_kernel (fun v => d1_at self (underlying self) v)). exact Hdv.
  - intro y. rewrite (vega_at self HT). reflexivity.
  - unfold TWOPI, d2_at. greek_atoms self vol. field. repeat split; lra.
Qed.

Lemma vomma_is_scaled_vega_by_volatility_witness :
  (well_formed sample_option /\ 1 <> 0)
  /\ exists vo,
       vomma (at_market sample_option (underlying sample_option) 1) = Returned vo
       /\ derivable_pt_lim
            (fun v => returned_value
                        (vega (at_market sample_option (underlying sample_option) v)))
            1 (vo / sqrt TWOPI).
Proof.
  assert (H : (1 <> 0)%R) by lra.
  split; [split; [exact sample_well_formed | exact H] |].
  exact (vomma_is_scaled_vega_by_volatility sample_option 1 sample_well_formed H).
Defined.

(** X16: the derivative of vomma with respect to the volatility is
    sqrt(2 pi) times the value ultima() returns: the derivative, at the
    volatility, of the value vomma() returns with the model state recomputed
    is sqrt(TWOPI) * ultima(). *)
Theorem ultima_is_scaled_vomma_by_volatility (self : CurrencyOption) (vol : R) :
  well_formed self -> vol <> 0 ->
  exists ul,
    ultima (at_market self (underlying self) vol) = Returned ul
    /\ derivable_pt_lim
         (fun v => returned_value (vomma (at_market self (underlying self) v)))
         vol (sqrt TWOPI * ul).
Proof.
  intros Hwf Hv.
  destruct Hwf as (HT & Hk & Huk).
  assert (Hs2 : 0 < sqrt (2 * PI)) by (apply sqrt_TWOPI_pos).
  assert (Hst : 0 < sqrt (expiry self)) by (apply sqrt_lt_R0; exact HT).
  eexists. split; [apply (ultima_at self HT); assumption |].
  assert (Hdv := d1_at_dv self HT (underlying self) vol Hv).
  assert (Hdv2 := d2_at_dv self HT (underlying self) vol Hv).
  destruct (near_nonzero vol Hv) as (a & b & Hab & Hnz).
  apply (derivable_pt_lim_locally_ext
           (fun v => underlying self
                     * (exp (- r_foreign self * expiry self)
                        * norm_pdf_kernel (d1_at self (underlying self) v))
                     * sqrt (expiry self)
                     * (d1_at self (underlying self) v * d2_at self (underlying self) v)
                     / v)
           _ vol a b _ Hab).
  - intros z Hz. rewrite (vomma_at self HT); [reflexivity | apply Hnz; exact Hz].
  - eapply derivable_pt_lim_val.
    + apply (D_div (fun v => underlying self
                     * (exp (- r_foreign self * expiry self)
                        * norm_pdf_kernel (d1_at self (underlying self) v))
                     * sqrt (expiry self)
                     * (d1_at self (underlying self) v * d2_at self (underlying self) v))
               (fun v => v)); [| apply D_id | exact Hv].
      apply (D_mult (fun v => underlying self
                     * (exp (- r_foreign self * expiry self)
                        * norm_pdf_kernel (d1_at self (underlying self) v))
                     * sqrt (expiry self))
               (fun v => d1_at self (underlying self) v
                         * d2_at self (underlying self) v)).
      * apply (D_mult (fun v => underlying self
                     * (exp (- r_foreign self * expiry self)
                        * norm_pdf_kernel (d1_at self (underlying self) v)))
                 (fun _ => sqrt (expiry self))); [| apply D_const].
        apply (D_mult (fun _ => underlying self)
                 (fun v => exp (- r_foreign self * expiry self)
                        * norm_pdf_kernel (d1_at self (underlying self) v)));
          [apply D_const |].
        apply (D_mult (fun _ => exp (- r_foreign self * expiry self))
                 (fun v => norm_pdf_kernel (d1_at self (underlying self) v)));
          [apply D_const |].
        apply (D_kernel (fun v => d1_at self (underlying self) v)). exact Hdv.
      * apply (D_mult (fun v => d1_at self (underlying self) v)
                 (fun v => d2_at self (underlying self) v)); [exact Hdv | exact Hdv2].
    + unfold TWOPI. fold (sqrt (2 * PI)).
      set (D2 := d2_at self (underlying self) vol) in *.
      greek_atoms self vol. field. repeat split; lra.
Qed.

Lemma ultima_is_scaled_vomma_by_volatility_witness :
  (well_formed sample_option /\ 1 <> 0)
  /\ exists ul,
       ultima (at_market sample_option (underlying sample_option) 1) = Returned ul
       /\ derivable_pt_lim
            (fun v => returned_value
                        (vomma (at_market sample_option (underlying sample_option) v)))
            1 (sqrt TWOPI * ul).
Proof.
  assert (H : (1 <> 0)%R) by lra.
  split; [split; [exact sample_well_formed | exact H] |].
  exact (ultima_is_scaled_vomma_by_volatility sample_option 1 sample_well_formed H).
Defined.

(** * The update loops *)

Lemma updateFields_feed_doExpiry (self : CurrencyOption) (m0 m1 m2 m3 : feed_message)
    (self' : CurrencyOption) :
  updateFields_feed self m0 m1 m2 m3 = Returned self' ->
  doExpiry self' = doExpiry self.
Proof.
  unfold updateFields_feed.
  destruct (py_index_neg (msg_sell m0) 1) as [s | |]; cbn [bind]; try discriminate.
  destruct (py_index_neg (msg_buy m1) 1) as [b | |]; cbn [bind]; try discriminate.
  intro H. inversion H. reflexivity.
Qed.

Lemma updateFields_history_inv (self self' : CurrencyOption) :
  updateFields_history self = Returned self' ->
  exists b s,
    py_index_neg (buyHistory self) 1 = Returned b
    /\ py_index_neg (sellHistory self) 1 = Returned s
    /\ self' = set_underlying (set_sellPrice (set_buyPrice self b) s)
                 (underlyingHistory self).
Proof.
  unfold updateFields_history.
  destruct (py_index_neg (buyHistory self) 1) as [b | |]; cbn [bind]; try discriminate.
  read_fields.
  destruct (py_index_neg (sellHistory self) 1) as [s | |]; cbn [bind]; try discriminate.
  intro H. inversion H. exists b, s. repeat split.
Qed.

Lemma updateFields_history_again (self self' : CurrencyOption) :
  updateFields_history self = Returned self' ->
  updateFields_history self' = Returned self'.
Proof.
  intro H. destruct (updateFields_history_inv self self' H) as (b & s & Hb & Hs & ->).
  unfold updateFields_history. read_fields. rewrite Hb. cbn [bind]. read_fields.
  rewrite Hs. cbn [bind]. reflexivity.
Qed.

Lemma first_loop_returned (fuel : nat) :
  forall (self : CurrencyOption) (pipe : nat -> feed_message) (pos : nat) self',
    updateFields_first_loop fuel self pipe pos = Returned self' ->
    doExpiry self' = false.
Proof.
  induction fuel as [| fuel IH]; intros self pipe pos self' H; [discriminate |].
  cbn [updateFields_first_loop] in H.
  destruct (doExpiry self) eqn:E.
  - destruct (updateFields_feed self (pipe pos) (pipe (1 + pos)%nat)
                (pipe (2 + pos)%nat) (pipe (3 + pos)%nat)) as [s | |];
      cbn [bind] in H; try discriminate.
    eapply IH. exact H.
  - inversion H; subst. exact E.
Qed.

Lemma second_loop_stuck (fuel : nat) :
  forall (self self' : CurrencyOption),
    doExpiry self = false ->
    updateFields_second_loop fuel self <> Returned self'.
Proof.
  induction fuel as [| fuel IH]; intros self self' E H; [discriminate |].
  cbn [updateFields_second_loop] in H. rewrite E in H. cbn [negb] in H.
  destruct (updateFields_history self) as [s | |] eqn:Hh; cbn [bind] in H;
    try discriminate.
  apply (IH s self'); [| exact H].
  destruct (updateFields_history_inv self s Hh) as (b & s0 & _ & _ & ->).
  read_fields. exact E.
Qed.

Lemma second_loop_spins (fuel : nat) (self self' : CurrencyOption) :
  doExpiry self = false ->
  updateFields_history self = Returned self' ->
  updateFields_second_loop (S fuel) self = OutOfFuel.
Proof.
  intros E H.
  assert (E' : doExpiry self' = false).
  { destruct (updateFields_history_inv self self' H) as (b & s0 & _ & _ & ->).
    read_fields. exact E. }
  cbn [updateFields_second_loop]. rewrite E, H. cbn [negb bind].
  assert (Hagain := updateFields_history_again self self' H).
  clear H E. induction fuel as [| fuel IH]; [reflexivity |].
  cbn [updateFields_second_loop]. rewrite E', Hagain. cbn [negb bind]. exact IH.
Qed.

Lemma py_index_neg_last {A : Type} (l : list A) (d : A) :
  l <> [] -> py_index_neg l 1 = Returned (last l d).
Proof.
  intro Hl. destruct (exists_last Hl) as (l' & a & ->).
  rewrite last_last. unfold py_index_neg, py_index.
  rewrite length_app. cbn [List.length].
  replace (Nat.leb 1 (List.length l' + 1)) with true
    by (symmetry; apply Nat.leb_le; lia).
  replace (List.length l' + 1 - 1)%nat with (List.length l' + 0)%nat by lia.
  rewrite nth_error_app2 by lia.
  replace (List.length l' + 0 - List.length l')%nat with 0%nat by lia.
  reflexivity.
Qed.

Lemma py_index_neg_empty {A : Type} (i : nat) :
  (1 <= i)%nat -> py_index_neg (@nil A) i = Raised IndexError.
Proof.
  intro H. unfold py_index_neg. cbn [List.length].
  destruct i; [lia | reflexivity].
Qed.

(** X17: [updateFields] never returns: whatever the object and whatever the
    pipe delivers, a call either raises or runs forever, because no pass of
    either loop assigns doExpiry, the attribute both loop tests read. *)
Theorem updateFields_never_returns (fuel : nat) (self : CurrencyOption)
    (pipe : nat -> feed_message) (self' : CurrencyOption) :
  updateFields_call fuel self pipe <> Returned self'.
Proof.
  unfold updateFields_call. intro H.
  destruct (updateFields_first_loop fuel self pipe 0) as [s | |] eqn:H1;
    cbn [bind] in H; try discriminate.
  apply first_loop_returned in H1.
  exact (second_loop_stuck fuel s self' H1 H).
Qed.

(** X18: on an object built without an indicative price (doExpiry false)
    [updateFields] raises IndexError at its first pass when the buy history
    or the sell history is empty; otherwise it runs forever, and every pass
    leaves the same state: the buy and sell prices are the last entries of
    the two histories and the underlying is underlyingHistory. *)
Theorem updateFields_follows_history (self : CurrencyOption)
    (pipe : nat -> feed_message) :
  doExpiry self = false ->
  (buyHistory self = [] \/ sellHistory self = [] ->
   forall fuel, updateFields_call (S fuel) self pipe = Raised IndexError)
  /\ (buyHistory self <> [] -> sellHistory self <> [] ->
      (forall fuel, updateFields_call fuel self pipe = OutOfFuel)
      /\ exists self',
           updateFields_history self = Returned self'
           /\ updateFields_history self' = Returned self'
           /\ buyPrice self' = last (buyHistory self) 0
           /\ sellPrice self' = last (sellHistory self) 0
           /\ underlying self' = underlyingHistory self).
Proof.
  intro E. split.
  - intros Hempty fuel. unfold updateFields_call.
    cbn [updateFields_first_loop]. rewrite E.
    cbn [bind updateFields_second_loop]. rewrite E.
    cbn [negb]. unfold updateFields_history.
    destruct (buyHistory self) as [| b0 bl] eqn:Hb.
    + rewrite py_index_neg_empty by lia. reflexivity.
    + destruct Hempty as [Hbe | Hse]; [discriminate |].
      destruct (py_index_neg (b0 :: bl) 1) as [b | e |] eqn:Hi.
      * cbn [bind]. read_fields. rewrite Hse, py_index_neg_empty by lia. reflexivity.
      * rewrite (py_index_neg_last (b0 :: bl) 0) in Hi by discriminate. discriminate.
      * rewrite (py_index_neg_last (b0 :: bl) 0) in Hi by discriminate. discriminate.
  - intros Hb Hs.
    assert (Hrun : updateFields_history self
                   = Returned (set_underlying
                                 (set_sellPrice
                                    (set_buyPrice self (last (buyHistory self) 0))
                                    (last (sellHistory self) 0))
                                 (underlyingHistory self))).
    { unfold updateFields_history.
      rewrite (py_index_neg_last _ 0 Hb). cbn [bind]. read_fields.
      rewrite (py_index_neg_last _ 0 Hs). cbn [bind]. reflexivity. }
    split.
    + intro fuel. unfold updateFields_call.
      destruct fuel as [| fuel]; [reflexivity |].
      cbn [updateFields_first_loop]. rewrite E. cbn [bind].
      exact (second_loop_spins fuel self _ E Hrun).
    + eexists. split; [exact Hrun |].
      split; [exact (updateFields_history_again self _ Hrun) |].
      repeat split.
Qed.

Lemma updateFields_follows_history_witness :
  doExpiry history_option = false
  /\ (forall fuel, updateFields_call fuel history_option (fun _ => sample_message)
                   = OutOfFuel)
  /\ exists self',
       updateFields_history history_option = Returned self'
       /\ updateFields_history self' = Returned self'
       /\ buyPrice self' = last (buyHistory history_option) 0
       /\ sellPrice self' = last (sellHistory history_option) 0
       /\ underlying self' = underlyingHistory history_option.
Proof.
  assert (E : doExpiry history_option = false) by reflexivity.
  assert (Hb : buyHistory history_option <> []) by discriminate.
  assert (Hs : sellHistory history_option <> []) by discriminate.
  split; [exact E |].
  exact (proj2 (updateFields_follows_history history_option (fun _ => sample_message) E)
           Hb Hs).
Defined.

(** * The constructor on whole inputs *)

Section ConstructorRuns.
Variable py_float : string -> outcome R.

Lemma parse_inv (rateTable : dict R) (nm : string) (u : R) (terms : ContractTerms) :
  parse py_float rateTable nm u = Returned terms ->
  exists c0 c1,
    parse_strike py_float nm = Returned (ct_strike terms)
    /\ parse_countries nm = Returned (ct_countries terms)
    /\ u <> 0 /\ ct_conversionFactor terms = 1 / u
    /\ py_index (ct_countries terms) 0 = Returned c0
    /\ dict_get rateTable c0 = Returned (ct_domestic terms)
    /\ py_index (ct_countries terms) 1 = Returned c1
    /\ dict_get rateTable c1 = Returned (ct_foreign terms).
Proof.
  unfold parse.
  destruct (parse_strike py_float nm) as [k | |]; cbn [bind]; try discriminate.
  destruct (parse_countries nm) as [cs | |]; cbn [bind]; try discriminate.
  unfold py_div. destruct (Req_dec_T u 0) as [Hz | Hz]; cbn [bind]; try discriminate.
  destruct (py_index cs 0) as [c0 | |] eqn:H0; cbn [bind]; try discriminate.
  destruct (dict_get rateTable c0) as [rd | |] eqn:Hd; cbn [bind]; try discriminate.
  destruct (py_index cs 1) as [c1 | |] eqn:H1; cbn [bind]; try discriminate.
  destruct (dict_get rateTable c1) as [rf | |] eqn:Hf; cbn [bind]; try discriminate.
  intro H. inversion H; subst. cbn.
  exists c0, c1. repeat split; assumption.
Qed.

Lemma py_index_neg_returned {A : Type} (l : list A) (i : nat) (a : A) :
  py_index_neg l i = Returned a -> (i <= List.length l)%nat.
Proof.
  unfold py_index_neg. destruct (Nat.leb i (List.length l)) eqn:E; [| discriminate].
  intros _. apply Nat.leb_le. exact E.
Qed.

Lemma parse_strike_countries (nm : string) (k : R) :
  parse_strike py_float nm = Returned k ->
  exists cs, parse_countries nm = Returned cs.
Proof.
  unfold parse_strike, parse_countries.
  destruct (py_index_neg (py_split " " nm) 2) as [f | |] eqn:E; cbn [bind];
    try discriminate.
  intros _. apply py_index_neg_returned in E.
  unfold py_index.
  destruct (py_split " " nm) as [| a l]; [simpl in E; lia |].
  cbn. eexists. reflexivity.
Qed.

End ConstructorRuns.

(** X19: the constructor succeeds on every well-formed input, floats being
    modelled as reals: when the pipe argument is a tuple or a list (what
    [Process] accepts as [args]), lines 32 to 36 derive contract terms with
    a positive strike, the time to expiry is positive and the underlying
    (the indicative when it is a float, the exchange rate otherwise) is
    positive, [__init__] returns an object that stores the arguments and
    the parsed terms, has doExpiry set exactly when the indicative is a
    float, conversionFactor = 1/underlying, a volatility strictly between
    0.01 and 300, d1 the Garman-Kohlhagen d1 at that volatility,
    d2 = d1 - volatility*sqrt(expiry) and the three products. *)
Theorem constructor_returns (py_float : string -> outcome R) (nm : string)
    (buy sell exchangeRate expireTime : R) (indicative : option R) (n : nat)
    (bh sh : list R) (uh : R) (terms : ContractTerms) :
  parse py_float riskFreeRates nm
    match indicative with Some x => x | None => exchangeRate end = Returned terms ->
  0 < ct_strike terms -> 0 < expireTime ->
  0 < match indicative with Some x => x | None => exchangeRate end ->
  exists fuel self,
    init py_float fuel nm buy sell exchangeRate expireTime indicative (Arguments n)
      bh sh uh = Constructed self
    /\ untouched
         (mkCurrencyOption nm buy sell bh sh uh expireTime
            match indicative with Some _ => true | None => false end
            match indicative with Some x => x | None => exchangeRate end
            (ct_strike terms) (ct_countries terms)
            (1 / match indicative with Some x => x | None => exchangeRate end)
            (ct_domestic terms) (ct_foreign terms) 0 0 0 0 0 0)
         self
    /\ 0.01 < volatility self < 300
    /\ d1 self = gk_d1 (underlying self) (strike self) (r_domestic self)
                   (r_foreign self) (expiry self) (volatility self)
    /\ d2 self = d1 self - volatility self * sqrt (expiry self)
    /\ d1Squared self = d1 self * d1 self
    /\ d1d2 self = d1 self * d2 self
    /\ d2Squared self = d2 self * d2 self.
Proof.
  intros Hparse Hk HT Hu.
  destruct (parse_inv py_float _ _ _ _ Hparse)
    as (c0 & c1 & Hs & Hc & _ & _ & H0 & Hd & H1 & Hf).
  set (u := match indicative with Some x => x | None => exchangeRate end) in *.
  set (self0 := mkCurrencyOption nm buy sell bh sh uh expireTime
            match indicative with Some _ => true | None => false end u
            (ct_strike terms) (ct_countries terms) (1 / u)
            (ct_domestic terms) (ct_foreign terms) 0 0 0 0 0 0).
  destruct (calculateVolatility_terminates self0 0.05) as (fuel & self' & vol & Hcal);
    try (unfold self0; read_fields; lra).
  exists fuel, (set_volatility self' vol).
  destruct (calculateVolatility_model fuel self0 0.05 self' vol Hcal)
    as (Hr & Hv & Hd1 & Hd2 & Hs1 & Hs2 & Hs3).
  assert (Hun := calculateVolatility_untouched fuel self0 0.05 self' vol Hcal).
  split.
  - unfold init, init_body. rewrite Hs, Hc. cbn [bind].
    fold u. rewrite py_div_returns by lra. cbn [bind].
    rewrite H0. cbn [bind]. rewrite Hd. cbn [bind].
    rewrite H1. cbn [bind]. rewrite Hf. cbn [bind].
    fold self0. rewrite Hcal. reflexivity.
  - split.
    { eapply untouched_trans; [exact Hun |]. destruct self'; repeat split. }
    read_fields.
    destruct Hun as ((_ & _ & _ & HT' & Hu' & Hk' & _ & _ & Hrd & Hrf) & _).
    rewrite <- HT', <- Hu', <- Hk', <- Hrd, <- Hrf.
    split; [exact Hr |].
    split; [exact Hd1 |].
    split; [exact Hd2 |].
    split; [exact Hs1 |].
    split; [exact Hs2 | exact Hs3].
Qed.

Lemma constructor_returns_witness :
  (parse (fun _ : string => Returned 1.1) riskFreeRates "EUR/USD >1.1000 (3PM)" 1.105
   = Returned (mkContractTerms 1.1 ["EUR"%string; "USD"%string] (1 / 1.105)
                 0.0256 0.0252)
   /\ 0 < 1.1 /\ 0 < 0.0833 /\ 0 < 1.105)
  /\ exists fuel self,
       init (fun _ : string => Returned 1.1) fuel "EUR/USD >1.1000 (3PM)" 50.0 45.0
         1.2 0.0833 (Some 1.105) (Arguments 1) [50.0] [45.0] 1.105 = Constructed self
       /\ untouched
            (mkCurrencyOption "EUR/USD >1.1000 (3PM)" 50.0 45.0 [50.0] [45.0] 1.105
               0.0833 true 1.105 1.1 ["EUR"%string; "USD"%string] (1 / 1.105)
               0.0256 0.0252 0 0 0 0 0 0)
            self
       /\ 0.01 < volatility self < 300
       /\ d1 self = gk_d1 (underlying self) (strike self) (r_domestic self)
                      (r_foreign self) (expiry self) (volatility self)
       /\ d2 self = d1 self - volatility self * sqrt (expiry self)
       /\ d1Squared self = d1 self * d1 self
       /\ d1d2 self = d1 self * d2 self
       /\ d2Squared self = d2 self * d2 self.
Proof.
  assert (Hp : parse (fun _ : string => Returned 1.1) riskFreeRates
                 "EUR/USD >1.1000 (3PM)" 1.105
               = Returned (mkContractTerms 1.1 ["EUR"%string; "USD"%string]
                             (1 / 1.105) 0.0256 0.0252)).
  { unfold parse. cbn [parse_strike parse_countries py_split py_index_neg py_index
                       bind]. cbn. rewrite py_div_returns by lra. reflexivity. }
  assert (H1 : 0 < 1.1) by lra.
  assert (H2 : 0 < 0.0833) by lra.
  assert (H3 : 0 < 1.105) by lra.
  split; [repeat split; assumption |].
  exact (constructor_returns (fun _ : string => Returned 1.1) "EUR/USD >1.1000 (3PM)"
           50.0 45.0 1.2 0.0833 (Some 1.105) 1 [50.0] [45.0] 1.105
           (mkContractTerms 1.1 ["EUR"%string; "USD"%string] (1 / 1.105) 0.0256 0.0252)
           Hp H1 H2 H3).
Defined.

(** X20: when the pipe argument is a tuple or a list, an underlying of 0
    (the indicative when it is a float, the exchange rate otherwise) makes
    the constructor raise ZeroDivisionError as soon as the strike parses:
    the division 1/underlying comes before the rate look-ups, so this holds
    also for currency codes the rate table lacks. *)
Theorem constructor_zero_underlying (py_float : string -> outcome R) (fuel : nat)
    (nm : string) (buy sell exchangeRate expireTime : R) (indicative : option R)
    (n : nat) (bh sh : list R) (uh k : R) :
  parse_strike py_float nm = Returned k ->
  match indicative with Some x => x | None => exchangeRate end = 0 ->
  init py_float fuel nm buy sell exchangeRate expireTime indicative (Arguments n)
    bh sh uh = ConstructRaised ZeroDivisionError.
Proof.
  intros Hs Hu.
  destruct (parse_strike_countries py_float nm k Hs) as [cs Hc].
  unfold init, init_body. rewrite Hs, Hc. cbn [bind]. rewrite Hu, py_div_zero.
  reflexivity.
Qed.

Lemma constructor_zero_underlying_witness :
  (parse_strike (fun _ : string => Returned 1.1) "XXX/YYY >1.1000 (3PM)"
   = Returned 1.1
   /\ match @None R with Some x => x | None => 0 end = 0)
  /\ init (fun _ : string => Returned 1.1) 1 "XXX/YYY >1.1000 (3PM)" 50.0 45.0 0
       0.0833 None (Arguments 1) [50.0] [45.0] 1.105
     = ConstructRaised ZeroDivisionError.
Proof.
  assert (Hp : parse_strike (fun _ : string => Returned 1.1) "XXX/YYY >1.1000 (3PM)"
               = Returned 1.1) by reflexivity.
  assert (Hu : match @None R with Some x => x | None => 0 end = 0) by reflexivity.
  split; [split; assumption |].
  exact (constructor_zero_underlying (fun _ : string => Returned 1.1) 1
           "XXX/YYY >1.1000 (3PM)" 50.0 45.0 0 0.0833 None 1 [50.0] [45.0] 1.105 1.1
           Hp Hu).
Defined.

(** X21: what the constructor raises before anything is parsed: with a
    connection end as pipe argument it raises TypeError, whatever the other
    arguments, because [args=(pipe)] is no tuple and a connection is not
    iterable; with a tuple or a list as pipe argument, a name without a
    space makes it raise IndexError, whatever the other arguments and
    whatever [float] does, since the name then has a single field and the
    index -2 is out of range. *)
Theorem constructor_raises_before_parsing (py_float : string -> outcome R)
    (fuel : nat) (nm : string) (buy sell exchangeRate expireTime : R)
    (indicative : option R) (bh sh : list R) (uh : R) :
  init py_float fuel nm buy sell exchangeRate expireTime indicative Connection
    bh sh uh = ConstructTypeError
  /\ (has_char " " nm = false ->
      forall n,
        init py_float fuel nm buy sell exchangeRate expireTime indicative
          (Arguments n) bh sh uh = ConstructRaised IndexError).
Proof.
  split; [reflexivity |].
  intros H n. unfold init, init_body, parse_strike.
  rewrite (py_split_free " " nm H). reflexivity.
Qed.

Lemma constructor_raises_before_parsing_witness :
  has_char " " "EUR/USD" = false
  /\ init (fun _ : string => Returned 1.1) 1 "EUR/USD" 50.0 45.0 1.2 0.0833
       (Some 1.105) (Arguments 1) [50.0] [45.0] 1.105 = ConstructRaised IndexError.
Proof.
  assert (H : has_char " " "EUR/USD" = false) by reflexivity.
  split; [exact H |].
  exact (proj2 (constructor_raises_before_parsing (fun _ : string => Returned 1.1) 1
                  "EUR/USD" 50.0 45.0 1.2 0.0833 (Some 1.105) [50.0] [45.0] 1.105)
           H 1%nat).
Defined.

(** * The watch list *)

Lemma string_app_assoc (a b c : string) : ((a ++ b) ++ c = a ++ (b ++ c))%string.
Proof. induction a as [| x a IH]; [reflexivity | cbn; rewrite IH; reflexivity]. Qed.

Lemma page_text_from (cells : list string) (text : string) :
  fold_left (fun text c => (text ++ (c ++ ","))%string) cells text
  = (text ++ page_text cells)%string.
Proof.
  revert text. induction cells as [| c rest IH]; intro text.
  - cbn. induction text as [| x t IHt]; [reflexivity | cbn; rewrite <- IHt; reflexivity].
  - unfold page_text. cbn [fold_left]. rewrite IH, (IH (EmptyString ++ (c ++ ","))%string).
    cbn [append]. rewrite string_app_assoc. reflexivity.
Qed.

Lemma page_text_cons (c : string) (rest : list string) :
  page_text (c :: rest) = (c ++ String "," (page_text rest))%string.
Proof.
  unfold page_text at 1. cbn [fold_left]. rewrite page_text_from.
  cbn [append]. rewrite string_app_assoc. reflexivity.
Qed.

(** Splitting the page text gives the cells back, and one empty string. *)
Lemma py_split_page_text (cells : list string) :
  Forall (fun c => has_char "," c = false) cells ->
  py_split "," (page_text cells) = cells ++ [EmptyString].
Proof.
  induction 1 as [| c rest Hc _ IH]; [reflexivity |].
  rewrite page_text_cons, py_split_app by exact Hc. rewrite IH. reflexivity.
Qed.

Section WatchlistFacts.
Variable py_float : string -> outcome R.

Lemma convert_prices_length (l : list string) (vs : list cell) :
  convert_prices py_float l = Returned vs -> List.length vs = List.length l.
Proof.
  revert vs. induction l as [| c rest IH]; intros vs H.
  - inversion H. reflexivity.
  - cbn [convert_prices] in H.
    destruct (convert_price py_float c) as [v | |]; cbn [bind] in H; try discriminate.
    destruct (convert_prices py_float rest) as [vs' | |]; cbn [bind] in H;
      try discriminate.
    inversion H. cbn. f_equal. apply IH. reflexivity.
Qed.

Lemma getPrices_page_raw (fuel : nat) (cells : list string) :
  Forall (fun c => has_char "," c = false) cells ->
  getPrices py_float fuel (page_text cells) false = convert_prices py_float cells.
Proof.
  intro H. unfold getPrices. rewrite (py_split_page_text cells H).
  unfold py_del_last.
  destruct (cells ++ [EmptyString]) as [| a l] eqn:E.
  - destruct cells; discriminate.
  - rewrite <- E, removelast_last. cbn [bind].
    destruct cells as [| c rest]; [reflexivity |].
    destruct (convert_prices py_float (c :: rest)); reflexivity.
Qed.

Lemma py_index_middle {A : Type} (p r : list A) (a : A) :
  py_index (p ++ a :: r) (List.length p) = Returned a.
Proof.
  unfold py_index. rewrite nth_error_app2 by lia.
  replace (List.length p - List.length p)%nat with 0%nat by lia. reflexivity.
Qed.

Lemma del_slice_middle {A : Type} (p r : list A) (n : nat) :
  del_slice (p ++ r) (List.length p) (List.length p + n) = p ++ skipn n r.
Proof.
  unfold del_slice. rewrite firstn_app, skipn_app.
  replace (List.length p - List.length p)%nat with 0%nat by lia.
  replace (List.length p + n - List.length p)%nat with n by lia.
  rewrite firstn_all, firstn_O, app_nil_r.
  rewrite skipn_all2 by lia. reflexivity.
Qed.

Lemma clean_prices_from (fuel : nat) :
  forall (p r : list cell),
    (List.length r < fuel)%nat ->
    clean_prices fuel (p ++ r) (List.length p) = Returned (p ++ drop_unpriced r).
Proof.
  induction fuel as [| fuel IH]; intros p r Hf; [lia |].
  cbn [clean_prices]. rewrite length_app.
  destruct r as [| a r'].
  - cbn [List.length]. replace (Nat.ltb _ _) with false
      by (symmetry; apply Nat.ltb_ge; lia).
    reflexivity.
  - cbn [List.length] in *. replace (Nat.ltb _ _) with true
      by (symmetry; apply Nat.ltb_lt; lia).
    rewrite py_index_middle. cbn [bind].
    destruct a as [x | s]; cbn [is_float negb].
    + destruct r' as [| b r''].
      * destruct fuel as [| fuel']; [lia |].
        cbn [clean_prices]. rewrite length_app. cbn [List.length].
        replace (Nat.ltb _ _) with false by (symmetry; apply Nat.ltb_ge; lia).
        reflexivity.
      * replace (p ++ Float x :: b :: r'') with ((p ++ [Float x; b]) ++ r'')
          by (rewrite <- app_assoc; reflexivity).
        replace (List.length p + 2)%nat with (List.length (p ++ [Float x; b]))
          by (rewrite length_app; reflexivity).
        rewrite IH by (cbn [List.length] in Hf; lia).
        rewrite <- app_assoc. reflexivity.
    + rewrite del_slice_middle.
      rewrite IH.
      * destruct r' as [| b r'']; reflexivity.
      * destruct r' as [| b r'']; cbn [skipn List.length] in *; lia.
Qed.

Lemma clean_prices_returns (priceList : list cell) (fuel : nat) :
  (List.length priceList < fuel)%nat ->
  clean_prices fuel priceList 0 = Returned (drop_unpriced priceList).
Proof. intro H. exact (clean_prices_from fuel [] priceList H). Qed.

Lemma drop_unpriced_ind (P : list cell -> Prop) :
  P [] -> (forall a, P [a]) ->
  (forall a b rest, P rest -> P (a :: b :: rest)) ->
  forall l, P l.
Proof.
  intros H0 H1 H2.
  assert (H : forall l, P l /\ forall a, P (a :: l)).
  { induction l as [| b l [IHl IHa]]; [split; auto |].
    split; [apply IHa |]. intro a. apply H2. exact IHl. }
  intro l. apply H.
Qed.

Lemma drop_unpriced_even (l : list cell) :
  forall i c, nth_error (drop_unpriced l) (2 * i) = Some c -> is_float c = true.
Proof.
  induction l as [| a | a b rest IH] using drop_unpriced_ind; intros i c H.
  - destruct i; discriminate.
  - cbn [drop_unpriced] in H. destruct (is_float a) eqn:E.
    + destruct i as [| i]; [inversion H; subst; exact E |].
      replace (2 * S i)%nat with (S (S (2 * i))) in H by lia. discriminate.
    + destruct i; discriminate.
  - cbn [drop_unpriced] in H. destruct (is_float a) eqn:E.
    + destruct i as [| i]; [inversion H; subst; exact E |].
      replace (2 * S i)%nat with (S (S (2 * i))) in H by lia.
      cbn [nth_error] in H. eapply IH. exact H.
    + eapply IH. exact H.
Qed.

Lemma drop_unpriced_length (l : list cell) :
  (List.length (drop_unpriced l) <= List.length l)%nat.
Proof.
  induction l as [| a | a b rest IH] using drop_unpriced_ind; cbn [drop_unpriced].
  - lia.
  - destruct (is_float a); cbn; lia.
  - destruct (is_float a); cbn [List.length]; lia.
Qed.

Lemma drop_unpriced_idempotent (l : list cell) :
  drop_unpriced (drop_unpriced l) = drop_unpriced l.
Proof.
  induction l as [| a | a b rest IH] using drop_unpriced_ind; cbn [drop_unpriced].
  - reflexivity.
  - destruct (is_float a) eqn:E; cbn [drop_unpriced]; [rewrite E |]; reflexivity.
  - destruct (is_float a) eqn:E; [| exact IH].
    cbn [drop_unpriced]. rewrite E, IH. reflexivity.
Qed.

End WatchlistFacts.

Section ScannerFacts.
Variable py_float : string -> outcome R.

Lemma py_index_In {A : Type} (l : list A) (i : nat) (a : A) :
  py_index l i = Returned a -> In a l /\ (i < List.length l)%nat.
Proof.
  unfold py_index. destruct (nth_error l i) as [x |] eqn:E; [| discriminate].
  intro H. inversion H; subst. split; [eapply nth_error_In; exact E |].
  apply nth_error_Some. congruence.
Qed.

Lemma py_index_outcome {A : Type} (l : list A) (i : nat) :
  (exists a, py_index l i = Returned a) \/ py_index l i = Raised IndexError.
Proof.
  unfold py_index. destruct (nth_error l i); [left; eexists; reflexivity | right; reflexivity].
Qed.

Lemma float_of_outcome (prices : list cell) (c : cell) :
  unparsed py_float prices -> In c prices ->
  (exists x, float_of py_float c = Returned x) \/ float_of py_float c = Raised ValueError.
Proof.
  intros Hu Hin. destruct c as [x | s]; [left; exists x; reflexivity |].
  right. apply Hu. exact Hin.
Qed.

(** With fewer than two prices per name the loop ends in an error. *)
Lemma scanner_loop_raises (fuel : nat) :
  forall (names : list string) (prices : list cell) (spread : R) (n : nat)
         (printed : list scan_row),
    unparsed py_float prices ->
    (List.length prices < 2 * List.length names)%nat ->
    (2 * n <= List.length prices)%nat ->
    (List.length names - n < fuel)%nat ->
    scanner_loop py_float fuel names prices spread n (2 * n) printed = Raised IndexError
    \/ scanner_loop py_float fuel names prices spread n (2 * n) printed
       = Raised ValueError.
Proof.
  induction fuel as [| fuel IH]; intros names prices spread n printed Hu Hlen Hn Hf;
    [lia |].
  cbn [scanner_loop].
  replace (Nat.ltb n (List.length names)) with true
    by (symmetry; apply Nat.ltb_lt; lia).
  destruct (py_index_outcome prices (2 * n)) as [[a Ha] | Ha]; rewrite Ha; cbn [bind];
    [| left; reflexivity].
  destruct (py_index_In _ _ _ Ha) as [Hina _].
  destruct (float_of_outcome prices a Hu Hina) as [[x Hx] | Hx]; rewrite Hx; cbn [bind];
    [| right; reflexivity].
  destruct (py_index_outcome prices (2 * n + 1)) as [[b Hb] | Hb]; rewrite Hb;
    cbn [bind]; [| left; reflexivity].
  destruct (py_index_In _ _ _ Hb) as [Hinb Hlt].
  destruct (float_of_outcome prices b Hu Hinb) as [[y Hy] | Hy]; rewrite Hy; cbn [bind];
    [| right; reflexivity].
  cbv zeta.
  assert (Hnm : exists nm, py_index names n = Returned nm).
  { destruct (py_index_outcome names n) as [H | H]; [exact H |].
    unfold py_index in H. destruct (nth_error names n) eqn:E; [discriminate |].
    apply nth_error_None in E. lia. }
  destruct Hnm as [nm Hnm].
  replace (2 * n + 2)%nat with (2 * (n + 1))%nat by lia.
  destruct (Rleb (Rabs (x - y)) spread); [rewrite Hnm |]; cbn [bind];
    apply IH; try assumption; lia.
Qed.

Lemma convert_prices_returns (l : list string) :
  (forall c, In c l ->
     (exists x, py_float c = Returned x) \/ py_float c = Raised ValueError) ->
  exists vs, convert_prices py_float l = Returned vs /\ Forall2 (price_cell py_float) l vs.
Proof.
  induction l as [| c rest IH]; intro Hok.
  - exists []. split; [reflexivity | constructor].
  - destruct IH as (vs & Hvs & HF); [intros c' Hc'; apply Hok; right; exact Hc' |].
    cbn [convert_prices]. unfold convert_price.
    destruct (Hok c (or_introl eq_refl)) as [[x Hx] | Hx]; rewrite Hx; cbn [bind];
      rewrite Hvs; cbn [bind].
    + exists (Float x :: vs). split; [reflexivity |].
      constructor; [left; exists x; split; [reflexivity | exact Hx] | exact HF].
    + exists (Str c :: vs). split; [reflexivity |].
      constructor; [right; split; [reflexivity | exact Hx] | exact HF].
Qed.

Lemma Forall2_nth_error {A B : Type} (R : A -> B -> Prop) (l : list A) (l' : list B) :
  Forall2 R l l' ->
  forall i a, nth_error l i = Some a -> exists b, nth_error l' i = Some b /\ R a b.
Proof.
  induction 1 as [| a0 b0 l l' Hab _ IH]; intros i a Hi.
  - destruct i; discriminate.
  - destruct i as [| i]; cbn in Hi.
    + inversion Hi; subst. exists b0. split; [reflexivity | exact Hab].
    + apply IH. exact Hi.
Qed.

Lemma Forall2_In_r {A B : Type} (R : A -> B -> Prop) (l : list A) (l' : list B) :
  Forall2 R l l' -> forall b, In b l' -> exists a, In a l /\ R a b.
Proof.
  induction 1 as [| a0 b0 l l' Hab _ IH]; intros b Hb; [contradiction |].
  destruct Hb as [<- | Hb].
  - exists a0. split; [left; reflexivity | exact Hab].
  - destruct (IH b Hb) as (a & Ha & HR). exists a. split; [right; exact Ha | exact HR].
Qed.

Lemma drop_unpriced_In (l : list cell) (c : cell) :
  In c (drop_unpriced l) -> In c l.
Proof.
  induction l as [| a | a b rest IH] using drop_unpriced_ind; cbn [drop_unpriced].
  - intro H. exact H.
  - destruct (is_float a); intro H; [exact H | contradiction].
  - destruct (is_float a); intro H.
    + destruct H as [<- | [<- | H]]; [left; reflexivity | right; left; reflexivity |].
      right. right. apply IH. exact H.
    + right. right. apply IH. exact H.
Qed.

Lemma drop_unpriced_shrinks (l : list cell) :
  forall i c, nth_error l (2 * i) = Some c -> is_float c = false ->
              (List.length (drop_unpriced l) < List.length l)%nat.
Proof.
  induction l as [| a | a b rest IH] using drop_unpriced_ind; intros i c Hi Hc.
  - destruct i; discriminate.
  - destruct i as [| i].
    + inversion Hi; subst. cbn [drop_unpriced]. rewrite Hc. cbn. lia.
    + replace (2 * S i)%nat with (S (S (2 * i))) in Hi by lia. discriminate.
  - cbn [drop_unpriced]. assert (Hle := drop_unpriced_length rest).
    destruct i as [| i].
    + inversion Hi; subst. rewrite Hc. cbn [List.length]. lia.
    + replace (2 * S i)%nat with (S (S (2 * i))) in Hi by lia. cbn [nth_error] in Hi.
      assert (Hlt := IH i c Hi Hc).
      destruct (is_float a); cbn [List.length]; lia.
Qed.

Lemma drop_unpriced_keeps (l : list cell) :
  forall i c, nth_error l (2 * i) = Some c -> is_float c = true ->
              drop_unpriced l <> [].
Proof.
  induction l as [| a | a b rest IH] using drop_unpriced_ind; intros i c Hi Hc.
  - destruct i; discriminate.
  - destruct i as [| i].
    + inversion Hi; subst. cbn [drop_unpriced]. rewrite Hc. discriminate.
    + replace (2 * S i)%nat with (S (S (2 * i))) in Hi by lia. discriminate.
  - cbn [drop_unpriced].
    destruct i as [| i].
    + inversion Hi; subst. rewrite Hc. discriminate.
    + replace (2 * S i)%nat with (S (S (2 * i))) in Hi by lia. cbn [nth_error] in Hi.
      destruct (is_float a); [discriminate | exact (IH i c Hi Hc)].
Qed.

Lemma getOptionNames_page (ns : list string) :
  Forall (fun c => has_char "," c = false) ns ->
  getOptionNames (page_text ns) = Returned ns.
Proof.
  intro H. unfold getOptionNames. rewrite (py_split_page_text ns H).
  unfold py_del_last.
  destruct (ns ++ [EmptyString]) as [| a l] eqn:E; [destruct ns; discriminate |].
  rewrite <- E, removelast_last. reflexivity.
Qed.

Lemma getPrices_page_clean (fuel : nat) (ps : list string) (vs : list cell) :
  Forall (fun c => has_char "," c = false) ps ->
  convert_prices py_float ps = Returned vs ->
  (List.length ps < fuel)%nat ->
  getPrices py_float fuel (page_text ps) true = Returned (drop_unpriced vs).
Proof.
  intros H Hvs Hf. unfold getPrices. rewrite (py_split_page_text ps H).
  unfold py_del_last.
  destruct (ps ++ [EmptyString]) as [| a l] eqn:E; [destruct ps; discriminate |].
  rewrite <- E, removelast_last. cbn [bind].
  destruct ps as [| c rest].
  - cbn in Hvs. inversion Hvs. reflexivity.
  - rewrite Hvs. cbn [bind]. apply clean_prices_returns.
    rewrite (convert_prices_length py_float _ _ Hvs). exact Hf.
Qed.

End ScannerFacts.

Section CleanNames.
Variable py_float : string -> outcome R.

Lemma py_del_outcome {A : Type} (l : list A) (i : nat) :
  (exists l', py_del l i = Returned l') \/ py_del l i = Raised IndexError.
Proof.
  unfold py_del. destruct (Nat.ltb i (List.length l));
    [left; eexists; reflexivity | right; reflexivity].
Qed.

(** A float at an even position, not yet passed, stops the loop. *)
Lemma clean_names_priced (fuel : nat) :
  forall (nameList : list string) (priceList : list cell) (m j : nat) (x : R),
    nth_error priceList (2 * j) = Some (Float x) ->
    (m <= j)%nat -> (j - m < fuel)%nat ->
    clean_names fuel nameList priceList (2 * m) = NamesTypeError
    \/ clean_names fuel nameList priceList (2 * m) = NamesRaised IndexError.
Proof.
  induction fuel as [| fuel IH]; intros nameList priceList m j x Hj Hm Hf; [lia |].
  assert (Hlen : (2 * j < List.length priceList)%nat).
  { apply nth_error_Some. congruence. }
  cbn [clean_names].
  replace (Nat.ltb (2 * m) (List.length priceList)) with true
    by (symmetry; apply Nat.ltb_lt; lia).
  cbv zeta.
  destruct (Nat.eq_dec m j) as [-> | Hne].
  { unfold py_index at 1. rewrite Hj. left. reflexivity. }
  assert (Hnext : forall nl,
            clean_names fuel nl priceList (2 * m + 2) = NamesTypeError
            \/ clean_names fuel nl priceList (2 * m + 2) = NamesRaised IndexError).
  { intro nl. replace (2 * m + 2)%nat with (2 * (m + 1))%nat by lia.
    apply (IH nl priceList (m + 1)%nat j x Hj); lia. }
  assert (Hdel : match py_del nameList (Nat.div (2 * m) 2) with
                 | Returned nameList' =>
                     clean_names fuel nameList' priceList (2 * m + 2)
                 | Raised e => NamesRaised e
                 | OutOfFuel => NamesOutOfFuel
                 end = NamesTypeError
                 \/ match py_del nameList (Nat.div (2 * m) 2) with
                    | Returned nameList' =>
                        clean_names fuel nameList' priceList (2 * m + 2)
                    | Raised e => NamesRaised e
                    | OutOfFuel => NamesOutOfFuel
                    end = NamesRaised IndexError).
  { destruct (py_del_outcome nameList (Nat.div (2 * m) 2)) as [[nl ->] | ->];
      [apply Hnext | right; reflexivity]. }
  destruct (py_index_outcome priceList (2 * m)) as [[a Ha] | Ha]; rewrite Ha;
    [| right; reflexivity].
  destruct a as [y | a]; [left; reflexivity |].
  destruct (Nat.ltb (String.length a) 4); [exact Hdel |].
  destruct (py_index_outcome priceList (2 * m + 1)) as [[b Hb] | Hb]; rewrite Hb;
    [| right; reflexivity].
  destruct b as [y | b]; [left; reflexivity |].
  destruct (Nat.ltb (String.length b) 4); [exact Hdel | apply Hnext].
Qed.

Lemma getIndicatives_page (cells : list string) :
  Forall (fun c => has_char "," c = false) cells ->
  getIndicatives py_float (page_text cells)
  = (vs <- convert_indicatives py_float cells ;; Returned (vs ++ [Str EmptyString])).
Proof.
  intro H. unfold getIndicatives. rewrite (py_split_page_text cells H).
  clear H. induction cells as [| c rest IH]; [reflexivity |].
  cbn [app convert_indicatives].
  destruct (has_char "." c).
  - destruct (py_float c) as [x | e |]; cbn [bind]; try reflexivity.
    rewrite IH. destruct (convert_indicatives py_float rest); reflexivity.
  - cbn [bind]. rewrite IH. destruct (convert_indicatives py_float rest); reflexivity.
Qed.

Lemma convert_indicatives_inv (cells : list string) (vs : list cell) :
  convert_indicatives py_float cells = Returned vs -> Forall2 (indicative_cell py_float) cells vs.
Proof.
  revert vs. induction cells as [| c rest IH]; intros vs H.
  - inversion H. constructor.
  - cbn [convert_indicatives] in H.
    destruct (has_char "." c) eqn:E.
    + destruct (py_float c) as [x | e |] eqn:Hx; cbn [bind] in H; try discriminate.
      destruct (convert_indicatives py_float rest) as [vs' | |]; cbn [bind] in H;
        try discriminate.
      inversion H. constructor; [| apply IH; reflexivity].
      unfold indicative_cell. rewrite E. exists x. split; [reflexivity | exact Hx].
    + cbn [bind] in H.
      destruct (convert_indicatives py_float rest) as [vs' | |]; cbn [bind] in H;
        try discriminate.
      inversion H. constructor; [| apply IH; reflexivity].
      unfold indicative_cell. rewrite E. reflexivity.
Qed.

Lemma convert_indicatives_returns (cells : list string) :
  (forall c, In c cells -> has_char "." c = true -> exists x, py_float c = Returned x) ->
  exists vs, convert_indicatives py_float cells = Returned vs.
Proof.
  induction cells as [| c rest IH]; intro Hok; [exists []; reflexivity |].
  destruct IH as [vs Hvs]; [intros c' Hc'; apply Hok; right; exact Hc' |].
  cbn [convert_indicatives]. rewrite Hvs.
  destruct (has_char "." c) eqn:E.
  - destruct (Hok c (or_introl eq_refl) E) as [x Hx]. rewrite Hx. cbn [bind].
    eexists. reflexivity.
  - cbn [bind]. eexists. reflexivity.
Qed.

End CleanNames.

Section ScannerPriced.
Variable py_float : string -> outcome R.

Lemma drop_unpriced_priced (l : list cell) :
  Forall (fun c => is_float c = true) l -> drop_unpriced l = l.
Proof.
  induction l as [| a | a b rest IH] using drop_unpriced_ind; intro H.
  - reflexivity.
  - inversion H; subst. cbn [drop_unpriced]. rewrite H2. reflexivity.
  - inversion H as [| ? ? Ha H']; subst. inversion H' as [| ? ? Hb H'']; subst.
    cbn [drop_unpriced]. rewrite Ha, (IH H''). reflexivity.
Qed.

Lemma scanner_loop_priced (spread : R) (nr : list string) :
  forall (fuel : nat) (np : list string) (pp pr : list cell) (printed : list scan_row),
    List.length pp = (2 * List.length np)%nat ->
    List.length pr = (2 * List.length nr)%nat ->
    Forall (fun c => is_float c = true) pr ->
    (List.length nr < fuel)%nat ->
    scanner_loop py_float fuel (np ++ nr) (pp ++ pr) spread (List.length np)
      (2 * List.length np) printed
    = Returned (printed ++ scan_rows nr pr spread).
Proof.
  induction nr as [| nm nr' IH]; intros fuel np pp pr printed Hpp Hpr Hfl Hf;
    (destruct fuel as [| fuel]; [cbn in Hf; lia |]); cbn [scanner_loop].
  - rewrite app_nil_r.
    replace (Nat.ltb _ _) with false by (symmetry; apply Nat.ltb_ge; lia).
    rewrite app_nil_r. reflexivity.
  - rewrite length_app. cbn [List.length] in *.
    replace (Nat.ltb _ _) with true by (symmetry; apply Nat.ltb_lt; lia).
    destruct pr as [| a [| b pr']]; cbn [List.length] in Hpr; try lia.
    inversion Hfl as [| ? ? Ha Hfl']; subst. inversion Hfl' as [| ? ? Hb Hfl'']; subst.
    destruct a as [x | ?]; [| discriminate]. destruct b as [y | ?]; [| discriminate].
    rewrite <- Hpp. rewrite py_index_middle. cbn [bind float_of].
    replace (pp ++ Float x :: Float y :: pr') with ((pp ++ [Float x]) ++ Float y :: pr')
      by (rewrite <- app_assoc; reflexivity).
    replace (List.length pp + 1)%nat with (List.length (pp ++ [Float x]))
      by (rewrite length_app; reflexivity).
    rewrite py_index_middle. cbn [bind float_of]. cbv zeta.
    rewrite py_index_middle.
    replace ((pp ++ [Float x]) ++ Float y :: pr') with ((pp ++ [Float x; Float y]) ++ pr')
      by (rewrite <- !app_assoc; reflexivity).
    replace (np ++ nm :: nr') with ((np ++ [nm]) ++ nr')
      by (rewrite <- app_assoc; reflexivity).
    replace (List.length np + 1)%nat with (List.length (np ++ [nm]))
      by (rewrite length_app; reflexivity).
    replace (List.length pp + 2)%nat with (2 * List.length (np ++ [nm]))%nat
      by (rewrite !length_app; cbn [List.length]; lia).
    cbn [scan_rows].
    destruct (Rleb (Rabs (x - y)) spread); cbn [bind].
    + rewrite IH; [rewrite <- !app_assoc; reflexivity | | | assumption | lia].
      * rewrite !length_app. cbn [List.length]. lia.
      * lia.
    + rewrite IH; [reflexivity | | | assumption | lia].
      * rewrite !length_app. cbn [List.length]. lia.
      * lia.
Qed.

Lemma scan_rows_within (spread : R) (names : list string) :
  forall prices, Forall (fun r => row_differential r <= spread)
                   (scan_rows names prices spread).
Proof.
  induction names as [| nm names' IH]; intro prices; [constructor |].
  destruct prices as [| [x | s] [| [y | t] prices']]; cbn [scan_rows]; try constructor.
  destruct (Rleb (Rabs (x - y)) spread) eqn:E; cbn [app]; [| apply IH].
  constructor; [| apply IH]. cbn. apply Rleb_true. exact E.
Qed.

End ScannerPriced.

(** * The trading rules *)














(** * Properties of the watch list and of the trading rules *)

(** X22: [getPrices()] gives one entry per price cell of the page, in
    order: when no cell text contains a comma and [float] either accepts or
    rejects (ValueError) each text, the call returns a list as long as the
    page has cells, whose i-th entry is the float of the i-th text when
    [float] accepts it and the text itself otherwise. *)
Theorem getPrices_reads_page (py_float : string -> outcome R) (fuel : nat)
    (cells : list string) :
  Forall (fun c => has_char "," c = false) cells ->
  (forall c, In c cells ->
     (exists x, py_float c = Returned x) \/ py_float c = Raised ValueError) ->
  exists priceList,
    getPrices py_float fuel (page_text cells) false = Returned priceList
    /\ List.length priceList = List.length cells
    /\ Forall2 (price_cell py_float) cells priceList.
Proof.
  intros Hc Hok.
  destruct (convert_prices_returns py_float cells Hok) as (vs & Hvs & HF).
  exists vs. rewrite (getPrices_page_raw py_float fuel cells Hc).
  split; [exact Hvs |].
  split; [exact (convert_prices_length py_float cells vs Hvs) | exact HF].
Qed.

Lemma sample_float_outcome (cells : list string) (c : string) :
  In c cells ->
  (exists x, sample_float c = Returned x) \/ sample_float c = Raised ValueError.
Proof.
  intros _. unfold sample_float.
  destruct (String.eqb c "-"); [right; reflexivity | left; eexists; reflexivity].
Qed.

Lemma getPrices_reads_page_witness :
  (Forall (fun c => has_char "," c = false) ["50.25"%string; "-"%string]
   /\ forall c, In c ["50.25"%string; "-"%string] ->
        (exists x, sample_float c = Returned x) \/ sample_float c = Raised ValueError)
  /\ exists priceList,
       getPrices sample_float 0 (page_text ["50.25"%string; "-"%string]) false
       = Returned priceList
       /\ List.length priceList = List.length ["50.25"%string; "-"%string]
       /\ Forall2 (price_cell sample_float) ["50.25"%string; "-"%string] priceList.
Proof.
  assert (H1 : Forall (fun c => has_char "," c = false) ["50.25"%string; "-"%string])
    by (repeat constructor).
  assert (H2 := sample_float_outcome ["50.25"%string; "-"%string]).
  split; [split; assumption |].
  exact (getPrices_reads_page sample_float 0 ["50.25"%string; "-"%string] H1 H2).
Defined.

(** X23: the cleaning loop of [getPrices(clean=True)] ends within
    len(priceList) + 1 passes and returns the list without the pairs
    (entries 2i and 2i+1) whose first entry is not a float; in the result
    every entry at an even index is a float, and cleaning the result again
    changes nothing. The second entry of a pair is never tested. *)
Theorem getPrices_cleaning (priceList : list cell) (fuel : nat) :
  (List.length priceList < fuel)%nat ->
  clean_prices fuel priceList 0 = Returned (drop_unpriced priceList)
  /\ (forall i c, nth_error (drop_unpriced priceList) (2 * i) = Some c ->
                  is_float c = true)
  /\ (List.length (drop_unpriced priceList) <= List.length priceList)%nat
  /\ clean_prices fuel (drop_unpriced priceList) 0
     = Returned (drop_unpriced priceList).
Proof.
  intro Hf.
  split; [apply clean_prices_returns; exact Hf |].
  split; [apply drop_unpriced_even |].
  assert (Hle := drop_unpriced_length priceList).
  split; [exact Hle |].
  rewrite clean_prices_returns by lia. rewrite drop_unpriced_idempotent. reflexivity.
Qed.

Lemma getPrices_cleaning_witness :
  (List.length [Str "-"; Float 51; Float 50; Str "-"] < 5)%nat
  /\ clean_prices 5 [Str "-"; Float 51; Float 50; Str "-"] 0
     = Returned [Float 50; Str "-"].
Proof.
  assert (H : (List.length [Str "-"; Float 51; Float 50; Str "-"] < 5)%nat)
    by (cbn; lia).
  split; [exact H |].
  exact (proj1 (getPrices_cleaning [Str "-"; Float 51; Float 50; Str "-"] 5 H)).
Defined.

(** X24: [scanner] cannot get through a watch list that mixes priced and
    unpriced contracts: when the page lists n >= 1 names and 2n price cells
    (no text containing a comma), [float] accepts or rejects each price
    text, the first price of some contract is rejected and the first price
    of another is accepted, the call raises IndexError or ValueError. *)
Theorem scanner_fails_on_mixed_watchlist (py_float : string -> outcome R) (fuel : nat)
    (ns ps : list string) (spread : R) (i j : nat) (ci cj : string) (x : R) :
  Forall (fun c => has_char "," c = false) ns ->
  Forall (fun c => has_char "," c = false) ps ->
  (forall c, In c ps ->
     (exists y, py_float c = Returned y) \/ py_float c = Raised ValueError) ->
  List.length ps = (2 * List.length ns)%nat ->
  nth_error ps (2 * i) = Some ci -> py_float ci = Raised ValueError ->
  nth_error ps (2 * j) = Some cj -> py_float cj = Returned x ->
  (List.length ps < fuel)%nat ->
  scanner py_float fuel (page_text ns) (page_text ps) spread = Raised IndexError
  \/ scanner py_float fuel (page_text ns) (page_text ps) spread = Raised ValueError.
Proof.
  intros Hns Hps Hok Hlen Hi Hci Hj Hcj Hf.
  destruct (convert_prices_returns py_float ps Hok) as (vs & Hvs & HF).
  assert (Hlv : List.length vs = List.length ps)
    by (apply (convert_prices_length py_float); exact Hvs).
  destruct (Forall2_nth_error _ _ _ HF _ _ Hi) as (vi & Hvi & Ri).
  destruct (Forall2_nth_error _ _ _ HF _ _ Hj) as (vj & Hvj & Rj).
  assert (Fi : is_float vi = false).
  { destruct Ri as [(y & _ & Hy) | (-> & _)]; [congruence | reflexivity]. }
  assert (Fj : is_float vj = true).
  { destruct Rj as [(y & -> & _) | (_ & Hy)]; [reflexivity | congruence]. }
  assert (Hshr := drop_unpriced_shrinks vs i vi Hvi Fi).
  assert (Hkeep := drop_unpriced_keeps vs j vj Hvj Fj).
  unfold scanner. rewrite (getOptionNames_page ns Hns). cbn [bind].
  destruct ns as [| n0 nrest] eqn:En.
  { cbn in Hlen. destruct ps; [destruct i; discriminate | discriminate]. }
  rewrite <- En in *.
  replace (match ns with [] => Returned [] | _ :: _ => _ end)
    with (prices <- getPrices py_float fuel (page_text ps) true ;;
          match prices with
          | [] => Returned []
          | _ :: _ => scanner_loop py_float fuel ns prices spread 0 0 []
          end) by (rewrite En; reflexivity).
  rewrite (getPrices_page_clean py_float fuel ps vs Hps Hvs Hf). cbn [bind].
  destruct (drop_unpriced vs) as [| d0 drest] eqn:Ed; [contradiction |].
  rewrite <- Ed in *.
  apply (scanner_loop_raises py_float fuel ns (drop_unpriced vs) spread 0 []).
  - intros s Hs. apply drop_unpriced_In in Hs.
    destruct (Forall2_In_r _ _ _ HF _ Hs) as (c & _ & [(y & Hy & _) | (Hy & Hc)]);
      [discriminate |].
    inversion Hy; subst. exact Hc.
  - lia.
  - lia.
  - lia.
Qed.

Lemma scanner_fails_on_mixed_watchlist_witness :
  (Forall (fun c => has_char "," c = false) ["A"%string; "B"%string]
   /\ Forall (fun c => has_char "," c = false)
        ["-"%string; "-"%string; "50.25"%string; "51.00"%string]
   /\ (forall c, In c ["-"%string; "-"%string; "50.25"%string; "51.00"%string] ->
         (exists y, sample_float c = Returned y) \/ sample_float c = Raised ValueError)
   /\ List.length ["-"%string; "-"%string; "50.25"%string; "51.00"%string]
      = (2 * List.length ["A"%string; "B"%string])%nat
   /\ nth_error ["-"%string; "-"%string; "50.25"%string; "51.00"%string] (2 * 0)
      = Some "-"%string
   /\ sample_float "-" = Raised ValueError
   /\ nth_error ["-"%string; "-"%string; "50.25"%string; "51.00"%string] (2 * 1)
      = Some "50.25"%string
   /\ sample_float "50.25" = Returned 50
   /\ (List.length ["-"%string; "-"%string; "50.25"%string; "51.00"%string] < 5)%nat)
  /\ (scanner sample_float 5 (page_text ["A"%string; "B"%string])
        (page_text ["-"%string; "-"%string; "50.25"%string; "51.00"%string]) 1
      = Raised IndexError
      \/ scanner sample_float 5 (page_text ["A"%string; "B"%string])
           (page_text ["-"%string; "-"%string; "50.25"%string; "51.00"%string]) 1
         = Raised ValueError).
Proof.
  assert (H1 : Forall (fun c => has_char "," c = false) ["A"%string; "B"%string])
    by (repeat constructor).
  assert (H2 : Forall (fun c => has_char "," c = false)
                 ["-"%string; "-"%string; "50.25"%string; "51.00"%string])
    by (repeat constructor).
  assert (H3 := sample_float_outcome
                  ["-"%string; "-"%string; "50.25"%string; "51.00"%string]).
  assert (H4 : List.length ["-"%string; "-"%string; "50.25"%string; "51.00"%string]
               = (2 * List.length ["A"%string; "B"%string])%nat) by reflexivity.
  assert (H5 : nth_error ["-"%string; "-"%string; "50.25"%string; "51.00"%string]
                 (2 * 0) = Some "-"%string) by reflexivity.
  assert (H6 : sample_float "-" = Raised ValueError) by reflexivity.
  assert (H7 : nth_error ["-"%string; "-"%string; "50.25"%string; "51.00"%string]
                 (2 * 1) = Some "50.25"%string) by reflexivity.
  assert (H8 : sample_float "50.25" = Returned 50) by reflexivity.
  assert (H9 : (List.length ["-"%string; "-"%string; "50.25"%string; "51.00"%string]
                < 5)%nat) by (cbn; lia).
  split; [repeat split; assumption |].
  exact (scanner_fails_on_mixed_watchlist sample_float 5 ["A"%string; "B"%string]
           ["-"%string; "-"%string; "50.25"%string; "51.00"%string] 1 0 1 "-" "50.25" 50
           H1 H2 H3 H4 H5 H6 H7 H8 H9).
Defined.

(** X25: [getOptionNames(clean=True)] raises as soon as a contract is
    priced: when the page lists at least one name, no cell text contains a
    comma, [float] accepts or rejects each price text and accepts the first
    price of some contract, the call raises TypeError (from len of a float)
    or, before it gets there, IndexError; it returns no list. *)
Theorem getOptionNames_clean_fails_when_priced (py_float : string -> outcome R)
    (fuel : nat) (ns ps : list string) (j : nat) (cj : string) (x : R) :
  ns <> [] ->
  Forall (fun c => has_char "," c = false) ns ->
  Forall (fun c => has_char "," c = false) ps ->
  (forall c, In c ps ->
     (exists y, py_float c = Returned y) \/ py_float c = Raised ValueError) ->
  nth_error ps (2 * j) = Some cj -> py_float cj = Returned x ->
  (List.length ps < fuel)%nat ->
  getOptionNames_clean py_float fuel (page_text ns) (page_text ps) = NamesTypeError
  \/ getOptionNames_clean py_float fuel (page_text ns) (page_text ps)
     = NamesRaised IndexError.
Proof.
  intros Hne Hns Hps Hok Hj Hcj Hf.
  destruct (convert_prices_returns py_float ps Hok) as (vs & Hvs & HF).
  destruct (Forall2_nth_error _ _ _ HF _ _ Hj) as (vj & Hvj & Rj).
  assert (Hfloat : vj = Float x).
  { destruct Rj as [(y & -> & Hy) | (_ & Hy)]; congruence. }
  subst vj.
  assert (Hlen : (2 * j < List.length ps)%nat) by (apply nth_error_Some; congruence).
  unfold getOptionNames_clean.
  assert (Hnames := getOptionNames_page ns Hns). unfold getOptionNames in Hnames.
  rewrite Hnames.
  destruct ns as [| n0 nrest]; [contradiction |].
  rewrite (getPrices_page_raw py_float fuel ps Hps), Hvs.
  replace 0%nat with (2 * 0)%nat by reflexivity.
  apply (clean_names_priced fuel (n0 :: nrest) vs 0 j x Hvj); lia.
Qed.

Lemma getOptionNames_clean_fails_when_priced_witness :
  (["A"%string] <> []
   /\ Forall (fun c => has_char "," c = false) ["A"%string]
   /\ Forall (fun c => has_char "," c = false) ["50.25"%string; "51.00"%string]
   /\ (forall c, In c ["50.25"%string; "51.00"%string] ->
         (exists y, sample_float c = Returned y) \/ sample_float c = Raised ValueError)
   /\ nth_error ["50.25"%string; "51.00"%string] (2 * 0) = Some "50.25"%string
   /\ sample_float "50.25" = Returned 50
   /\ (List.length ["50.25"%string; "51.00"%string] < 3)%nat)
  /\ (getOptionNames_clean sample_float 3 (page_text ["A"%string])
        (page_text ["50.25"%string; "51.00"%string]) = NamesTypeError
      \/ getOptionNames_clean sample_float 3 (page_text ["A"%string])
           (page_text ["50.25"%string; "51.00"%string]) = NamesRaised IndexError).
Proof.
  assert (H0 : ["A"%string] <> []) by discriminate.
  assert (H1 : Forall (fun c => has_char "," c = false) ["A"%string])
    by (repeat constructor).
  assert (H2 : Forall (fun c => has_char "," c = false)
                 ["50.25"%string; "51.00"%string]) by (repeat constructor).
  assert (H3 := sample_float_outcome ["50.25"%string; "51.00"%string]).
  assert (H4 : nth_error ["50.25"%string; "51.00"%string] (2 * 0)
               = Some "50.25"%string) by reflexivity.
  assert (H5 : sample_float "50.25" = Returned 50) by reflexivity.
  assert (H6 : (List.length ["50.25"%string; "51.00"%string] < 3)%nat) by (cbn; lia).
  split; [repeat split; assumption |].
  exact (getOptionNames_clean_fails_when_priced sample_float 3 ["A"%string]
           ["50.25"%string; "51.00"%string] 0 "50.25" 50 H0 H1 H2 H3 H4 H5 H6).
Defined.

(** X26: [getIndicatives()] returns one entry more than its script read
    cells: when no cell text contains a comma, a returned list consists of
    one entry per cell read (the float of the text when the text contains a
    '.', the text itself otherwise) followed by an empty string, so it is
    never empty; and it does return when [float] accepts every text that
    contains a '.'. *)
Theorem getIndicatives_trailing_entry (py_float : string -> outcome R)
    (cells : list string) :
  Forall (fun c => has_char "," c = false) cells ->
  (forall l, getIndicatives py_float (page_text cells) = Returned l ->
     exists vs, l = vs ++ [Str EmptyString]
                /\ Forall2 (indicative_cell py_float) cells vs)
  /\ ((forall c, In c cells -> has_char "." c = true ->
         exists x, py_float c = Returned x) ->
      exists l, getIndicatives py_float (page_text cells) = Returned l).
Proof.
  intro Hc. rewrite (getIndicatives_page py_float cells Hc). split.
  - intros l H.
    destruct (convert_indicatives py_float cells) as [vs | |] eqn:E; cbn [bind] in H;
      try discriminate.
    inversion H. exists vs. split; [reflexivity |].
    apply convert_indicatives_inv. exact E.
  - intro Hok. destruct (convert_indicatives_returns py_float cells Hok) as [vs ->].
    cbn [bind]. eexists. reflexivity.
Qed.

Lemma getIndicatives_trailing_entry_witness :
  Forall (fun c => has_char "," c = false) ["1.105"%string; "-"%string]
  /\ exists l,
       getIndicatives sample_float (page_text ["1.105"%string; "-"%string])
       = Returned l
       /\ exists vs, l = vs ++ [Str EmptyString]
                     /\ Forall2 (indicative_cell sample_float)
                          ["1.105"%string; "-"%string] vs.
Proof.
  assert (H : Forall (fun c => has_char "," c = false) ["1.105"%string; "-"%string])
    by (repeat constructor).
  split; [exact H |].
  exists [Float 50; Str "-"; Str EmptyString].
  assert (Hrun : getIndicatives sample_float (page_text ["1.105"%string; "-"%string])
                 = Returned [Float 50; Str "-"; Str EmptyString]) by reflexivity.
  split; [exact Hrun |].
  exact (proj1 (getIndicatives_trailing_entry sample_float
                  ["1.105"%string; "-"%string] H) _ Hrun).
Defined.



(** X28: on a fully priced watch list [scanner] prints exactly the
    contracts within the spread: when the page lists n names and 2n price
    cells (no text containing a comma) and [float] accepts every price
    text, the call returns, in the order of the names, one row for each
    contract whose two prices differ by at most the spread, with the name,
    the two prices (entries 2i and 2i+1 of [getPrices()]) and their distance;
    every distance printed is at most the spread. *)
Theorem scanner_lists_priced_contracts (py_float : string -> outcome R) (fuel : nat)
    (ns ps : list string) (spread : R) :
  Forall (fun c => has_char "," c = false) ns ->
  Forall (fun c => has_char "," c = false) ps ->
  (forall c, In c ps -> exists x, py_float c = Returned x) ->
  List.length ps = (2 * List.length ns)%nat ->
  (List.length ps < fuel)%nat ->
  exists prices,
    getPrices py_float fuel (page_text ps) false = Returned prices
    /\ scanner py_float fuel (page_text ns) (page_text ps) spread
       = Returned (scan_rows ns prices spread)
    /\ Forall (fun r => row_differential r <= spread) (scan_rows ns prices spread).
Proof.
  intros Hns Hps Hok Hlen Hf.
  destruct (convert_prices_returns py_float ps) as (vs & Hvs & HF).
  { intros c Hc. left. apply Hok. exact Hc. }
  assert (Hlv : List.length vs = List.length ps)
    by (apply (convert_prices_length py_float); exact Hvs).
  assert (Hfl : Forall (fun c => is_float c = true) vs).
  { apply Forall_forall. intros v Hv.
    destruct (Forall2_In_r _ _ _ HF v Hv) as (c & Hc & [(x & -> & _) | (_ & Hy)]);
      [reflexivity |].
    destruct (Hok c Hc) as [x Hx]. congruence. }
  exists vs.
  split; [rewrite (getPrices_page_raw py_float fuel ps Hps); exact Hvs |].
  split; [| apply scan_rows_within].
  unfold scanner. rewrite (getOptionNames_page ns Hns). cbn [bind].
  destruct ns as [| n0 nrest] eqn:En; [reflexivity |].
  rewrite <- En in *.
  rewrite (getPrices_page_clean py_float fuel ps vs Hps Hvs Hf). cbn [bind].
  rewrite (drop_unpriced_priced vs Hfl).
  assert (Hrun := scanner_loop_priced py_float spread ns fuel [] [] vs []).
  cbn [app List.length Nat.mul Nat.add] in Hrun.
  rewrite Hrun by (try reflexivity; try assumption; lia).
  destruct vs as [| v0 vrest]; [| rewrite En; reflexivity].
  rewrite En in Hlen. cbn [List.length] in *. lia.
Qed.

Lemma scanner_lists_priced_contracts_witness :
  (Forall (fun c => has_char "," c = false) ["A"%string]
   /\ Forall (fun c => has_char "," c = false) ["50.25"%string; "51.00"%string]
   /\ (forall c, In c ["50.25"%string; "51.00"%string] ->
         exists x, sample_float c = Returned x)
   /\ List.length ["50.25"%string; "51.00"%string]
      = (2 * List.length ["A"%string])%nat
   /\ (List.length ["50.25"%string; "51.00"%string] < 3)%nat)
  /\ exists prices,
       getPrices sample_float 3 (page_text ["50.25"%string; "51.00"%string]) false
       = Returned prices
       /\ scanner sample_float 3 (page_text ["A"%string])
            (page_text ["50.25"%string; "51.00"%string]) 1
          = Returned (scan_rows ["A"%string] prices 1)
       /\ Forall (fun r => row_differential r <= 1)
            (scan_rows ["A"%string] prices 1).
Proof.
  assert (H1 : Forall (fun c => has_char "," c = false) ["A"%string])
    by (repeat constructor).
  assert (H2 : Forall (fun c => has_char "," c = false)
                 ["50.25"%string; "51.00"%string]) by (repeat constructor).
  assert (H3 : forall c, In c ["50.25"%string; "51.00"%string] ->
                 exists x, sample_float c = Returned x).
  { intros c [<- | [<- | []]]; exists 50; reflexivity. }
  assert (H4 : List.length ["50.25"%string; "51.00"%string]
               = (2 * List.length ["A"%string])%nat) by reflexivity.
  assert (H5 : (List.length ["50.25"%string; "51.00"%string] < 3)%nat) by (cbn; lia).
  split; [repeat split; assumption |].
  exact (scanner_lists_priced_contracts sample_float 3 ["A"%string]
           ["50.25"%string; "51.00"%string] 1 H1 H2 H3 H4 H5).
Defined.
